(** * PostHog connector: a shallow embedding of the three operations

    The connector exposes [run_posthog_sql], [list_posthog_dashboards] and
    [get_posthog_insight].  Each reads its configuration from the process
    environment, talks to the upstream HTTP API through [fetch], and reshapes
    the JSON it receives.

    Conventions of the embedding:
    - a JavaScript [number] is a binary64 float ([PrimFloat.float]); counts
      obtained from [Array.prototype.length] are kept as [nat];
    - a JavaScript string is a [string], one character per code unit (the
      code units below 256);
    - a value of TypeScript type [any] is a [jsval];
    - an optional field of a typed upstream record is an [optional]: the key
      is absent, holds JSON [null], or holds a value;
    - a field of an output record typed [T | null] is an [option T], [None]
      being [null];
    - [throw] and [try]/[catch] are a [completion]; [await fetch] threads the
      upstream and the log of requests through a [session]. *)

From Stdlib Require Import List String Ascii Bool Arith NArith Lia.
From Stdlib Require Import ZArith Uint63 PrimFloat FloatAxioms DecimalString.
Import ListNotations.

Set Warnings "-inexact-float,-register-all".
Local Open Scope string_scope.
Local Open Scope list_scope.

Infix "+++" := String.append (right associativity, at level 60).

(** ** JavaScript values and the built-ins the connector uses *)

Module JS.

(** What [throw] can carry here: a standard [Error] (also the [TypeError] and
    [SyntaxError] of the runtime), or the SDK's [UnprocessableContent]. *)
Inductive exn : Type :=
| Error (message : string)
| UnprocessableContent (message : string).

(** [error instanceof Error ? error.message : JSON.stringify(error)]: both
    kinds are instances of [Error]. *)
Definition message_of (e : exn) : string :=
  match e with
  | Error m => m
  | UnprocessableContent m => m
  end.

Inductive completion (A : Type) : Type :=
| Normal (a : A)
| Throw (e : exn).
Arguments Normal {A} a.
Arguments Throw {A} e.

Definition bind {A B} (c : completion A) (k : A -> completion B) : completion B :=
  match c with
  | Normal a => k a
  | Throw e => Throw e
  end.

Notation "x <- c ;; k" := (bind c (fun x => k))
  (at level 61, c at next level, right associativity).

(** [for (const x of items) body], the loop state passed along. *)
Fixpoint for_of {A S} (body : S -> A -> completion S) (items : list A) (s : S)
  : completion S :=
  match items with
  | [] => Normal s
  | x :: rest => s' <- body s x ;; for_of body rest s'
  end.

Inductive jsval : Type :=
| VUndefined
| VNull
| VBool (b : bool)
| VNum (n : float)
| VStr (s : string)
| VArr (items : list jsval)
| VObj (fields : list (string * jsval)).

(** ToBoolean. *)
Definition truthy (v : jsval) : bool :=
  match v with
  | VUndefined | VNull => false
  | VBool b => b
  | VNum n => negb (PrimFloat.eqb n 0 || PrimFloat.is_nan n)
  | VStr s => negb (s =? "")
  | VArr _ | VObj _ => true
  end.

Definition isArray (v : jsval) : bool :=
  match v with VArr _ => true | _ => false end.

Definition elements (v : jsval) : list jsval :=
  match v with VArr l => l | _ => [] end.

Fixpoint lookup (k : string) (fields : list (string * jsval)) : jsval :=
  match fields with
  | [] => VUndefined
  | (k', v) :: rest => if k =? k' then v else lookup k rest
  end.

Fixpoint has_key (k : string) (fields : list (string * jsval)) : bool :=
  match fields with
  | [] => false
  | (k', _) :: rest => (k =? k') || has_key k rest
  end.

(** The text of V8's TypeError for a property read on [null]/[undefined]. *)
Definition cannot_read (k : string) (v : jsval) : string :=
  "Cannot read properties of "
  +++ (match v with VNull => "null" | _ => "undefined" end)
  +++ " (reading '" +++ k +++ "')".

(** [v.k] for the keys the connector reads ([series], [query], [event],
    [name], [id], [events], [actions], [kind]): an own property of an object
    parsed from JSON; no primitive or array prototype defines any of them. *)
Definition get (v : jsval) (k : string) : completion jsval :=
  match v with
  | VUndefined | VNull => Throw (Error (cannot_read k v))
  | VObj fields => Normal (lookup k fields)
  | _ => Normal VUndefined
  end.



(** Number::sameValueZero: both NaN, both a zero of either sign, or the same
    number.  The floats here have a single NaN, so the first and the last case
    are Leibniz equality. *)
Definition is_zero (n : float) : bool := PrimFloat.eqb n 0.

Definition sameValueZero_number (x y : float) : bool :=
  PrimFloat.Leibniz.eqb x y || (is_zero x && is_zero y).

(** SameValueZero, the equality of [Set].  Arrays and objects compare by
    reference, and two nodes of one parsed JSON tree are never the same
    object. *)
Definition sameValueZero (a b : jsval) : bool :=
  match a, b with
  | VUndefined, VUndefined => true
  | VNull, VNull => true
  | VBool x, VBool y => Bool.eqb x y
  | VNum x, VNum y => sameValueZero_number x y
  | VStr x, VStr y => (x =? y)%string
  | _, _ => false
  end.

(** [events.has(v)]: the set holds a value that is the same as [v]. *)
Definition Set_has (events : list jsval) (v : jsval) : bool :=
  existsb (sameValueZero v) events.

(** [events.add(v)] on a [Set] kept in insertion order. *)
Definition Set_add (events : list jsval) (v : jsval) : list jsval :=
  if Set_has events v then events else events ++ [v].

(** *** The two regular expressions of the HogQL scan *)

(** [\s] on code units below 256: TAB, LF, VT, FF, CR, SP and NBSP. *)
Definition is_space (c : ascii) : bool :=
  let n := nat_of_ascii c in
  (((9 <=? n) && (n <=? 13)) || (n =? 32) || (n =? 160))%nat.

Definition is_quote (c : ascii) : bool := (c =? "'")%char.
Definition not_quote (c : ascii) : bool := negb (is_quote c).

(** A letter of the pattern under the [i] flag. *)
Definition letter (lower upper c : ascii) : bool :=
  (c =? lower)%char || (c =? upper)%char.

(** The longest prefix of [s] whose characters satisfy [p], and what follows:
    a greedy [p*] that the next pattern character cannot match into. *)
Fixpoint span (p : ascii -> bool) (s : string) : string * string :=
  match s with
  | EmptyString => (EmptyString, EmptyString)
  | String c r =>
      if p c then let (a, b) := span p r in (String c a, b)
      else (EmptyString, s)
  end.

(** Every character of [s] satisfies [p]. *)
Fixpoint all_chars (p : ascii -> bool) (s : string) : bool :=
  match s with
  | EmptyString => true
  | String c r => p c && all_chars p r
  end.

(** [/event\s*=\s*'([^']+)'/i] tried at the start of [s]: the matched text
    and group 1. *)
Definition exec_event (s : string) : option (string * string) :=
  match s with
  | String c1 (String c2 (String c3 (String c4 (String c5 r)))) =>
      if letter "e" "E" c1 && letter "v" "V" c2 && letter "e" "E" c3
         && letter "n" "N" c4 && letter "t" "T" c5
      then
        let (ws1, r1) := span is_space r in
        match r1 with
        | String eq r2 =>
            if (eq =? "=")%char then
              let (ws2, r3) := span is_space r2 in
              match r3 with
              | String q r4 =>
                  if is_quote q then
                    let (cap, r5) := span not_quote r4 in
                    match cap, r5 with
                    | String _ _, String _ _ =>
                        Some (String c1 (String c2 (String c3 (String c4 (String c5 ws1))))
                                +++ String eq ws2 +++ String q cap +++ "'",
                              cap)
                    | _, _ => None
                    end
                  else None
              | EmptyString => None
              end
            else None
        | EmptyString => None
        end
      else None
  | _ => None
  end.

(** The matches of the global scan, left to right: [skip] is the number of
    positions still covered by the previous match (the distance to
    [lastIndex]). *)
Fixpoint scan_event (s : string) (skip : nat) : list (string * string) :=
  match s with
  | EmptyString => []
  | String _ r =>
      match skip with
      | S k => scan_event r k
      | O =>
          match exec_event s with
          | Some (m, cap) => (m, cap) :: scan_event r (String.length m - 1)
          | None => scan_event r 0
          end
      end
  end.

(** [text.match(/event\s*=\s*'([^']+)'/gi)]: the matched texts, or [null]. *)
Definition match_event_g (text : string) : option (list string) :=
  match map fst (scan_event text 0) with
  | [] => None
  | l => Some l
  end.

(** [/'([^']+)'/] tried at the start of [s]: group 1. *)
Definition exec_quoted (s : string) : option string :=
  match s with
  | String q r =>
      if is_quote q then
        let (cap, r') := span not_quote r in
        match cap, r' with
        | String _ _, String _ _ => Some cap
        | _, _ => None
        end
      else None
  | EmptyString => None
  end.

(** [text.match(/'([^']+)'/)?.[1]]: group 1 of the leftmost match. *)
Fixpoint match_quoted_1 (s : string) : option string :=
  match exec_quoted s with
  | Some cap => Some cap
  | None =>
      match s with
      | EmptyString => None
      | String _ r => match_quoted_1 r
      end
  end.

End JS.

Import JS.

(** ** Optional fields of the typed upstream records *)

(** A field declared [f?: T]: the key may be missing, and the upstream may
    also send JSON [null] for it. *)
Inductive optional (A : Type) : Type :=
| Absent
| Null
| Has (a : A).
Arguments Absent {A}.
Arguments Null {A}.
Arguments Has {A} a.

(** [o ?? d] *)
Definition coalesce {A} (o : optional A) (d : A) : A :=
  match o with Has a => a | _ => d end.

(** [o ?? d] where [d] may itself be [null] *)
Definition orElse {A} (o : optional A) (d : option A) : option A :=
  match o with Has a => Some a | _ => d end.

(** [o ?? null] *)
Definition orNull {A} (o : optional A) : option A := orElse o None.

(** [o?.f]: [undefined] when [o] is nullish. *)
Definition chain {A B} (o : optional A) (f : A -> optional B) : optional B :=
  match o with Has a => f a | _ => Absent end.

Definition nullish {A} (o : optional A) : bool :=
  match o with Has _ => false | _ => true end.

(** ** The HTTP client capability *)

Module Http.

Inductive method : Type := GET | POST.

Record request : Type := {
  req_method : method;
  url : string;
  headers : list (string * string);
  body : option string
}.

(** Decimal digits of a status code, as a template literal prints it. *)
Definition decimal (n : N) : string := NilEmpty.string_of_uint (N.to_uint n).

Section Client.
Variables world payload : Type.

(** A resolved [fetch]: [text] is what [response.text()] yields, [json]
    what [response.json()] yields (a [SyntaxError] when the body is not
    JSON), already read at the operation's response type. *)
Record response : Type := {
  status : N;
  text : string;
  json : completion payload
}.

(** [response.ok]: the status is in the range 200-299. *)
Definition ok (r : response) : bool :=
  ((200 <=? status r) && (status r <=? 299))%N.

(** The upstream answers a request from its current state, and may reject
    (a transport error). *)
Definition fetcher : Type := world -> request -> world * completion response.

Record session : Type := {
  upstream : world;
  calls : list request
}.

Definition io (A : Type) : Type := session -> session * completion A.

Definition ret {A} (a : A) : io A := fun s => (s, Normal a).
Definition throw {A} (e : exn) : io A := fun s => (s, Throw e).
Definition lift {A} (c : completion A) : io A := fun s => (s, c).

Definition bind {A B} (m : io A) (k : A -> io B) : io B :=
  fun s =>
    match m s with
    | (s', Normal a) => k a s'
    | (s', Throw e) => (s', Throw e)
    end.

(** [try { m } catch (error) { handler(error) }] *)
Definition try_catch {A} (m : io A) (handler : exn -> io A) : io A :=
  fun s =>
    match m s with
    | (s', Normal a) => (s', Normal a)
    | (s', Throw e) => handler e s'
    end.

(** [await fetch(url, init)] *)
Definition await_fetch (fetch : fetcher) (req : request) : io response :=
  fun s =>
    let (w', r) := fetch (upstream s) req in
    ({| upstream := w'; calls := calls s ++ [req] |}, r).
End Client.

Arguments status {payload} r.
Arguments text {payload} r.
Arguments json {payload} r.
Arguments ok {payload} r.
Arguments Build_response {payload}.
Arguments upstream {world} s.
Arguments calls {world} s.
Arguments Build_session {world}.
Arguments ret {world A} a.
Arguments throw {world A} e.
Arguments lift {world A} c.
Arguments bind {world A B} m k.
Arguments try_catch {world A} m handler.
Arguments await_fetch {world payload} fetch req.

End Http.

Import Http.

Notation "x <<- m ;; k" := (Http.bind m (fun x => k))
  (at level 61, m at next level, right associativity).

(** ** Configuration from the process environment *)

(** [process.env]: a variable is unset or holds a string. *)
Definition environment : Type := string -> option string.

(** A [string | undefined | null] is truthy when it is a non-empty string;
    the narrowing of [if (!X) throw ...]. *)
Definition truthy_string (v : option string) : option string :=
  match v with
  | Some s => if (s =? "")%string then None else Some s
  | None => None
  end.

(** [v || d] *)
Definition or_default (v : option string) (d : string) : string :=
  match truthy_string v with Some s => s | None => d end.

Definition json_headers (API_KEY : string) : list (string * string) :=
  [("Content-Type", "application/json");
   ("Authorization", "Bearer " +++ API_KEY)].

(** The [GET] request of the insight and dashboard operations. *)
Definition get_json (API_KEY url : string) : request :=
  {| req_method := GET;
     url := url;
     headers := json_headers API_KEY;
     body := None |}.

(** The error of a non-ok response:
    [new Error(`PostHog API error: ${response.status} - ${errorText}`)]. *)
Definition api_error (status : N) (errorText : string) : exn :=
  Error ("PostHog API error: " +++ decimal status +++ " - " +++ errorText).

(** ** run_posthog_sql *)

Module RunSql.

Module API.
Record timing : Type := { k : string; t : float }.

Record PostHogAPIResponse : Type := {
  columns : optional (list string);
  results : optional (list (list jsval));
  hasMore : optional bool;
  limit : optional float;
  offset : optional float;
  is_cached : optional bool;
  timings : optional (list timing)
}.
End API.

Record PostHogQueryResponse : Type := {
  columns : list string;
  results : list string;
  hasMore : bool;
  limit : option float;
  offset : option float;
  isCached : bool;
  executionTime : option float
}.

(** [timings.find(t => t.k === 'query')]: the first such entry, or
    [undefined]. *)
Definition find_query (timings : list API.timing) : optional API.timing :=
  match find (fun t => (API.k t =? "query")%string) timings with
  | Some t => Has t
  | None => Absent
  end.

Definition query_url (HOST PROJECT_ID : string) : string :=
  "https://" +++ HOST +++ "/api/projects/" +++ PROJECT_ID +++ "/query".

Section Operation.
Variable JSON_stringify : jsval -> string.
Variable world : Type.
Variable fetch : fetcher world API.PostHogAPIResponse.
Variable env : environment.

Definition query_request (API_KEY url sql : string) : request :=
  {| req_method := POST;
     url := url;
     headers := json_headers API_KEY;
     body := Some (JSON_stringify
       (VObj [("query", VObj [("kind", VStr "HogQLQuery");
                              ("query", VStr sql)])])) |}.

(** The object literal returned on success. *)
Definition query_response (data : API.PostHogAPIResponse) : PostHogQueryResponse :=
  let stringifiedResults :=
    map (fun row => JSON_stringify (VArr row)) (coalesce (API.results data) []) in
  {| columns := coalesce (API.columns data) [];
     results := stringifiedResults;
     hasMore := coalesce (API.hasMore data) false;
     limit := orNull (API.limit data);
     offset := orNull (API.offset data);
     isCached := coalesce (API.is_cached data) false;
     executionTime :=
       orNull (chain (chain (API.timings data) find_query)
                     (fun t => Has (API.t t))) |}.

Definition run_posthog_sql (sql : string) : io world PostHogQueryResponse :=
  let API_KEY := env "POSTHOG_API_KEY" in
  let PROJECT_ID := env "POSTHOG_PROJECT_ID" in
  let HOST := or_default (env "POSTHOG_HOST") "us.posthog.com" in
  match truthy_string API_KEY with
  | None =>
      throw (UnprocessableContent "POSTHOG_API_KEY environment variable is required")
  | Some API_KEY =>
  match truthy_string PROJECT_ID with
  | None =>
      throw (UnprocessableContent "POSTHOG_PROJECT_ID environment variable is required")
  | Some PROJECT_ID =>
      try_catch
        (let url := query_url HOST PROJECT_ID in
         response <<- await_fetch fetch (query_request API_KEY url sql) ;;
         if negb (ok response) then
           throw (api_error (status response) (text response))
         else
           data <<- lift (json response) ;;
           ret (query_response data))
        (fun error =>
           throw (UnprocessableContent
                    ("PostHog query failed: " +++ message_of error)))
  end
  end.
End Operation.

Arguments run_posthog_sql JSON_stringify {world} fetch env sql.

End RunSql.

(** ** get_posthog_insight *)

Module Insight.

Module API.
Module Creator.
Record t : Type := {
  id : optional float;
  email : optional string;
  first_name : optional string
}.
End Creator.

Module Dashboard.
Record t : Type := { id : float; name : optional string }.
End Dashboard.

(** [number | { id: number; name?: string }] *)
Inductive dashboard_entry : Type :=
| number (d : float)
| object (d : Dashboard.t).

Record PostHogInsightResponse : Type := {
  id : float;
  short_id : optional string;
  name : optional string;
  derived_name : optional string;
  description : optional string;
  tags : optional (list string);
  favorited : optional bool;
  last_refresh : optional string;
  last_modified_at : optional string;
  created_at : optional string;
  created_by : optional Creator.t;
  query : jsval;
  filters : jsval;
  hogql : optional string;
  dashboards : optional (list dashboard_entry)
}.
End API.

Module DashboardReference.
Record t : Type := { id : float; name : option string }.
End DashboardReference.

Record InsightDetailResponse : Type := {
  id : float;
  shortId : option string;
  name : option string;
  derivedName : option string;
  description : option string;
  tags : list string;
  favorited : bool;
  lastRefresh : option string;
  lastModifiedAt : option string;
  createdAt : option string;
  createdBy : option string;
  query : option string;
  filters : option string;
  hogql : option string;
  dashboards : list DashboardReference.t;
  queryKind : jsval;
  trackedEvents : list jsval
}.

(** [typeof v === 'object'] *)
Definition typeof_object (v : jsval) : bool :=
  match v with VNull | VArr _ | VObj _ => true | _ => false end.

(** ['k' in v] for [v] an object or an array parsed from JSON. *)
Definition has_property (k : string) (v : jsval) : bool :=
  match v with VObj fields => has_key k fields | _ => false end.

Definition extractQueryKind (query : jsval) : completion jsval :=
  if negb (truthy query) then Normal VNull
  else if typeof_object query && has_property "kind" query then get query "kind"
  else Normal VNull.

(** [if (v) events.add(v)] *)
Definition add_truthy (events : list jsval) (v : jsval) : list jsval :=
  if truthy v then Set_add events v else events.

(** The block "Extract from new query format". *)
Definition scan_query (events : list jsval) (query : jsval) : completion (list jsval) :=
  if truthy query then
    series <- get query "series" ;;
    events <-
      (if truthy series && isArray series then
         for_of (fun events series =>
                   event <- get series "event" ;;
                   let events := add_truthy events event in
                   name <- get series "name" ;;
                   Normal (add_truthy events name))
                (elements series) events
       else Normal events) ;;
    text <- get query "query" ;;
    match text with
    | VStr hogql =>
        if truthy text then
          match match_event_g hogql with
          | Some eventMatches =>
              for_of (fun events m =>
                        match match_quoted_1 m with
                        | Some eventName => Normal (add_truthy events (VStr eventName))
                        | None => Normal events
                        end)
                     eventMatches events
          | None => Normal events
          end
        else Normal events
    | _ => Normal events
    end
  else Normal events.

(** The block "Extract from legacy filters format". *)
Definition scan_filters (events : list jsval) (filters : jsval)
  : completion (list jsval) :=
  if truthy filters then
    evs <- get filters "events" ;;
    events <-
      (if truthy evs && isArray evs then
         for_of (fun events event =>
                   id <- get event "id" ;;
                   let events := add_truthy events id in
                   name <- get event "name" ;;
                   Normal (add_truthy events name))
                (elements evs) events
       else Normal events) ;;
    actions <- get filters "actions" ;;
    (if truthy actions && isArray actions then
       for_of (fun events action =>
                 name <- get action "name" ;;
                 Normal (add_truthy events name))
              (elements actions) events
     else Normal events)
  else Normal events.

Definition extractTrackedEvents (query filters : jsval) : completion (list jsval) :=
  let events : list jsval := [] in
  events <- scan_query events query ;;
  events <- scan_filters events filters ;;
  Normal events.

(** The loop bodies above, named: entries read at two keys, at one key, and
    the matches of the HogQL text. *)
Definition scan2 (k1 k2 : string) (events : list jsval) (entry : jsval)
  : completion (list jsval) :=
  a <- get entry k1 ;;
  let events := add_truthy events a in
  b <- get entry k2 ;;
  Normal (add_truthy events b).

Definition scan1 (k1 : string) (events : list jsval) (entry : jsval)
  : completion (list jsval) :=
  a <- get entry k1 ;;
  Normal (add_truthy events a).

Definition scan_matches (events : list jsval) (m : string) : completion (list jsval) :=
  match match_quoted_1 m with
  | Some eventName => Normal (add_truthy events (VStr eventName))
  | None => Normal events
  end.

(** One entry of [dashboards], normalized. *)
Definition dashboard_reference (d : API.dashboard_entry) : DashboardReference.t :=
  {| DashboardReference.id :=
       match d with
       | API.number n => n
       | API.object o => API.Dashboard.id o
       end;
     DashboardReference.name :=
       match d with
       | API.number _ => None
       | API.object o => orNull (API.Dashboard.name o)
       end |}.

Definition insight_url (HOST PROJECT_ID insightId : string) : string :=
  "https://" +++ HOST +++ "/api/projects/" +++ PROJECT_ID
  +++ "/insights/" +++ insightId +++ "/".

Section Operation.
Variable JSON_stringify : jsval -> string.
Variable Number_toString : float -> string.
Variable world : Type.
Variable fetch : fetcher world API.PostHogInsightResponse.
Variable env : environment.

(** The object literal returned on success; its last two fields call the
    helpers, which may throw. *)
Definition insight_detail (data : API.PostHogInsightResponse)
  : completion InsightDetailResponse :=
  kind <- extractQueryKind (API.query data) ;;
  events <- extractTrackedEvents (API.query data) (API.filters data) ;;
  Normal
    {| id := API.id data;
       shortId := orNull (API.short_id data);
       name := orElse (API.name data) (orNull (API.derived_name data));
       derivedName := orNull (API.derived_name data);
       description := orNull (API.description data);
       tags := coalesce (API.tags data) [];
       favorited := coalesce (API.favorited data) false;
       lastRefresh := orNull (API.last_refresh data);
       lastModifiedAt := orNull (API.last_modified_at data);
       createdAt := orNull (API.created_at data);
       createdBy :=
         orElse (chain (API.created_by data) API.Creator.email)
                (orNull (chain (API.created_by data) API.Creator.first_name));
       query := if truthy (API.query data)
                then Some (JSON_stringify (API.query data)) else None;
       filters := if truthy (API.filters data)
                  then Some (JSON_stringify (API.filters data)) else None;
       hogql := orNull (API.hogql data);
       dashboards := map dashboard_reference (coalesce (API.dashboards data) []);
       queryKind := kind;
       trackedEvents := events |}.

Definition get_posthog_insight (insightId : float) : io world InsightDetailResponse :=
  let API_KEY := env "POSTHOG_API_KEY" in
  let PROJECT_ID := env "POSTHOG_PROJECT_ID" in
  let HOST := or_default (env "POSTHOG_HOST") "us.posthog.com" in
  match truthy_string API_KEY with
  | None =>
      throw (UnprocessableContent "POSTHOG_API_KEY environment variable is required")
  | Some API_KEY =>
  match truthy_string PROJECT_ID with
  | None =>
      throw (UnprocessableContent "POSTHOG_PROJECT_ID environment variable is required")
  | Some PROJECT_ID =>
      try_catch
        (let url := insight_url HOST PROJECT_ID (Number_toString insightId) in
         response <<- await_fetch fetch (get_json API_KEY url) ;;
         if negb (ok response) then
           throw (api_error (status response) (text response))
         else
           data <<- lift (json response) ;;
           lift (insight_detail data))
        (fun error =>
           throw (UnprocessableContent
                    ("Failed to get insight: " +++ message_of error)))
  end
  end.
End Operation.

Arguments get_posthog_insight JSON_stringify Number_toString {world} fetch env insightId.

End Insight.

(** ** list_posthog_dashboards *)

Module Dashboards.

Module API.
Module Creator.
Record t : Type := {
  id : optional float;
  email : optional string;
  first_name : optional string
}.
End Creator.

Module TileInsight.
Record t : Type := {
  id : float;
  short_id : optional string;
  name : optional string;
  derived_name : optional string;
  description : optional string
}.
End TileInsight.

Module PostHogTile.
Record t : Type := {
  id : optional float;
  insight : optional TileInsight.t
}.
End PostHogTile.

Record PostHogDashboard : Type := {
  id : float;
  name : optional string;
  description : optional string;
  tags : optional (list string);
  pinned : optional bool;
  created_at : optional string;
  created_by : optional Creator.t;
  last_accessed_at : optional string;
  tiles : optional (list PostHogTile.t)
}.

Record PostHogDashboardListResponse : Type := {
  count : optional float;
  next : optional string;
  previous : optional string;
  results : optional (list PostHogDashboard)
}.
End API.

Module InsightSummary.
Record t : Type := {
  id : float;
  shortId : option string;
  name : option string;
  description : option string
}.
End InsightSummary.

Record DashboardSummary : Type := {
  id : float;
  name : option string;
  description : option string;
  tags : list string;
  pinned : bool;
  createdAt : option string;
  createdBy : option string;
  lastAccessedAt : option string;
  insightCount : nat;
  insights : list InsightSummary.t
}.

Record ListDashboardsResponse : Type := {
  dashboards : list DashboardSummary;
  totalCount : nat
}.

(** [items.map(f)] for an [f] that may throw. *)
Fixpoint map_throws {A B} (f : A -> completion B) (items : list A)
  : completion (list B) :=
  match items with
  | [] => Normal []
  | x :: rest => y <- f x ;; ys <- map_throws f rest ;; Normal (y :: ys)
  end.

(** [tile.insight != null] *)
Definition has_insight (tile : API.PostHogTile.t) : bool :=
  negb (nullish (API.PostHogTile.insight tile)).

(** [tile.insight!]: the assertion is erased at run time, so a property read
    on a nullish [insight] is a TypeError. *)
Definition insight_asserted (tile : API.PostHogTile.t) : completion API.TileInsight.t :=
  match API.PostHogTile.insight tile with
  | Has i => Normal i
  | Null => Throw (Error (cannot_read "id" VNull))
  | Absent => Throw (Error (cannot_read "id" VUndefined))
  end.

Definition insight_summary (i : API.TileInsight.t) : InsightSummary.t :=
  {| InsightSummary.id := API.TileInsight.id i;
     InsightSummary.shortId := orNull (API.TileInsight.short_id i);
     InsightSummary.name := orElse (API.TileInsight.name i)
                                   (orNull (API.TileInsight.derived_name i));
     InsightSummary.description := orNull (API.TileInsight.description i) |}.

(** The body of [for (const dashboard of data.results ?? [])]. *)
Definition push_dashboard (allDashboards : list DashboardSummary)
  (dashboard : API.PostHogDashboard) : completion (list DashboardSummary) :=
  insights <-
    map_throws (fun tile => i <- insight_asserted tile ;; Normal (insight_summary i))
               (filter has_insight (coalesce (API.tiles dashboard) [])) ;;
  Normal (allDashboards ++
    [ {| id := API.id dashboard;
         name := orNull (API.name dashboard);
         description := orNull (API.description dashboard);
         tags := coalesce (API.tags dashboard) [];
         pinned := coalesce (API.pinned dashboard) false;
         createdAt := orNull (API.created_at dashboard);
         createdBy :=
           orElse (chain (API.created_by dashboard) API.Creator.email)
                  (orNull (chain (API.created_by dashboard) API.Creator.first_name));
         lastAccessedAt := orNull (API.last_accessed_at dashboard);
         insightCount := List.length insights;
         insights := insights |} ]).

Definition dashboards_url (HOST PROJECT_ID : string) : string :=
  "https://" +++ HOST +++ "/api/projects/" +++ PROJECT_ID +++ "/dashboards/".

Section Operation.
Variable world : Type.
Variable fetch : fetcher world API.PostHogDashboardListResponse.
Variable env : environment.

(** [while (nextUrl) { ... }].  The loop has no bound of its own; [fuel]
    bounds the number of iterations the model follows, and [None] is a loop
    still running when it is used up. *)
Fixpoint paginate (fuel : nat) (API_KEY : string) (nextUrl : option string)
  (allDashboards : list DashboardSummary)
  : io world (option (list DashboardSummary)) :=
  match truthy_string nextUrl with
  | None => ret (Some allDashboards)
  | Some nextUrl =>
      match fuel with
      | O => ret None
      | S fuel =>
          response <<- await_fetch fetch (get_json API_KEY nextUrl) ;;
          if negb (ok response) then
            throw (api_error (status response) (text response))
          else
            data <<- lift (json response) ;;
            allDashboards <<-
              lift (for_of push_dashboard (coalesce (API.results data) [])
                           allDashboards) ;;
            paginate fuel API_KEY (orNull (API.next data)) allDashboards
      end
  end.

Definition list_posthog_dashboards (fuel : nat)
  : io world (option ListDashboardsResponse) :=
  let API_KEY := env "POSTHOG_API_KEY" in
  let PROJECT_ID := env "POSTHOG_PROJECT_ID" in
  let HOST := or_default (env "POSTHOG_HOST") "us.posthog.com" in
  match truthy_string API_KEY with
  | None =>
      throw (UnprocessableContent "POSTHOG_API_KEY environment variable is required")
  | Some API_KEY =>
  match truthy_string PROJECT_ID with
  | None =>
      throw (UnprocessableContent "POSTHOG_PROJECT_ID environment variable is required")
  | Some PROJECT_ID =>
      try_catch
        (let allDashboards : list DashboardSummary := [] in
         let nextUrl := Some (dashboards_url HOST PROJECT_ID) in
         done <<- paginate fuel API_KEY nextUrl allDashboards ;;
         match done with
         | Some allDashboards =>
             ret (Some {| dashboards := allDashboards;
                          totalCount := List.length allDashboards |})
         | None => ret None
         end)
        (fun error =>
           throw (UnprocessableContent
                    ("Failed to list dashboards: " +++ message_of error)))
  end
  end.
End Operation.

Arguments paginate {world} fetch fuel API_KEY nextUrl allDashboards.
Arguments list_posthog_dashboards {world} fetch env fuel.

End Dashboards.

(** ** Vocabulary of the statements *)

(** [answers fetch w req data w']: in state [w] the upstream resolves [req]
    with an ok response whose body parses to [data], and moves to [w']. *)
Definition answers {world payload} (fetch : fetcher world payload)
  (w : world) (req : request) (data : payload) (w' : world) : Prop :=
  exists r, fetch w req = (w', Normal r) /\ ok r = true /\ json r = Normal data.

(** A status outside 200-299. *)
Definition non_2xx {payload} (r : response payload) : Prop :=
  (status r < 200 \/ 299 < status r)%N.

(** [s] contains [sub]; [s] starts with [prefix]. *)
Definition contains (sub s : string) : Prop :=
  exists pre post, s = pre +++ sub +++ post.

Definition starts_with (prefix s : string) : Prop :=
  exists rest, s = prefix +++ rest.

(** The message thrown for a required variable that is not set. *)
Definition required_message (variable : string) : string :=
  variable +++ " environment variable is required".

(** The environment in which every variable set to the empty string is
    unset instead. *)
Definition unset_blank (env : environment) : environment :=
  fun k =>
    match env k with
    | Some s => if (s =? "")%string then None else Some s
    | None => None
    end.

(** ** The tracked events, as the specification words them *)

Module TrackedEvents.

(** A field of an array entry counts when the entry is an object and the
    field's value is neither missing, [null] nor otherwise falsy. *)
Definition present_field (entry : jsval) (k : string) : list jsval :=
  match entry with
  | VObj fields => if truthy (lookup k fields) then [lookup k fields] else []
  | _ => []
  end.

(** The array found under key [k] of [v]; nothing when [v] is not an object
    or the key holds no array. *)
Definition array_under (v : jsval) (k : string) : list jsval :=
  match v with
  | VObj fields => elements (lookup k fields)
  | _ => []
  end.

(** (a) each entry of [series]: its [event], then its [name]. *)
Definition from_series (query : jsval) : list jsval :=
  flat_map (fun entry => present_field entry "event" ++ present_field entry "name")
           (array_under query "series").

(** Group 1 of every match of the pattern over the text, left to right. *)
Definition captures (hogql : string) : list string :=
  map snd (scan_event hogql 0).

(** (b) the values captured from the nested HogQL text. *)
Definition from_hogql (query : jsval) : list jsval :=
  match query with
  | VObj fields =>
      match lookup "query" fields with
      | VStr hogql => map VStr (captures hogql)
      | _ => []
      end
  | _ => []
  end.

(** (c) each entry of [filters.events]: its [id], then its [name]. *)
Definition from_filter_events (filters : jsval) : list jsval :=
  flat_map (fun entry => present_field entry "id" ++ present_field entry "name")
           (array_under filters "events").

(** (d) each entry of [filters.actions]: its [name]. *)
Definition from_filter_actions (filters : jsval) : list jsval :=
  flat_map (fun entry => present_field entry "name")
           (array_under filters "actions").

Definition discovered (query filters : jsval) : list jsval :=
  from_series query ++ from_hogql query
  ++ from_filter_events filters ++ from_filter_actions filters.

(** Every value kept at its first occurrence, later occurrences dropped. *)
Fixpoint first_occurrences (l : list jsval) : list jsval :=
  match l with
  | [] => []
  | x :: rest =>
      x :: filter (fun y => negb (sameValueZero x y)) (first_occurrences rest)
  end.


(** A field that is missing, [null] or the empty string. *)
Definition blank (v : jsval) : Prop :=
  v = VUndefined \/ v = VNull \/ v = VStr "".

(** An entry whose properties can be read: anything but [null] (and
    [undefined], which JSON cannot express). *)
Definition readable (entry : jsval) : bool :=
  match entry with VUndefined | VNull => false | _ => true end.

(** No scanned array holds a [null] entry. *)
Definition entries_readable (query filters : jsval) : bool :=
  forallb readable (array_under query "series")
  && forallb readable (array_under filters "events")
  && forallb readable (array_under filters "actions").

End TrackedEvents.

(** ** The dashboard summary, as the specification words it *)

Module DashboardSpec.
Import Dashboards.

(** The tiles carrying a non-null [insight] sub-object, as their insights. *)
Definition insight_tiles (tiles : list API.PostHogTile.t) : list API.TileInsight.t :=
  flat_map (fun tile =>
              match API.PostHogTile.insight tile with
              | Has i => [i]
              | _ => []
              end) tiles.

Definition dashboard_summary (dashboard : API.PostHogDashboard) : DashboardSummary :=
  let insights :=
    map insight_summary (insight_tiles (coalesce (API.tiles dashboard) [])) in
  {| id := API.id dashboard;
     name := orNull (API.name dashboard);
     description := orNull (API.description dashboard);
     tags := coalesce (API.tags dashboard) [];
     pinned := coalesce (API.pinned dashboard) false;
     createdAt := orNull (API.created_at dashboard);
     createdBy :=
       orElse (chain (API.created_by dashboard) API.Creator.email)
              (orNull (chain (API.created_by dashboard) API.Creator.first_name));
     lastAccessedAt := orNull (API.last_accessed_at dashboard);
     insightCount := List.length insights;
     insights := insights |}.

(** The mapped [results] of one page. *)
Definition page_summaries (page : API.PostHogDashboardListResponse)
  : list DashboardSummary :=
  map dashboard_summary (coalesce (API.results page) []).

(** The URLs requested while going through [pages] from [next]. *)
Fixpoint page_urls (next : option string) (pages : list API.PostHogDashboardListResponse)
  : list string :=
  match pages, truthy_string next with
  | page :: rest, Some url => url :: page_urls (orNull (API.next page)) rest
  | _, _ => []
  end.

(** The number of dashboards the pages hold. *)
Definition results_total (pages : list API.PostHogDashboardListResponse) : nat :=
  list_sum (map (fun page => List.length (coalesce (API.results page) [])) pages).

Section Pages.
Variable world : Type.
Variable fetch : fetcher world API.PostHogDashboardListResponse.
Variable API_KEY : string.

(** [linked w next pages w']: from upstream state [w], following [next]
    yields exactly [pages], one successful fetch each, every page's [next]
    being the (non-empty) URL of the page after it and the last page's [next]
    being null or absent; [w'] is the upstream state at the end. *)
Inductive linked : world -> option string -> list API.PostHogDashboardListResponse
                   -> world -> Prop :=
| linked_end w : linked w None [] w
| linked_page w url w1 page pages w' :
    url <> ""%string ->
    answers fetch w (get_json API_KEY url) page w1 ->
    linked w1 (orNull (API.next page)) pages w' ->
    linked w (Some url) (page :: pages) w'.

(** [walked w next pages w']: the pages the loop goes through from [w] and
    [next] until [next] is falsy, each answered by the upstream. *)
Inductive walked : world -> option string -> list API.PostHogDashboardListResponse
                   -> world -> Prop :=
| walked_end w next : truthy_string next = None -> walked w next [] w
| walked_page w next url w1 page pages w' :
    truthy_string next = Some url ->
    answers fetch w (get_json API_KEY url) page w1 ->
    walked w1 (orNull (API.next page)) pages w' ->
    walked w next (page :: pages) w'.

(** An upstream whose every answer, in every state, is a successful page
    that links to a further page. *)
Definition never_ends : Prop :=
  forall w req, exists w1 page url,
    answers fetch w req page w1 /\ API.next page = Has url /\ url <> ""%string.

(** After [k] successful pages the lister asks for [url] and the upstream
    answers with a response [r] whose status is not 2xx. *)
Inductive fails_after : world -> option string -> nat -> world
                        -> response API.PostHogDashboardListResponse -> Prop :=
| fails_now w url w' r :
    url <> ""%string ->
    fetch w (get_json API_KEY url) = (w', Normal r) ->
    non_2xx r ->
    fails_after w (Some url) 0 w' r
| fails_later w url w1 page k w' r :
    url <> ""%string ->
    answers fetch w (get_json API_KEY url) page w1 ->
    fails_after w1 (orNull (API.next page)) k w' r ->
    fails_after w (Some url) (S k) w' r.
End Pages.

Arguments linked {world} fetch API_KEY _ _ _ _.
Arguments walked {world} fetch API_KEY _ _ _ _.
Arguments fails_after {world} fetch API_KEY _ _ _ _ _.
Arguments never_ends {world} fetch.

End DashboardSpec.

(** ** Inputs used in the examples *)

Module Samples.

(** [{ series: [{event: "a"}, {event: "a", name: "a"}] }] *)
Definition series_a_twice : jsval :=
  VObj [("series", VArr [VObj [("event", VStr "a")];
                         VObj [("event", VStr "a"); ("name", VStr "a")]])].

(** An environment given by its bindings. *)
Fixpoint env_of (bindings : list (string * string)) : environment :=
  fun k =>
    match bindings with
    | [] => None
    | (k', v) :: rest => if (k =? k')%string then Some v else env_of rest k
    end.

Definition full_env : environment :=
  env_of [("POSTHOG_API_KEY", "phx_key"); ("POSTHOG_PROJECT_ID", "42");
          ("POSTHOG_HOST", "eu.posthog.com")].

(** An upstream that answers every request with the same response. *)
Definition always {payload} (r : response payload) : fetcher unit payload :=
  fun w _ => (w, Normal r).

(** A stateless upstream given by the responses it serves per URL; any other
    request is rejected. *)
Fixpoint serves {payload} (site : list (string * response payload))
  : fetcher unit payload :=
  fun w req =>
    match site with
    | [] => (w, Throw (Error "fetch failed"))
    | (u, r) :: rest => if (url req =? u)%string then (w, Normal r) else serves rest w req
    end.

Definition fresh : session unit := {| upstream := tt; calls := [] |}.

(** A 404 response. *)
Definition not_found {payload} : response payload :=
  {| status := 404; text := "Not found";
     json := Throw (Error "Unexpected token N in JSON at position 0") |}.

(** A 200 response carrying [data]. *)
Definition ok_response {payload} (data : payload) : response payload :=
  {| status := 200; text := ""; json := Normal data |}.

(** Stand-ins for the two built-in printers, for running the examples. *)
Definition no_stringify (v : jsval) : string := "<json>".
Definition no_toString (n : float) : string := "<number>".

End Samples.

Module InsightSamples.
Import Insight Samples.

(** An insight whose only populated fields are [id] and [query]. *)
Definition bare_insight (query filters : jsval) : API.PostHogInsightResponse :=
  {| API.id := 7%float;
     API.short_id := Absent;
     API.name := Absent;
     API.derived_name := Absent;
     API.description := Absent;
     API.tags := Absent;
     API.favorited := Absent;
     API.last_refresh := Absent;
     API.last_modified_at := Absent;
     API.created_at := Absent;
     API.created_by := Absent;
     API.query := query;
     API.filters := filters;
     API.hogql := Absent;
     API.dashboards := Absent |}.

(** [{ series: [{event: ""}, {name: null}, {event: "b"}] }] *)
Definition series_with_blanks : jsval :=
  VObj [("series", VArr [VObj [("event", VStr "")];
                         VObj [("name", VNull)];
                         VObj [("event", VStr "b")]])].

End InsightSamples.

Module RunSqlSamples.
Import RunSql Samples.

Definition empty_response : API.PostHogAPIResponse :=
  {| API.columns := Absent;
     API.results := Absent;
     API.hasMore := Absent;
     API.limit := Absent;
     API.offset := Absent;
     API.is_cached := Absent;
     API.timings := Absent |}.

(** [{ timings: [{k: "other", t: 1}, {k: "query", t: 0.42}] }] *)
Definition timed_response : API.PostHogAPIResponse :=
  {| API.columns := Absent;
     API.results := Absent;
     API.hasMore := Absent;
     API.limit := Absent;
     API.offset := Absent;
     API.is_cached := Absent;
     API.timings := Has [ {| API.k := "other"; API.t := 1%float |};
                          {| API.k := "query"; API.t := 0.42%float |} ] |}.

End RunSqlSamples.

Module DashboardRefSamples.
Import Insight Samples.

(** An insight whose [dashboards] is [[5, {id: 7, name: "X"}]]. *)
Definition mixed_dashboards : API.PostHogInsightResponse :=
  {| API.id := 7%float;
     API.short_id := Absent;
     API.name := Absent;
     API.derived_name := Absent;
     API.description := Absent;
     API.tags := Absent;
     API.favorited := Absent;
     API.last_refresh := Absent;
     API.last_modified_at := Absent;
     API.created_at := Absent;
     API.created_by := Absent;
     API.query := VUndefined;
     API.filters := VUndefined;
     API.hogql := Absent;
     API.dashboards :=
       Has [ API.number 5%float;
             API.object {| API.Dashboard.id := 7%float;
                           API.Dashboard.name := Has "X"%string |} ] |}.

End DashboardRefSamples.

Module DashboardSamples.
Import Dashboards Samples.

Definition tile (insight : optional API.TileInsight.t) : API.PostHogTile.t :=
  {| API.PostHogTile.id := Absent; API.PostHogTile.insight := insight |}.

Definition insight (id : float) (name derived_name : optional string)
  : API.TileInsight.t :=
  {| API.TileInsight.id := id;
     API.TileInsight.short_id := Absent;
     API.TileInsight.name := name;
     API.TileInsight.derived_name := derived_name;
     API.TileInsight.description := Absent |}.

Definition dashboard (id : float) (tiles : optional (list API.PostHogTile.t))
  : API.PostHogDashboard :=
  {| API.id := id;
     API.name := Absent;
     API.description := Absent;
     API.tags := Absent;
     API.pinned := Absent;
     API.created_at := Absent;
     API.created_by := Absent;
     API.last_accessed_at := Absent;
     API.tiles := tiles |}.

Definition page (count : optional float) (next : optional string)
  (results : optional (list API.PostHogDashboard)) : API.PostHogDashboardListResponse :=
  {| API.count := count; API.next := next; API.previous := Absent;
     API.results := results |}.

(** Three tiles: a text tile, a named insight and an insight with a derived
    name only. *)
Definition three_tiles : list API.PostHogTile.t :=
  [ tile Null;
    tile (Has (insight 11%float (Has "Signups"%string) Absent));
    tile (Has (insight 12%float Absent (Has "Pageviews by day"%string))) ].

Definition first_url : string := dashboards_url "eu.posthog.com" "42".
Definition second_url : string := first_url +++ "?limit=2&offset=2".

Definition page1 : API.PostHogDashboardListResponse :=
  page (Has 99%float) (Has second_url)
       (Has [dashboard 1%float (Has three_tiles); dashboard 2%float Absent]).

Definition page2 : API.PostHogDashboardListResponse :=
  page (Has 99%float) Null (Has [dashboard 3%float (Has [tile Absent])]).

(** A project whose dashboards come in two pages. *)
Definition two_pages : fetcher unit API.PostHogDashboardListResponse :=
  serves [(first_url, ok_response page1); (second_url, ok_response page2)].

(** A page that links to itself. *)
Definition looping_page : API.PostHogDashboardListResponse :=
  page Absent (Has first_url) (Has [dashboard 1%float Absent]).

End DashboardSamples.

(** ** The objects the operations return, as JSON *)

Module Emitted.

(** An array length as a JavaScript number. *)
Definition number_of_nat (n : nat) : float :=
  PrimFloat.of_uint63 (Uint63.of_Z (Z.of_nat n)).

(** A field typed [T | null]. *)
Definition nullable {A} (f : A -> jsval) (o : option A) : jsval :=
  match o with Some a => f a | None => VNull end.

Definition strings (l : list string) : jsval := VArr (map VStr l).







(** *** run_posthog_sql *)

Definition query_response (r : RunSql.PostHogQueryResponse) : jsval :=
  VObj [ ("columns", strings (RunSql.columns r));
         ("results", strings (RunSql.results r));
         ("hasMore", VBool (RunSql.hasMore r));
         ("limit", nullable VNum (RunSql.limit r));
         ("offset", nullable VNum (RunSql.offset r));
         ("isCached", VBool (RunSql.isCached r));
         ("executionTime", nullable VNum (RunSql.executionTime r)) ].




(** *** get_posthog_insight *)

Definition dashboard_reference (r : Insight.DashboardReference.t) : jsval :=
  VObj [ ("id", VNum (Insight.DashboardReference.id r));
         ("name", nullable VStr (Insight.DashboardReference.name r)) ].

Definition insight_detail (r : Insight.InsightDetailResponse) : jsval :=
  VObj [ ("id", VNum (Insight.id r));
         ("shortId", nullable VStr (Insight.shortId r));
         ("name", nullable VStr (Insight.name r));
         ("derivedName", nullable VStr (Insight.derivedName r));
         ("description", nullable VStr (Insight.description r));
         ("tags", strings (Insight.tags r));
         ("favorited", VBool (Insight.favorited r));
         ("lastRefresh", nullable VStr (Insight.lastRefresh r));
         ("lastModifiedAt", nullable VStr (Insight.lastModifiedAt r));
         ("createdAt", nullable VStr (Insight.createdAt r));
         ("createdBy", nullable VStr (Insight.createdBy r));
         ("query", nullable VStr (Insight.query r));
         ("filters", nullable VStr (Insight.filters r));
         ("hogql", nullable VStr (Insight.hogql r));
         ("dashboards", VArr (map dashboard_reference (Insight.dashboards r)));
         ("queryKind", Insight.queryKind r);
         ("trackedEvents", VArr (Insight.trackedEvents r)) ].





(** *** list_posthog_dashboards *)

Definition insight_summary (r : Dashboards.InsightSummary.t) : jsval :=
  VObj [ ("id", VNum (Dashboards.InsightSummary.id r));
         ("shortId", nullable VStr (Dashboards.InsightSummary.shortId r));
         ("name", nullable VStr (Dashboards.InsightSummary.name r));
         ("description", nullable VStr (Dashboards.InsightSummary.description r)) ].

Definition dashboard_summary (r : Dashboards.DashboardSummary) : jsval :=
  VObj [ ("id", VNum (Dashboards.id r));
         ("name", nullable VStr (Dashboards.name r));
         ("description", nullable VStr (Dashboards.description r));
         ("tags", strings (Dashboards.tags r));
         ("pinned", VBool (Dashboards.pinned r));
         ("createdAt", nullable VStr (Dashboards.createdAt r));
         ("createdBy", nullable VStr (Dashboards.createdBy r));
         ("lastAccessedAt", nullable VStr (Dashboards.lastAccessedAt r));
         ("insightCount", VNum (number_of_nat (Dashboards.insightCount r)));
         ("insights", VArr (map insight_summary (Dashboards.insights r))) ].








End Emitted.

Module DefaultSamples.
Import Samples.


End DefaultSamples.


Module FurtherSamples.
Import Samples.

(** An insight query whose series sit under [source]:
    [{ kind: "InsightVizNode", source: { series: [{event: "a"}] } }]. *)
Definition nested_series : jsval :=
  VObj [("kind", VStr "InsightVizNode");
        ("source", VObj [("kind", VStr "TrendsQuery");
                         ("series", VArr [VObj [("event", VStr "a")]])])].

(** [{ series: [{event: "a"}, null] }] *)
Definition series_with_null : jsval :=
  VObj [("series", VArr [VObj [("event", VStr "a")]; VNull])].

(** [{ events: [{id: "b", name: "a"}] }] *)
Definition filters_b_a : jsval :=
  VObj [("events", VArr [VObj [("id", VStr "b"); ("name", VStr "a")]])].

End FurtherSamples.


Module CreatorSamples.
Import Insight Samples.

(** An insight created by someone with an empty email and a first name. *)
Definition empty_email : API.PostHogInsightResponse :=
  {| API.id := 7%float;
     API.short_id := Absent;
     API.name := Absent;
     API.derived_name := Absent;
     API.description := Absent;
     API.tags := Absent;
     API.favorited := Absent;
     API.last_refresh := Absent;
     API.last_modified_at := Absent;
     API.created_at := Absent;
     API.created_by :=
       Has {| API.Creator.id := Has 1%float;
              API.Creator.email := Has ""%string;
              API.Creator.first_name := Has "Ada"%string |};
     API.query := VNum 0%float;
     API.filters := VObj [];
     API.hogql := Absent;
     API.dashboards := Absent |}.

End CreatorSamples.


(** ** Ways the lister's loop breaks off *)

Module DashboardFailures.
Import Dashboards.

Section Breaks.
Variable world : Type.
Variable fetch : fetcher world API.PostHogDashboardListResponse.
Variable API_KEY : string.

(** [breaks w next k w' e]: after [k] answered pages the request for the
    next page is rejected with [e], or its answer is ok but its body does
    not parse, [response.json()] throwing [e]. *)
Inductive breaks : world -> option string -> nat -> world -> exn -> Prop :=
| breaks_rejected w url w' e :
    url <> ""%string ->
    fetch w (get_json API_KEY url) = (w', Throw e) ->
    breaks w (Some url) 0 w' e
| breaks_unparsed w url w' r e :
    url <> ""%string ->
    fetch w (get_json API_KEY url) = (w', Normal r) ->
    ok r = true ->
    json r = Throw e ->
    breaks w (Some url) 0 w' e
| breaks_later w url w1 page k w' e :
    url <> ""%string ->
    answers fetch w (get_json API_KEY url) page w1 ->
    breaks w1 (orNull (API.next page)) k w' e ->
    breaks w (Some url) (S k) w' e.
End Breaks.

Arguments breaks {world} fetch API_KEY _ _ _ _ _.

End DashboardFailures.

Module FailureSamples.
Import Samples.

(** An upstream that cannot be reached. *)
Definition unreachable {payload} : fetcher unit payload :=
  fun w _ => (w, Throw (Error "fetch failed")).

(** A 200 response whose body is not JSON. *)
Definition not_json {payload} : response payload :=
  {| status := 200; text := "<html>";
     json := Throw (Error "Unexpected token < in JSON at position 0") |}.

(** A single page whose [next] is the empty string. *)
Definition page_with_empty_next : Dashboards.API.PostHogDashboardListResponse :=
  DashboardSamples.page Absent (Has ""%string)
    (Has [DashboardSamples.dashboard 1%float Absent]).

(** Two rows of a query result. *)
Definition two_rows : RunSql.API.PostHogAPIResponse :=
  {| RunSql.API.columns := Has ["event"; "count"]%string;
     RunSql.API.results :=
       Has [ [VStr "a"; VNum 1%float]; [VStr "b"; VNull] ];
     RunSql.API.hasMore := Has true;
     RunSql.API.limit := Has 100%float;
     RunSql.API.offset := Absent;
     RunSql.API.is_cached := Absent;
     RunSql.API.timings := Absent |}.

End FailureSamples.

(** * Properties *)

(** ** SameValueZero and insertion into a [Set] *)

Lemma sameValueZero_number_sym x y :
  sameValueZero_number x y = sameValueZero_number y x.
Proof.
  unfold sameValueZero_number.
  rewrite (andb_comm (is_zero x)). f_equal.
  destruct (PrimFloat.Leibniz.eqb x y) eqn:E, (PrimFloat.Leibniz.eqb y x) eqn:E'; trivial.
  - apply Leibniz.eqb_spec in E. symmetry in E.
    apply Leibniz.eqb_spec in E. congruence.
  - apply Leibniz.eqb_spec in E'. symmetry in E'.
    apply Leibniz.eqb_spec in E'. congruence.
Qed.

Lemma sameValueZero_number_trans x y z :
  sameValueZero_number x y = true -> sameValueZero_number y z = true ->
  sameValueZero_number x z = true.
Proof.
  unfold sameValueZero_number. intros Hxy Hyz.
  apply orb_true_iff in Hxy. apply orb_true_iff in Hyz.
  destruct Hxy as [Hxy | Hxy].
  - apply Leibniz.eqb_spec in Hxy. subst y.
    apply orb_true_iff. exact Hyz.
  - destruct Hyz as [Hyz | Hyz].
    + apply Leibniz.eqb_spec in Hyz. subst z. now rewrite Hxy, orb_true_r.
    + apply andb_true_iff in Hxy. apply andb_true_iff in Hyz.
      destruct Hxy as [-> _], Hyz as [_ ->]. apply orb_true_r.
Qed.

Lemma sameValueZero_sym a b : sameValueZero a b = sameValueZero b a.
Proof.
  destruct a, b; simpl; trivial.
  - destruct b, b0; reflexivity.
  - apply sameValueZero_number_sym.
  - apply String.eqb_sym.
Qed.

Lemma sameValueZero_trans a b c :
  sameValueZero a b = true -> sameValueZero b c = true -> sameValueZero a c = true.
Proof.
  destruct a, b; simpl; try discriminate; destruct c; simpl; try discriminate; trivial.
  - destruct b, b0, b1; simpl; congruence.
  - apply sameValueZero_number_trans.
  - intros H1 H2. apply String.eqb_eq in H1. apply String.eqb_eq in H2.
    subst. apply String.eqb_refl.
Qed.

Lemma Set_has_same events x y :
  sameValueZero x y = true -> Set_has events x = true -> Set_has events y = true.
Proof.
  unfold Set_has. intros Hxy Hx.
  apply existsb_exists in Hx. destruct Hx as [a [Ha Hxa]].
  apply existsb_exists. exists a. split; trivial.
  apply sameValueZero_trans with x; trivial.
  now rewrite sameValueZero_sym.
Qed.

Lemma Set_has_app events x v :
  Set_has (events ++ [x]) v = Set_has events v || sameValueZero x v.
Proof.
  unfold Set_has. rewrite existsb_app. simpl.
  now rewrite orb_false_r, (sameValueZero_sym v x).
Qed.

(** Adding values one after the other keeps, after what the set already
    held, the first occurrence of every value it did not hold. *)
Lemma fold_Set_add l : forall events,
  fold_left Set_add l events
  = events ++ filter (fun y => negb (Set_has events y)) (TrackedEvents.first_occurrences l).
Proof.
  induction l as [|x l IH]; intros events; simpl.
  - now rewrite app_nil_r.
  - rewrite IH. unfold Set_add.
    destruct (Set_has events x) eqn:Hx; simpl.
    + f_equal. generalize (TrackedEvents.first_occurrences l) as L.
      induction L as [|y L IHL]; simpl; trivial.
      destruct (sameValueZero x y) eqn:Hxy; simpl.
      * rewrite (Set_has_same events x y Hxy Hx). simpl. exact IHL.
      * destruct (Set_has events y); simpl; now rewrite IHL.
    + rewrite <- app_assoc. simpl. do 2 f_equal.
      generalize (TrackedEvents.first_occurrences l) as L.
      induction L as [|y L IHL]; simpl; trivial.
      rewrite Set_has_app, negb_orb.
      destruct (sameValueZero x y); simpl.
      * now rewrite andb_false_r.
      * rewrite andb_true_r. destruct (Set_has events y); simpl; now rewrite IHL.
Qed.

Lemma fold_Set_add_nil l :
  fold_left Set_add l [] = TrackedEvents.first_occurrences l.
Proof.
  rewrite fold_Set_add. simpl.
  induction (TrackedEvents.first_occurrences l); simpl; congruence.
Qed.

(** ** The regular expressions *)

Lemma span_spec p s a b :
  span p s = (a, b) ->
  s = a +++ b /\ all_chars p a = true
  /\ match b with String c _ => p c = false | EmptyString => True end.
Proof.
  revert a b. induction s as [|c s IH]; simpl; intros a b H.
  - inversion H. subst. auto.
  - destruct (p c) eqn:Hc.
    + destruct (span p s) as [a' b'] eqn:E. inversion H. subst.
      destruct (IH _ _ eq_refl) as [-> [Ha Hb]].
      simpl. rewrite Hc, Ha. auto.
    + inversion H. subst. simpl. rewrite Hc. auto.
Qed.

Lemma span_app p a b :
  all_chars p a = true ->
  match b with String c _ => p c = false | EmptyString => True end ->
  span p (a +++ b) = (a, b).
Proof.
  induction a as [|c a IH]; simpl; intros Ha Hb.
  - destruct b as [|c b]; simpl; trivial. now rewrite Hb.
  - apply andb_true_iff in Ha. destruct Ha as [Hc Ha].
    now rewrite Hc, IH.
Qed.

Lemma match_quoted_1_skip pre s :
  all_chars not_quote pre = true ->
  match_quoted_1 (pre +++ s) = match_quoted_1 s.
Proof.
  induction pre as [|c pre IH]; simpl; intros H; trivial.
  apply andb_true_iff in H. destruct H as [Hc H].
  unfold not_quote in Hc. apply negb_true_iff in Hc.
  rewrite Hc. auto.
Qed.

Lemma all_chars_app p a b :
  all_chars p (a +++ b) = all_chars p a && all_chars p b.
Proof.
  induction a as [|c a IH]; simpl; trivial. now rewrite IH, andb_assoc.
Qed.

Lemma all_chars_weaken (p q : ascii -> bool) s :
  (forall c, p c = true -> q c = true) ->
  all_chars p s = true -> all_chars q s = true.
Proof.
  intros Hpq. induction s as [|c s IH]; simpl; trivial.
  intros H. apply andb_true_iff in H. destruct H as [Hc H].
  now rewrite (Hpq _ Hc), IH.
Qed.

Lemma space_not_quote c : is_space c = true -> not_quote c = true.
Proof.
  unfold not_quote, is_quote. intros H.
  destruct (Ascii.eqb_spec c "'"); trivial. subst. discriminate.
Qed.

Lemma letter_not_quote l u c :
  is_quote l = false -> is_quote u = false ->
  letter l u c = true -> not_quote c = true.
Proof.
  unfold letter, not_quote. intros Hl Hu H.
  apply orb_true_iff in H.
  destruct H as [H | H]; apply Ascii.eqb_eq in H; subst; now apply negb_true_iff.
Qed.

(** What a match of the event pattern looks like: the re-match of the quoted
    part inside its text finds group 1, which is not empty. *)
Lemma exec_event_quoted s m cap :
  exec_event s = Some (m, cap) ->
  match_quoted_1 m = Some cap /\ cap <> ""%string.
Proof.
  unfold exec_event.
  destruct s as [|c1 [|c2 [|c3 [|c4 [|c5 r]]]]]; try discriminate.
  destruct (letter "e" "E" c1) eqn:L1; try discriminate.
  destruct (letter "v" "V" c2) eqn:L2; try discriminate.
  destruct (letter "e" "E" c3) eqn:L3; try discriminate.
  destruct (letter "n" "N" c4) eqn:L4; try discriminate.
  destruct (letter "t" "T" c5) eqn:L5; try discriminate.
  simpl.
  destruct (span is_space r) as [ws1 r1] eqn:S1.
  destruct r1 as [|eq r2]; try discriminate.
  destruct (Ascii.eqb_spec eq "="); try discriminate. subst eq.
  destruct (span is_space r2) as [ws2 r3] eqn:S2.
  destruct r3 as [|q r4]; try discriminate.
  destruct (is_quote q) eqn:Q; try discriminate.
  destruct (span not_quote r4) as [cap' r5] eqn:S3.
  destruct cap' as [|k cap']; try discriminate.
  destruct r5 as [|q' r6]; try discriminate.
  intros H. inversion H. subst m cap. clear H.
  split; [|discriminate].
  apply span_spec in S1. destruct S1 as [_ [W1 _]].
  apply span_spec in S2. destruct S2 as [_ [W2 _]].
  apply span_spec in S3. destruct S3 as [_ [W3 _]].
  assert (P1 : all_chars not_quote
                 (String c1 (String c2 (String c3 (String c4 (String c5 ws1))))) = true).
  { simpl.
    rewrite (letter_not_quote "e" "E" _ eq_refl eq_refl L1),
            (letter_not_quote "v" "V" _ eq_refl eq_refl L2),
            (letter_not_quote "e" "E" _ eq_refl eq_refl L3),
            (letter_not_quote "n" "N" _ eq_refl eq_refl L4),
            (letter_not_quote "t" "T" _ eq_refl eq_refl L5).
    exact (all_chars_weaken _ _ _ space_not_quote W1). }
  assert (P2 : all_chars not_quote (String "=" ws2) = true)
    by exact (all_chars_weaken _ _ _ space_not_quote W2).
  assert (E : span not_quote (String k cap' +++ "'") = (String k cap', "'"%string))
    by (apply span_app; trivial).
  change (match_quoted_1
            (String c1 (String c2 (String c3 (String c4 (String c5 ws1))))
             +++ (String "=" ws2 +++ String q (String k cap' +++ "'")))
          = Some (String k cap')).
  rewrite (match_quoted_1_skip _ _ P1), (match_quoted_1_skip _ _ P2).
  simpl in E |- *. rewrite Q. simpl. now rewrite E.
Qed.

#[local] Arguments exec_event : simpl never.

Lemma scan_event_quoted s : forall skip,
  Forall (fun mc => match_quoted_1 (fst mc) = Some (snd mc) /\ snd mc <> ""%string)
         (scan_event s skip).
Proof.
  induction s as [|c s IH]; intros skip; simpl; [constructor|].
  destruct skip as [|k]; [|apply IH].
  destruct (exec_event (String c s)) as [[m cap]|] eqn:E; [|apply IH].
  constructor; [|apply IH].
  simpl. exact (exec_event_quoted _ _ _ E).
Qed.

Example match_event_g_two :
  match_event_g "select count() from events where event = '$pageview' or EVENT='signup'"
  = Some ["event = '$pageview'"; "EVENT='signup'"]%string.
Proof. reflexivity. Qed.

Example match_event_g_inside_word :
  match_event_g "where prevent  = 'x'" = Some ["event  = 'x'"%string].
Proof. reflexivity. Qed.

Example match_event_g_empty_or_unclosed :
  match_event_g "event = '' or event = 'c" = None.
Proof. reflexivity. Qed.

Example match_quoted_1_first :
  match_quoted_1 "EVENT='signup'" = Some "signup"%string.
Proof. reflexivity. Qed.

Example extractTrackedEvents_hogql_and_filters :
  Insight.extractTrackedEvents
    (VObj [("kind", VStr "HogQLQuery");
           ("query", VStr "select 1 where event = 'a' or Event='b' or event='a'")])
    (VObj [("events", VArr [VObj [("id", VStr "b"); ("name", VStr "z")];
                            VObj [("id", VNull)]]);
           ("actions", VArr [VObj [("name", VStr "act")]; VNum 3%float])])
  = Normal [VStr "a"; VStr "b"; VStr "z"; VStr "act"].
Proof. reflexivity. Qed.

Example extractTrackedEvents_null_entry :
  Insight.extractTrackedEvents (VObj [("series", VArr [VNull])]) VUndefined
  = Throw (Error "Cannot read properties of null (reading 'event')").
Proof. reflexivity. Qed.

(** ** The scan loops of [extractTrackedEvents] *)

Import Insight.

Lemma add_truthy_present entry k v events :
  get entry k = Normal v ->
  add_truthy events v = fold_left Set_add (TrackedEvents.present_field entry k) events.
Proof.
  unfold add_truthy, TrackedEvents.present_field, get.
  destruct entry; try discriminate; intros H; inversion H; subst; simpl; trivial.
  destruct (truthy (lookup k fields)); reflexivity.
Qed.

Lemma get_readable entry k :
  TrackedEvents.readable entry = true -> exists v, get entry k = Normal v.
Proof. destruct entry; simpl; try discriminate; eauto. Qed.

Lemma get_unreadable entry k :
  TrackedEvents.readable entry = false ->
  get entry k = Throw (Error (cannot_read k entry)).
Proof. destruct entry; simpl; try discriminate; eauto. Qed.

Lemma for_of_scan2 k1 k2 entries : forall events,
  forallb TrackedEvents.readable entries = true ->
  for_of (scan2 k1 k2) entries events
  = Normal (fold_left Set_add
              (flat_map (fun e => TrackedEvents.present_field e k1
                                  ++ TrackedEvents.present_field e k2) entries)
              events).
Proof.
  induction entries as [|e entries IH]; intros events H; simpl; trivial.
  apply andb_true_iff in H. destruct H as [He H].
  unfold scan2 at 1.
  destruct (get_readable e k1 He) as [a Ha], (get_readable e k2 He) as [b Hb].
  rewrite Ha. simpl. rewrite Hb. simpl.
  rewrite IH by trivial.
  rewrite (add_truthy_present _ _ _ _ Hb), (add_truthy_present _ _ _ _ Ha).
  now rewrite <- !fold_left_app, app_assoc.
Qed.

Lemma for_of_scan1 k1 entries : forall events,
  forallb TrackedEvents.readable entries = true ->
  for_of (scan1 k1) entries events
  = Normal (fold_left Set_add
              (flat_map (fun e => TrackedEvents.present_field e k1) entries)
              events).
Proof.
  induction entries as [|e entries IH]; intros events H; simpl; trivial.
  apply andb_true_iff in H. destruct H as [He H].
  unfold scan1 at 1.
  destruct (get_readable e k1 He) as [a Ha].
  rewrite Ha. simpl.
  rewrite IH by trivial.
  rewrite (add_truthy_present _ _ _ _ Ha).
  now rewrite <- !fold_left_app.
Qed.

Lemma for_of_scan2_throws k1 k2 entries : forall events,
  forallb TrackedEvents.readable entries = false ->
  exists m, for_of (scan2 k1 k2) entries events = Throw (Error m).
Proof.
  induction entries as [|e entries IH]; intros events H; simpl in *; [discriminate|].
  destruct (TrackedEvents.readable e) eqn:He; simpl in H.
  - unfold scan2 at 1.
    destruct (get_readable e k1 He) as [a Ha], (get_readable e k2 He) as [b Hb].
    rewrite Ha. simpl. rewrite Hb. simpl. now apply IH.
  - unfold scan2 at 1. rewrite (get_unreadable _ _ He). simpl. eauto.
Qed.

Lemma for_of_scan1_throws k1 entries : forall events,
  forallb TrackedEvents.readable entries = false ->
  exists m, for_of (scan1 k1) entries events = Throw (Error m).
Proof.
  induction entries as [|e entries IH]; intros events H; simpl in *; [discriminate|].
  destruct (TrackedEvents.readable e) eqn:He; simpl in H.
  - unfold scan1 at 1.
    destruct (get_readable e k1 He) as [a Ha].
    rewrite Ha. simpl. now apply IH.
  - unfold scan1 at 1. rewrite (get_unreadable _ _ He). simpl. eauto.
Qed.

Lemma for_of_scan_matches L : forall events,
  Forall (fun mc => match_quoted_1 (fst mc) = Some (snd mc) /\ snd mc <> ""%string) L ->
  for_of scan_matches (map fst L) events
  = Normal (fold_left Set_add (map VStr (map snd L)) events).
Proof.
  induction L as [|[m cap] L IH]; intros events H; simpl; trivial.
  inversion H as [|? ? [Hm Hc] HL]; subst. simpl in Hm, Hc.
  unfold scan_matches at 1. rewrite Hm. simpl.
  rewrite IH by trivial. f_equal. f_equal.
  unfold add_truthy. simpl.
  destruct (String.eqb_spec cap ""); [contradiction|reflexivity].
Qed.

Lemma guarded_scan2 k1 k2 v events :
  forallb TrackedEvents.readable (elements v) = true ->
  (if truthy v && isArray v then for_of (scan2 k1 k2) (elements v) events
   else Normal events)
  = Normal (fold_left Set_add
              (flat_map (fun e => TrackedEvents.present_field e k1
                                  ++ TrackedEvents.present_field e k2) (elements v))
              events).
Proof.
  intros H. destruct (truthy v && isArray v) eqn:G.
  - now apply for_of_scan2.
  - destruct v; simpl in *; trivial; discriminate.
Qed.

Lemma guarded_scan1 k1 v events :
  forallb TrackedEvents.readable (elements v) = true ->
  (if truthy v && isArray v then for_of (scan1 k1) (elements v) events
   else Normal events)
  = Normal (fold_left Set_add
              (flat_map (fun e => TrackedEvents.present_field e k1) (elements v))
              events).
Proof.
  intros H. destruct (truthy v && isArray v) eqn:G.
  - now apply for_of_scan1.
  - destruct v; simpl in *; trivial; discriminate.
Qed.

Lemma hogql_scan v events :
  match v with
  | VStr hogql =>
      if truthy v then
        match match_event_g hogql with
        | Some eventMatches => for_of scan_matches eventMatches events
        | None => Normal events
        end
      else Normal events
  | _ => Normal events
  end
  = Normal (fold_left Set_add
              (match v with
               | VStr hogql => map VStr (TrackedEvents.captures hogql)
               | _ => []
               end) events).
Proof.
  destruct v as [| |b|n|s|l|f]; trivial.
  unfold match_event_g, TrackedEvents.captures.
  destruct (truthy (VStr s)) eqn:T.
  - pose proof (for_of_scan_matches _ events (scan_event_quoted s 0)) as F.
    destruct (scan_event s 0) as [|mc L]; simpl in *; trivial.
  - simpl in T. apply negb_false_iff, String.eqb_eq in T. now subst.
Qed.

Lemma scan_query_readable events query :
  forallb TrackedEvents.readable (TrackedEvents.array_under query "series") = true ->
  scan_query events query
  = Normal (fold_left Set_add
              (TrackedEvents.from_series query ++ TrackedEvents.from_hogql query) events).
Proof.
  intros Hs. rewrite fold_left_app. unfold scan_query.
  destruct query as [| |b|n|s|l|qf]; simpl in *; trivial.
  - now destruct b.
  - now destruct (negb _).
  - now destruct (negb _).
  - change (fun (events : list jsval) (series : jsval) =>
              event <- get series "event" ;;
              name0 <- get series "name" ;;
              Normal (add_truthy (add_truthy events event) name0))
      with (scan2 "event" "name").
    rewrite (guarded_scan2 "event" "name" _ _ Hs). simpl.
    exact (hogql_scan (lookup "query" qf) _).
Qed.

Lemma scan_query_unreadable events query :
  forallb TrackedEvents.readable (TrackedEvents.array_under query "series") = false ->
  exists m, scan_query events query = Throw (Error m).
Proof.
  intros Hs. unfold scan_query.
  destruct query as [| |b|n|s|l|qf]; simpl in *; try discriminate.
  destruct (lookup "series" qf) as [| |b|n|s|l|f]; simpl in *; try discriminate.
  destruct (for_of_scan2_throws "event" "name" l events Hs) as [m Hm].
  exists m. unfold scan2 in Hm. simpl in Hm. now rewrite Hm.
Qed.

Lemma scan_filters_readable events filters :
  forallb TrackedEvents.readable (TrackedEvents.array_under filters "events") = true ->
  forallb TrackedEvents.readable (TrackedEvents.array_under filters "actions") = true ->
  scan_filters events filters
  = Normal (fold_left Set_add
              (TrackedEvents.from_filter_events filters
               ++ TrackedEvents.from_filter_actions filters) events).
Proof.
  intros He Ha. rewrite fold_left_app. unfold scan_filters.
  destruct filters as [| |b|n|s|l|ff]; simpl in *; trivial.
  - now destruct b.
  - now destruct (negb _).
  - now destruct (negb _).
  - change (fun (events0 : list jsval) (event : jsval) =>
              id0 <- get event "id" ;;
              name0 <- get event "name" ;;
              Normal (add_truthy (add_truthy events0 id0) name0))
      with (scan2 "id" "name").
    rewrite (guarded_scan2 "id" "name" _ _ He). simpl.
    exact (guarded_scan1 "name" _ _ Ha).
Qed.

Lemma scan_filters_unreadable events filters :
  forallb TrackedEvents.readable (TrackedEvents.array_under filters "events")
  && forallb TrackedEvents.readable (TrackedEvents.array_under filters "actions") = false ->
  exists m, scan_filters events filters = Throw (Error m).
Proof.
  intros H. unfold scan_filters.
  destruct filters as [| |b|n|s|l|ff]; simpl in *; try discriminate.
  destruct (forallb TrackedEvents.readable (elements (lookup "events" ff))) eqn:He;
    simpl in H.
  - change (fun (events0 : list jsval) (event : jsval) =>
              id0 <- get event "id" ;;
              name0 <- get event "name" ;;
              Normal (add_truthy (add_truthy events0 id0) name0))
      with (scan2 "id" "name").
    rewrite (guarded_scan2 "id" "name" _ _ He). simpl.
    destruct (lookup "actions" ff) as [| |b|n|s|l|f]; simpl in *; try discriminate.
    exact (for_of_scan1_throws "name" l _ H).
  - destruct (lookup "events" ff) as [| |b|n|s|l|f]; simpl in *; try discriminate.
    destruct (for_of_scan2_throws "id" "name" l events He) as [m Hm].
    exists m. unfold scan2 in Hm. simpl in Hm. now rewrite Hm.
Qed.

Lemma extractTrackedEvents_readable query filters :
  TrackedEvents.entries_readable query filters = true ->
  extractTrackedEvents query filters
  = Normal (TrackedEvents.first_occurrences (TrackedEvents.discovered query filters)).
Proof.
  unfold TrackedEvents.entries_readable. intros H.
  apply andb_true_iff in H. destruct H as [H Ha].
  apply andb_true_iff in H. destruct H as [Hs He].
  rewrite <- fold_Set_add_nil.
  unfold extractTrackedEvents, TrackedEvents.discovered.
  rewrite (scan_query_readable _ _ Hs). simpl.
  rewrite (scan_filters_readable _ _ He Ha). simpl.
  now rewrite <- fold_left_app, <- app_assoc.
Qed.

Lemma extractTrackedEvents_unreadable query filters :
  TrackedEvents.entries_readable query filters = false ->
  exists m, extractTrackedEvents query filters = Throw (Error m).
Proof.
  unfold TrackedEvents.entries_readable, extractTrackedEvents. intros H.
  destruct (forallb TrackedEvents.readable (TrackedEvents.array_under query "series"))
    eqn:Hs.
  - rewrite (scan_query_readable _ _ Hs). simpl in *.
    destruct (scan_filters_unreadable
                (fold_left Set_add (TrackedEvents.from_series query
                                    ++ TrackedEvents.from_hogql query) [])
                filters H) as [m Hm].
    exists m. now rewrite Hm.
  - destruct (scan_query_unreadable [] query Hs) as [m Hm].
    exists m. now rewrite Hm.
Qed.

(** ** get_posthog_insight, end to end *)

Section InsightOperation.
Variable JSON_stringify : jsval -> string.
Variable Number_toString : float -> string.
Variable world : Type.
Variable fetch : fetcher world API.PostHogInsightResponse.
Variable env : environment.

Lemma extractQueryKind_normal query : exists kind, extractQueryKind query = Normal kind.
Proof.
  unfold extractQueryKind.
  destruct query; simpl; eauto.
  - destruct b; simpl; eauto.
  - destruct (negb _); simpl; eauto.
  - destruct (negb _); simpl; eauto.
  - destruct (has_key "kind" fields); eauto.
Qed.

Lemma insight_detail_trackedEvents data r :
  insight_detail JSON_stringify data = Normal r ->
  extractTrackedEvents (API.query data) (API.filters data) = Normal (trackedEvents r).
Proof.
  unfold insight_detail.
  destruct (extractQueryKind (API.query data)); simpl; [|discriminate].
  destruct (extractTrackedEvents (API.query data) (API.filters data)); simpl;
    [|discriminate].
  intros H. inversion H. reflexivity.
Qed.


(** The request of the operation under a complete configuration. *)
Lemma get_posthog_insight_fetch API_KEY PROJECT_ID insightId s :
  truthy_string (env "POSTHOG_API_KEY") = Some API_KEY ->
  truthy_string (env "POSTHOG_PROJECT_ID") = Some PROJECT_ID ->
  let req := get_json API_KEY
               (insight_url (or_default (env "POSTHOG_HOST") "us.posthog.com")
                            PROJECT_ID (Number_toString insightId)) in
  get_posthog_insight JSON_stringify Number_toString fetch env insightId s
  = let (w', r) := fetch (upstream s) req in
    let s' := {| upstream := w'; calls := calls s ++ [req] |} in
    (s', match r with
         | Normal response =>
             if ok response then
               match json response with
               | Normal data =>
                   match insight_detail JSON_stringify data with
                   | Normal out => Normal out
                   | Throw e =>
                       Throw (UnprocessableContent
                                ("Failed to get insight: " +++ message_of e))
                   end
               | Throw e =>
                   Throw (UnprocessableContent
                            ("Failed to get insight: " +++ message_of e))
               end
             else
               Throw (UnprocessableContent
                        ("Failed to get insight: "
                         +++ message_of (api_error (status response) (text response))))
         | Throw e =>
             Throw (UnprocessableContent ("Failed to get insight: " +++ message_of e))
         end).
Proof.
  intros Hk Hp req.
  unfold get_posthog_insight.
  rewrite Hk, Hp.
  unfold try_catch, Http.bind, await_fetch, lift, throw, Http.ret.
  fold req. destruct (fetch (upstream s) req) as [w' [response|e]]; [|reflexivity].
  destruct (ok response); [|reflexivity].
  destruct (json response) as [data|e]; [|reflexivity].
  destruct (insight_detail JSON_stringify data); reflexivity.
Qed.

Lemma get_posthog_insight_returns insightId s s' out :
  get_posthog_insight JSON_stringify Number_toString fetch env insightId s = (s', Normal out) ->
  exists req data,
    answers fetch (upstream s) req data (upstream s')
    /\ calls s' = calls s ++ [req]
    /\ insight_detail JSON_stringify data = Normal out.
Proof.
  destruct (truthy_string (env "POSTHOG_API_KEY")) as [k|] eqn:Hk.
  2: { unfold get_posthog_insight.
       rewrite Hk. discriminate. }
  destruct (truthy_string (env "POSTHOG_PROJECT_ID")) as [p|] eqn:Hp.
  2: { unfold get_posthog_insight.
       rewrite Hk, Hp. discriminate. }
  rewrite (get_posthog_insight_fetch k p insightId s Hk Hp).
  cbv zeta.
  set (req := get_json k _).
  destruct (fetch (upstream s) req) as [w' [response|e]] eqn:F; [|discriminate].
  destruct (ok response) eqn:O; [|discriminate].
  destruct (json response) as [data|e] eqn:J; [|discriminate].
  destruct (insight_detail JSON_stringify data) as [out'|e] eqn:D; [|discriminate].
  intros H. inversion H. subst. simpl.
  exists req, data. repeat split; trivial.
  exists response. auto.
Qed.

End InsightOperation.

(** ** First occurrences *)

Lemma first_occurrences_incl l x :
  In x (TrackedEvents.first_occurrences l) -> In x l.
Proof.
  revert x. induction l as [|y l IH]; simpl; intros x H; trivial.
  destruct H as [H | H]; auto.
  apply filter_In in H. destruct H as [H _]. auto.
Qed.





Lemma present_field_truthy entry k :
  Forall (fun v => truthy v = true) (TrackedEvents.present_field entry k).
Proof.
  unfold TrackedEvents.present_field. destruct entry; try constructor.
  destruct (truthy (lookup k fields)) eqn:T; constructor; trivial.
Qed.

Lemma flat_map_Forall {A B} (P : B -> Prop) (f : A -> list B) l :
  (forall a, Forall P (f a)) -> Forall P (flat_map f l).
Proof.
  intros H. induction l as [|a l IH]; simpl; [constructor|].
  apply Forall_app. auto.
Qed.

Lemma captures_nonempty hogql : ~ In ""%string (TrackedEvents.captures hogql).
Proof.
  unfold TrackedEvents.captures. intros H.
  apply in_map_iff in H. destruct H as [[m cap] [E H]]. simpl in E. subst cap.
  pose proof (scan_event_quoted hogql 0) as F.
  rewrite Forall_forall in F. destruct (F _ H) as [_ N]. now apply N.
Qed.

Lemma discovered_truthy query filters :
  Forall (fun v => truthy v = true) (TrackedEvents.discovered query filters).
Proof.
  unfold TrackedEvents.discovered.
  apply Forall_app; split; [|apply Forall_app; split; [|apply Forall_app; split]].
  - apply flat_map_Forall. intros e. apply Forall_app; split; apply present_field_truthy.
  - unfold TrackedEvents.from_hogql. destruct query; try constructor.
    destruct (lookup "query" fields); try constructor.
    apply Forall_forall. intros v Hv. apply in_map_iff in Hv.
    destruct Hv as [c [<- Hc]]. simpl.
    destruct (String.eqb_spec c ""); trivial. subst.
    now apply captures_nonempty in Hc.
  - apply flat_map_Forall. intros e. apply Forall_app; split; apply present_field_truthy.
  - apply flat_map_Forall. intros e. apply present_field_truthy.
Qed.

Lemma extractTrackedEvents_normal query filters events :
  extractTrackedEvents query filters = Normal events ->
  events = TrackedEvents.first_occurrences (TrackedEvents.discovered query filters).
Proof.
  intros H. destruct (TrackedEvents.entries_readable query filters) eqn:R.
  - rewrite (extractTrackedEvents_readable _ _ R) in H. now inversion H.
  - destruct (extractTrackedEvents_unreadable _ _ R) as [m Hm]. congruence.
Qed.

Lemma for_of_app {A S} (body : S -> A -> completion S) a b s :
  for_of body (a ++ b) s = JS.bind (for_of body a s) (for_of body b).
Proof.
  revert s. induction a as [|x a IH]; intros s; simpl; trivial.
  destruct (body s x); simpl; auto.
Qed.

(** An entry that leaves the loop state as it is can be dropped. *)
Lemma for_of_skip {A S} (body : S -> A -> completion S) pre e post s :
  (forall s, body s e = Normal s) ->
  for_of body (pre ++ e :: post) s = for_of body (pre ++ post) s.
Proof.
  intros H. rewrite !for_of_app. destruct (for_of body pre s); simpl; trivial.
  now rewrite H.
Qed.

Lemma add_truthy_blank events v : TrackedEvents.blank v -> add_truthy events v = events.
Proof. intros [-> | [-> | ->]]; reflexivity. Qed.

(** ** Claims on the tracked events *)



(** C10.  Whenever [get_posthog_insight] returns, [trackedEvents] holds
    truthy values only, so never the empty string.  Each scanned field is
    guarded: a value that is missing, [null] or the empty string is not added,
    an entry of [series] or of [filters.events] whose two fields are such, or
    an entry of [filters.actions] whose [name] is such, can be dropped from
    its array without changing the outcome, and the event pattern captures no
    empty value. *)
Theorem trackedEvents_no_empty_string :
  (forall JSON_stringify Number_toString world
          (fetch : fetcher world Insight.API.PostHogInsightResponse)
          env insightId s s' out,
      get_posthog_insight JSON_stringify Number_toString fetch env insightId s
      = (s', Normal out) ->
      ~ In (VStr "") (trackedEvents out)
      /\ Forall (fun v => truthy v = true) (trackedEvents out))
  /\ (forall events v, TrackedEvents.blank v -> add_truthy events v = events)
  /\ (forall rest pre fields post filters,
         TrackedEvents.blank (lookup "event" fields) ->
         TrackedEvents.blank (lookup "name" fields) ->
         extractTrackedEvents
           (VObj (("series", VArr (pre ++ VObj fields :: post)) :: rest)) filters
         = extractTrackedEvents
             (VObj (("series", VArr (pre ++ post)) :: rest)) filters)
  /\ (forall query rest pre fields post,
         TrackedEvents.blank (lookup "id" fields) ->
         TrackedEvents.blank (lookup "name" fields) ->
         extractTrackedEvents query
           (VObj (("events", VArr (pre ++ VObj fields :: post)) :: rest))
         = extractTrackedEvents query
             (VObj (("events", VArr (pre ++ post)) :: rest)))
  /\ (forall query rest pre fields post,
         TrackedEvents.blank (lookup "name" fields) ->
         extractTrackedEvents query
           (VObj (("actions", VArr (pre ++ VObj fields :: post)) :: rest))
         = extractTrackedEvents query
             (VObj (("actions", VArr (pre ++ post)) :: rest)))
  /\ (forall hogql eventMatches,
         match_event_g hogql = Some eventMatches ->
         Forall (fun m => exists eventName,
                   match_quoted_1 m = Some eventName /\ eventName <> ""%string)
                eventMatches).
Proof.
  repeat apply conj.
  - intros JSON_stringify Number_toString world fetch env insightId s s' out H.
    apply get_posthog_insight_returns in H.
    destruct H as [req [data [_ [_ D]]]].
    apply insight_detail_trackedEvents, extractTrackedEvents_normal in D.
    assert (T : Forall (fun v => truthy v = true) (trackedEvents out)).
    { rewrite D. apply Forall_forall. intros v Hv.
      apply first_occurrences_incl in Hv. revert v Hv. apply Forall_forall.
      apply discovered_truthy. }
    split; trivial.
    intros I. rewrite Forall_forall in T. specialize (T _ I). discriminate.
  - exact add_truthy_blank.
  - intros rest pre fields post filters He Hn.
    unfold extractTrackedEvents, scan_query. simpl.
    rewrite (for_of_skip _ pre (VObj fields) post); trivial.
    intros ev. simpl. now rewrite !add_truthy_blank.
  - intros query rest pre fields post Hi Hn.
    unfold extractTrackedEvents. destruct (scan_query [] query); simpl; trivial.
    unfold scan_filters. simpl.
    rewrite (for_of_skip _ pre (VObj fields) post); trivial.
    intros ev. simpl. now rewrite !add_truthy_blank.
  - intros query rest pre fields post Hn.
    unfold extractTrackedEvents. destruct (scan_query [] query); simpl; trivial.
    unfold scan_filters. simpl.
    match goal with |- JS.bind (JS.bind ?X _) _ = _ => destruct X end; simpl; trivial.
    rewrite (for_of_skip _ pre (VObj fields) post); trivial.
    intros ev. simpl. now rewrite !add_truthy_blank.
  - intros hogql eventMatches H. unfold match_event_g in H.
    assert (E : eventMatches = map fst (scan_event hogql 0))
      by (destruct (map fst (scan_event hogql 0)); inversion H; trivial).
    subst. apply Forall_forall. intros m Hm.
    apply in_map_iff in Hm. destruct Hm as [[m' cap] [<- Hm]].
    pose proof (scan_event_quoted hogql 0) as F.
    rewrite Forall_forall in F. destruct (F _ Hm). simpl in *. eauto.
Qed.

(** ** run_posthog_sql, end to end *)

Section RunSqlOperation.
Import RunSql.
Variable JSON_stringify : jsval -> string.
Variable world : Type.
Variable fetch : fetcher world API.PostHogAPIResponse.
Variable env : environment.

Lemma run_posthog_sql_fetch API_KEY PROJECT_ID sql s :
  truthy_string (env "POSTHOG_API_KEY") = Some API_KEY ->
  truthy_string (env "POSTHOG_PROJECT_ID") = Some PROJECT_ID ->
  let req := query_request JSON_stringify API_KEY
               (query_url (or_default (env "POSTHOG_HOST") "us.posthog.com") PROJECT_ID)
               sql in
  run_posthog_sql JSON_stringify fetch env sql s
  = let (w', r) := fetch (upstream s) req in
    let s' := {| upstream := w'; calls := calls s ++ [req] |} in
    (s', match r with
         | Normal response =>
             if ok response then
               match json response with
               | Normal data => Normal (query_response JSON_stringify data)
               | Throw e =>
                   Throw (UnprocessableContent
                            ("PostHog query failed: " +++ message_of e))
               end
             else
               Throw (UnprocessableContent
                        ("PostHog query failed: "
                         +++ message_of (api_error (status response) (text response))))
         | Throw e =>
             Throw (UnprocessableContent ("PostHog query failed: " +++ message_of e))
         end).
Proof.
  intros Hk Hp req.
  unfold run_posthog_sql.
  rewrite Hk, Hp.
  unfold try_catch, Http.bind, await_fetch, lift, throw, Http.ret.
  fold req. destruct (fetch (upstream s) req) as [w' [response|e]]; [|reflexivity].
  destruct (ok response); [|reflexivity].
  destruct (json response) as [data|e]; reflexivity.
Qed.

Lemma run_posthog_sql_returns sql s s' out :
  run_posthog_sql JSON_stringify fetch env sql s = (s', Normal out) ->
  exists req data,
    answers fetch (upstream s) req data (upstream s')
    /\ calls s' = calls s ++ [req]
    /\ out = query_response JSON_stringify data.
Proof.
  destruct (truthy_string (env "POSTHOG_API_KEY")) as [k|] eqn:Hk.
  2: { unfold run_posthog_sql.
       rewrite Hk. discriminate. }
  destruct (truthy_string (env "POSTHOG_PROJECT_ID")) as [p|] eqn:Hp.
  2: { unfold run_posthog_sql.
       rewrite Hk, Hp. discriminate. }
  rewrite (run_posthog_sql_fetch k p sql s Hk Hp).
  cbv zeta.
  set (req := query_request JSON_stringify k _ _).
  destruct (fetch (upstream s) req) as [w' [response|e]] eqn:F; [|discriminate].
  destruct (ok response) eqn:O; [|discriminate].
  destruct (json response) as [data|e] eqn:J; [|discriminate].
  intros H. inversion H. subst. simpl.
  exists req, data. repeat split; trivial.
  exists response. auto.
Qed.

Lemma run_posthog_sql_answers API_KEY PROJECT_ID sql s data w' :
  truthy_string (env "POSTHOG_API_KEY") = Some API_KEY ->
  truthy_string (env "POSTHOG_PROJECT_ID") = Some PROJECT_ID ->
  let req := query_request JSON_stringify API_KEY
               (query_url (or_default (env "POSTHOG_HOST") "us.posthog.com") PROJECT_ID)
               sql in
  answers fetch (upstream s) req data w' ->
  run_posthog_sql JSON_stringify fetch env sql s
  = ({| upstream := w'; calls := calls s ++ [req] |}, Normal (query_response JSON_stringify data)).
Proof.
  intros Hk Hp req [r [F [O J]]].
  rewrite (run_posthog_sql_fetch _ _ sql s Hk Hp). cbv zeta.
  fold req. now rewrite F, O, J.
Qed.

End RunSqlOperation.

(** The first entry whose key is ["query"], found. *)
Lemma find_query_first pre e post :
  Forall (fun x => RunSql.API.k x <> "query"%string) pre ->
  RunSql.API.k e = "query"%string ->
  RunSql.find_query (pre ++ e :: post) = Has e.
Proof.
  intros Hpre He. unfold RunSql.find_query.
  induction Hpre as [|x pre Hx _ IH]; simpl.
  - now rewrite He.
  - destruct (String.eqb_spec (RunSql.API.k x) "query"); [contradiction|exact IH].
Qed.

Lemma find_query_none l :
  Forall (fun x => RunSql.API.k x <> "query"%string) l ->
  RunSql.find_query l = Absent.
Proof.
  intros H. unfold RunSql.find_query.
  induction H as [|x l Hx _ IH]; simpl; trivial.
  destruct (String.eqb_spec (RunSql.API.k x) "query"); [contradiction|exact IH].
Qed.

(** C6.  Whenever [run_posthog_sql] returns, [executionTime] is the [t] of
    the first entry of the fetched response's [timings] whose [k] is
    ["query"]; it is null when no entry has that key and when [timings] is
    absent (or null).  The operation returns whenever the upstream answers,
    and [timings = [{k:"other", t:1}, {k:"query", t:0.42}]] gives 0.42. *)
Theorem executionTime_first_query_timing :
  (forall JSON_stringify world (fetch : fetcher world RunSql.API.PostHogAPIResponse)
          env sql s s' out,
      RunSql.run_posthog_sql JSON_stringify fetch env sql s = (s', Normal out) ->
      exists req data,
        answers fetch (upstream s) req data (upstream s')
        /\ (forall pre e post,
               RunSql.API.timings data = Has (pre ++ e :: post) ->
               Forall (fun x => RunSql.API.k x <> "query"%string) pre ->
               RunSql.API.k e = "query"%string ->
               RunSql.executionTime out = Some (RunSql.API.t e))
        /\ (forall l,
               RunSql.API.timings data = Has l ->
               Forall (fun x => RunSql.API.k x <> "query"%string) l ->
               RunSql.executionTime out = None)
        /\ (nullish (RunSql.API.timings data) = true ->
            RunSql.executionTime out = None))
  /\ (forall JSON_stringify world (fetch : fetcher world RunSql.API.PostHogAPIResponse)
             env sql s API_KEY PROJECT_ID data w',
         truthy_string (env "POSTHOG_API_KEY") = Some API_KEY ->
         truthy_string (env "POSTHOG_PROJECT_ID") = Some PROJECT_ID ->
         answers fetch (upstream s)
           (RunSql.query_request JSON_stringify API_KEY
              (RunSql.query_url (or_default (env "POSTHOG_HOST") "us.posthog.com")
                                PROJECT_ID) sql)
           data w' ->
         exists s',
           RunSql.run_posthog_sql JSON_stringify fetch env sql s
           = (s', Normal (RunSql.query_response JSON_stringify data)))
  /\ (forall JSON_stringify,
         RunSql.executionTime
           (RunSql.query_response JSON_stringify RunSqlSamples.timed_response)
         = Some 0.42%float).
Proof.
  split; [|split].
  - intros JSON_stringify world fetch env sql s s' out H.
    apply run_posthog_sql_returns in H.
    destruct H as [req [data [A [_ ->]]]].
    exists req, data. split; trivial. simpl. repeat split.
    + intros pre e post -> Hpre He. simpl.
      now rewrite (find_query_first _ _ _ Hpre He).
    + intros l -> Hl. simpl. now rewrite (find_query_none _ Hl).
    + destruct (RunSql.API.timings data); simpl; trivial. discriminate.
  - intros JSON_stringify world fetch env sql s API_KEY PROJECT_ID data w' Hk Hp A.
    eexists. exact (run_posthog_sql_answers _ _ _ _ _ _ _ _ _ _ Hk Hp A).
  - reflexivity.
Qed.

Lemma executionTime_first_query_timing_witness :
  exists s',
    RunSql.run_posthog_sql Samples.no_stringify
      (Samples.always (Samples.ok_response RunSqlSamples.timed_response))
      Samples.full_env "select 1" Samples.fresh
    = (s', Normal (RunSql.query_response Samples.no_stringify
                     RunSqlSamples.timed_response)).
Proof.
  destruct executionTime_first_query_timing as [_ [H _]].
  apply (H Samples.no_stringify unit _ Samples.full_env "select 1"%string
           Samples.fresh "phx_key"%string "42"%string
           RunSqlSamples.timed_response tt).
  - reflexivity.
  - reflexivity.
  - eexists. repeat split; reflexivity.
Defined.

Lemma trackedEvents_no_empty_string_witness :
  extractTrackedEvents
    (VObj [("series", VArr ([VObj [("event", VStr "b")]]
                            ++ VObj [("event", VStr ""); ("name", VNull)]
                            :: [VObj [("name", VStr "c")]]))])
    VUndefined
  = extractTrackedEvents
      (VObj [("series", VArr ([VObj [("event", VStr "b")]]
                              ++ [VObj [("name", VStr "c")]]))])
      VUndefined.
Proof.
  destruct trackedEvents_no_empty_string as [_ [_ [H _]]].
  apply (H [] [VObj [("event", VStr "b")]] [("event", VStr ""); ("name", VNull)]
           [VObj [("name", VStr "c")]] VUndefined).
  - right. right. reflexivity.
  - right. left. reflexivity.
Defined.

(** ** Dashboard references of an insight *)

Lemma insight_detail_dashboards JSON_stringify data out :
  insight_detail JSON_stringify data = Normal out ->
  dashboards out = map dashboard_reference (coalesce (API.dashboards data) []).
Proof.
  unfold insight_detail.
  destruct (extractQueryKind (API.query data)); simpl; [|discriminate].
  destruct (extractTrackedEvents (API.query data) (API.filters data)); simpl;
    [|discriminate].
  intros H. inversion H. reflexivity.
Qed.

(** C5.  Whenever [get_posthog_insight] returns, the [dashboards] of its
    result has one [{id, name}] per entry of the fetched insight's
    [dashboards], in the same order: a bare number [n] gives
    [{id: n, name: null}], an object gives its [id] and its [name], null when
    the name is absent.  [[5, {id: 7, name: "X"}]] gives
    [[{id: 5, name: null}, {id: 7, name: "X"}]]. *)
Theorem dashboards_normalized :
  (forall JSON_stringify Number_toString world
          (fetch : fetcher world Insight.API.PostHogInsightResponse)
          env insightId s s' out,
      get_posthog_insight JSON_stringify Number_toString fetch env insightId s
      = (s', Normal out) ->
      exists req data,
        answers fetch (upstream s) req data (upstream s')
        /\ forall entries, API.dashboards data = Has entries ->
             List.length (dashboards out) = List.length entries
             /\ (forall i n, nth_error entries i = Some (API.number n) ->
                   nth_error (dashboards out) i
                   = Some {| DashboardReference.id := n;
                             DashboardReference.name := None |})
             /\ (forall i o, nth_error entries i = Some (API.object o) ->
                   exists ref,
                     nth_error (dashboards out) i = Some ref
                     /\ DashboardReference.id ref = API.Dashboard.id o
                     /\ (forall x, API.Dashboard.name o = Has x ->
                           DashboardReference.name ref = Some x)
                     /\ (nullish (API.Dashboard.name o) = true ->
                           DashboardReference.name ref = None)))
  /\ (exists s' out,
        get_posthog_insight Samples.no_stringify Samples.no_toString
          (Samples.always (Samples.ok_response DashboardRefSamples.mixed_dashboards))
          Samples.full_env 7%float Samples.fresh
        = (s', Normal out)
        /\ dashboards out
           = [ {| DashboardReference.id := 5%float;
                  DashboardReference.name := None |};
               {| DashboardReference.id := 7%float;
                  DashboardReference.name := Some "X"%string |} ]).
Proof.
  split.
  - intros JSON_stringify Number_toString world fetch env insightId s s' out H.
    apply get_posthog_insight_returns in H.
    destruct H as [req [data [A [_ D]]]].
    apply insight_detail_dashboards in D.
    exists req, data. split; trivial.
    intros entries E. rewrite D, E. simpl. repeat split.
    + apply length_map.
    + intros i n Hi. now rewrite nth_error_map, Hi.
    + intros i o Hi. rewrite nth_error_map, Hi. simpl.
      eexists. split; [reflexivity|]. simpl. repeat split.
      * now intros x ->.
      * destruct (API.Dashboard.name o); simpl; trivial. discriminate.
  - eexists. eexists. split; reflexivity.
Qed.

(** ** list_posthog_dashboards, end to end *)

Section DashboardsOperation.
Import Dashboards DashboardSpec.
Variable world : Type.
Variable fetch : fetcher world API.PostHogDashboardListResponse.
Variable env : environment.

(** The non-null assertion on [tile.insight] never fails after the filter. *)
Lemma insights_of_tiles tiles :
  map_throws (fun tile => i <- insight_asserted tile ;; Normal (insight_summary i))
             (filter has_insight tiles)
  = Normal (map insight_summary (insight_tiles tiles)).
Proof.
  induction tiles as [|tile tiles IH]; simpl; trivial.
  unfold has_insight at 1.
  destruct (API.PostHogTile.insight tile) eqn:E; simpl; trivial.
  unfold insight_asserted at 1. rewrite E. simpl. now rewrite IH.
Qed.

Lemma push_dashboard_summary allDashboards dashboard :
  push_dashboard allDashboards dashboard
  = Normal (allDashboards ++ [dashboard_summary dashboard]).
Proof.
  unfold push_dashboard. now rewrite insights_of_tiles.
Qed.

Lemma for_of_push_dashboard results : forall allDashboards,
  for_of push_dashboard results allDashboards
  = Normal (allDashboards ++ map dashboard_summary results).
Proof.
  induction results as [|d results IH]; intros allDashboards; simpl.
  - now rewrite app_nil_r.
  - rewrite push_dashboard_summary. simpl. rewrite IH.
    now rewrite <- app_assoc.
Qed.

(** One iteration of the loop on an answered page. *)
Lemma paginate_page fuel API_KEY next url page w1 allDashboards s :
  truthy_string next = Some url ->
  answers fetch (upstream s) (get_json API_KEY url) page w1 ->
  paginate fetch (S fuel) API_KEY next allDashboards s
  = paginate fetch fuel API_KEY (orNull (API.next page))
      (allDashboards ++ page_summaries page)
      {| upstream := w1; calls := calls s ++ [get_json API_KEY url] |}.
Proof.
  intros T [r [F [O J]]]. simpl. rewrite T.
  unfold Http.bind at 1, await_fetch. rewrite F, O. simpl.
  unfold Http.bind at 1, lift. rewrite J.
  unfold Http.bind at 1. rewrite for_of_push_dashboard. reflexivity.
Qed.

Lemma paginate_walked API_KEY w next pages w' :
  walked fetch API_KEY w next pages w' ->
  forall fuel allDashboards log,
    List.length pages <= fuel ->
    paginate fetch fuel API_KEY next allDashboards {| upstream := w; calls := log |}
    = ({| upstream := w';
          calls := log ++ map (get_json API_KEY) (page_urls next pages) |},
       Normal (Some (allDashboards ++ flat_map page_summaries pages))).
Proof.
  induction 1 as [w next T | w next url w1 page pages w' T A W IH];
    intros fuel allDashboards log Hfuel.
  - destruct fuel; simpl; rewrite T; unfold Http.ret; now rewrite !app_nil_r.
  - destruct fuel as [|fuel]; simpl in Hfuel; [lia|].
    rewrite (paginate_page fuel API_KEY next url page w1); trivial.
    simpl. rewrite IH by lia. rewrite T. simpl.
    now rewrite <- !app_assoc.
Qed.

Lemma linked_walked API_KEY w next pages w' :
  linked fetch API_KEY w next pages w' -> walked fetch API_KEY w next pages w'.
Proof.
  induction 1 as [w | w url w1 page pages w' U A L IH].
  - now constructor.
  - apply walked_page with url w1; trivial.
    simpl. destruct (String.eqb_spec url ""); [contradiction|reflexivity].
Qed.

Lemma page_urls_length API_KEY w next pages w' :
  walked fetch API_KEY w next pages w' ->
  List.length (page_urls next pages) = List.length pages.
Proof.
  induction 1 as [w next T | w next url w1 page pages w' T A W IH]; simpl; trivial.
  rewrite T. simpl. now rewrite IH.
Qed.

Lemma flat_map_page_summaries_length pages :
  List.length (flat_map page_summaries pages) = results_total pages.
Proof.
  unfold results_total. induction pages as [|page pages IH]; simpl; trivial.
  rewrite length_app, IH. unfold page_summaries. now rewrite length_map.
Qed.

(** What the loop went through when it came to its end. *)
Lemma paginate_done fuel API_KEY : forall next allDashboards s s' all',
  paginate fetch fuel API_KEY next allDashboards s = (s', Normal (Some all')) ->
  exists pages,
    walked fetch API_KEY (upstream s) next pages (upstream s')
    /\ all' = allDashboards ++ flat_map page_summaries pages.
Proof.
  induction fuel as [|fuel IH]; intros next allDashboards s s' all'; simpl.
  - destruct (truthy_string next) eqn:T; unfold Http.ret; intros H; inversion H.
    subst. exists []. split; [now constructor|]. simpl. now rewrite app_nil_r.
  - destruct (truthy_string next) as [url|] eqn:T.
    + unfold Http.bind at 1, await_fetch.
      destruct (fetch (upstream s) (get_json API_KEY url)) as [w1 [r|e]] eqn:F;
        [|discriminate].
      destruct (ok r) eqn:O; simpl; [|discriminate].
      unfold Http.bind at 1, lift.
      destruct (json r) as [page|e] eqn:J; [|discriminate].
      unfold Http.bind at 1. rewrite for_of_push_dashboard.
      intros H. apply IH in H. simpl in H.
      destruct H as [pages [W ->]].
      exists (page :: pages). split.
      * apply walked_page with url w1; trivial. exists r. auto.
      * simpl. now rewrite <- app_assoc.
    + unfold Http.ret. intros H. inversion H. subst.
      exists []. split; [now constructor|]. simpl. now rewrite app_nil_r.
Qed.

Lemma paginate_never_ends API_KEY :
  never_ends fetch ->
  forall fuel url allDashboards s,
    url <> ""%string ->
    exists s',
      paginate fetch fuel API_KEY (Some url) allDashboards s = (s', Normal None)
      /\ List.length (calls s') = List.length (calls s) + fuel.
Proof.
  intros N. induction fuel as [|fuel IH]; intros url allDashboards s U.
  - exists s. simpl. destruct (String.eqb_spec url ""); [contradiction|].
    split; [reflexivity|lia].
  - destruct (N (upstream s) (get_json API_KEY url)) as [w1 [page [url' [A [Hn U']]]]].
    assert (T : truthy_string (Some url) = Some url).
    { simpl. destruct (String.eqb_spec url ""); [contradiction|reflexivity]. }
    rewrite (paginate_page fuel API_KEY (Some url) url page w1); trivial.
    rewrite Hn. simpl.
    destruct (IH url' (allDashboards ++ page_summaries page)
                 {| upstream := w1; calls := calls s ++ [get_json API_KEY url] |} U')
      as [s' [E L]].
    exists s'. split; trivial.
    rewrite L. simpl. rewrite length_app. simpl. lia.
Qed.

(** The operation under a complete configuration, in terms of its loop. *)
Lemma list_posthog_dashboards_paginate API_KEY PROJECT_ID fuel s :
  truthy_string (env "POSTHOG_API_KEY") = Some API_KEY ->
  truthy_string (env "POSTHOG_PROJECT_ID") = Some PROJECT_ID ->
  list_posthog_dashboards fetch env fuel s
  = match paginate fetch fuel API_KEY
            (Some (dashboards_url (or_default (env "POSTHOG_HOST") "us.posthog.com")
                                  PROJECT_ID)) [] s with
    | (s', Normal (Some allDashboards)) =>
        (s', Normal (Some {| dashboards := allDashboards;
                             totalCount := List.length allDashboards |}))
    | (s', Normal None) => (s', Normal None)
    | (s', Throw e) =>
        (s', Throw (UnprocessableContent
                      ("Failed to list dashboards: " +++ message_of e)))
    end.
Proof.
  intros Hk Hp. unfold list_posthog_dashboards. rewrite Hk, Hp.
  unfold try_catch, Http.bind.
  destruct (paginate fetch fuel API_KEY _ [] s) as [s' [[all|]|e]]; reflexivity.
Qed.

End DashboardsOperation.

Lemma list_posthog_dashboards_returns world
  (fetch : fetcher world Dashboards.API.PostHogDashboardListResponse) env fuel s s' out :
  Dashboards.list_posthog_dashboards fetch env fuel s = (s', Normal (Some out)) ->
  exists API_KEY PROJECT_ID pages,
    truthy_string (env "POSTHOG_API_KEY") = Some API_KEY
    /\ truthy_string (env "POSTHOG_PROJECT_ID") = Some PROJECT_ID
    /\ DashboardSpec.walked fetch API_KEY (upstream s)
         (Some (Dashboards.dashboards_url
                  (or_default (env "POSTHOG_HOST") "us.posthog.com") PROJECT_ID))
         pages (upstream s')
    /\ Dashboards.dashboards out = flat_map DashboardSpec.page_summaries pages
    /\ Dashboards.totalCount out = List.length (Dashboards.dashboards out).
Proof.
  destruct (truthy_string (env "POSTHOG_API_KEY")) as [k|] eqn:Hk.
  2: { unfold Dashboards.list_posthog_dashboards. rewrite Hk. discriminate. }
  destruct (truthy_string (env "POSTHOG_PROJECT_ID")) as [p|] eqn:Hp.
  2: { unfold Dashboards.list_posthog_dashboards. rewrite Hk, Hp. discriminate. }
  rewrite (list_posthog_dashboards_paginate _ fetch env k p fuel s Hk Hp).
  destruct (Dashboards.paginate fetch fuel k _ [] s) as [s1 [[all|]|e]] eqn:P;
    try discriminate.
  intros H. inversion H. subst. clear H.
  apply paginate_done in P. destruct P as [pages [W ->]].
  exists k, p, pages. simpl. auto.
Qed.

(** ** Claims on the dashboard lister *)

(** C2.  When the upstream serves [N] pages, the first at the collection
    endpoint, each linking to the next and the last with a null or absent
    [next], the lister, followed for [N] iterations or more, makes exactly
    [N] requests, one per page in page order, and returns the concatenation of
    the pages' mapped [results]; the length of [dashboards] and [totalCount]
    are the sum of the pages' [results] lengths.  The loop has no bound of
    its own: against an upstream whose every page links further, it is still
    running after any number of iterations, having made that many requests. *)
Theorem pagination_concatenates_pages :
  (forall world (fetch : fetcher world Dashboards.API.PostHogDashboardListResponse)
          env fuel s API_KEY PROJECT_ID pages w',
      truthy_string (env "POSTHOG_API_KEY") = Some API_KEY ->
      truthy_string (env "POSTHOG_PROJECT_ID") = Some PROJECT_ID ->
      let start := Some (Dashboards.dashboards_url
                           (or_default (env "POSTHOG_HOST") "us.posthog.com")
                           PROJECT_ID) in
      DashboardSpec.linked fetch API_KEY (upstream s) start pages w' ->
      List.length pages <= fuel ->
      exists s' out,
        Dashboards.list_posthog_dashboards fetch env fuel s = (s', Normal (Some out))
        /\ upstream s' = w'
        /\ calls s' = calls s ++ map (get_json API_KEY) (DashboardSpec.page_urls start pages)
        /\ List.length (calls s') = List.length (calls s) + List.length pages
        /\ Dashboards.dashboards out = flat_map DashboardSpec.page_summaries pages
        /\ List.length (Dashboards.dashboards out) = DashboardSpec.results_total pages
        /\ Dashboards.totalCount out = DashboardSpec.results_total pages)
  /\ (forall world (fetch : fetcher world Dashboards.API.PostHogDashboardListResponse)
             env s API_KEY PROJECT_ID,
         truthy_string (env "POSTHOG_API_KEY") = Some API_KEY ->
         truthy_string (env "POSTHOG_PROJECT_ID") = Some PROJECT_ID ->
         DashboardSpec.never_ends fetch ->
         forall fuel, exists s',
           Dashboards.list_posthog_dashboards fetch env fuel s = (s', Normal None)
           /\ List.length (calls s') = List.length (calls s) + fuel).
Proof.
  split.
  - intros world fetch env fuel s API_KEY PROJECT_ID pages w' Hk Hp start L Hfuel.
    apply linked_walked in L.
    rewrite (list_posthog_dashboards_paginate _ fetch env _ _ fuel s Hk Hp).
    fold start. destruct s as [w log]. simpl in L.
    rewrite (paginate_walked _ fetch _ _ _ _ _ L fuel [] log Hfuel). simpl.
    eexists. eexists. split; [reflexivity|]. simpl.
    rewrite length_app, length_map, (page_urls_length _ fetch _ _ _ _ _ L).
    rewrite flat_map_page_summaries_length. repeat split; reflexivity.
  - intros world fetch env s API_KEY PROJECT_ID Hk Hp N fuel.
    rewrite (list_posthog_dashboards_paginate _ fetch env _ _ fuel s Hk Hp).
    destruct (paginate_never_ends _ fetch API_KEY N fuel
                (Dashboards.dashboards_url
                   (or_default (env "POSTHOG_HOST") "us.posthog.com") PROJECT_ID)
                [] s) as [s' [E L]]; [discriminate|].
    rewrite E. eauto.
Qed.

Lemma pagination_concatenates_pages_witness :
  (exists s' out,
     Dashboards.list_posthog_dashboards DashboardSamples.two_pages Samples.full_env 2
       Samples.fresh
     = (s', Normal (Some out))
     /\ upstream s' = tt
     /\ calls s'
        = calls Samples.fresh
          ++ map (get_json "phx_key")
               (DashboardSpec.page_urls (Some DashboardSamples.first_url)
                  [DashboardSamples.page1; DashboardSamples.page2])
     /\ List.length (calls s') = List.length (calls Samples.fresh) + 2
     /\ Dashboards.dashboards out
        = flat_map DashboardSpec.page_summaries
            [DashboardSamples.page1; DashboardSamples.page2]
     /\ List.length (Dashboards.dashboards out)
        = DashboardSpec.results_total [DashboardSamples.page1; DashboardSamples.page2]
     /\ Dashboards.totalCount out
        = DashboardSpec.results_total [DashboardSamples.page1; DashboardSamples.page2])
  /\ (exists s',
        Dashboards.list_posthog_dashboards
          (Samples.always (Samples.ok_response DashboardSamples.looping_page))
          Samples.full_env 50 Samples.fresh
        = (s', Normal None)
        /\ List.length (calls s') = List.length (calls Samples.fresh) + 50).
Proof.
  destruct pagination_concatenates_pages as [H1 H2]. split.
  - apply (H1 unit DashboardSamples.two_pages Samples.full_env 2 Samples.fresh
              "phx_key"%string "42"%string
              [DashboardSamples.page1; DashboardSamples.page2] tt).
    + reflexivity.
    + reflexivity.
    + apply DashboardSpec.linked_page with tt.
      * discriminate.
      * eexists. repeat split; reflexivity.
      * apply DashboardSpec.linked_page with tt.
        -- discriminate.
        -- eexists. repeat split; reflexivity.
        -- apply DashboardSpec.linked_end.
    + simpl. lia.
  - apply (H2 unit (Samples.always (Samples.ok_response DashboardSamples.looping_page))
              Samples.full_env Samples.fresh "phx_key"%string "42"%string).
    + reflexivity.
    + reflexivity.
    + intros w req. exists tt, DashboardSamples.looping_page, DashboardSamples.first_url.
      split; [|split].
      * eexists. destruct w. repeat split; reflexivity.
      * reflexivity.
      * discriminate.
Defined.

Lemma insight_tiles_length tiles :
  List.length (DashboardSpec.insight_tiles tiles)
  = List.length (filter Dashboards.has_insight tiles).
Proof.
  induction tiles as [|tile tiles IH]; simpl; trivial.
  unfold Dashboards.has_insight at 1.
  destruct (Dashboards.API.PostHogTile.insight tile); simpl; now rewrite IH.
Qed.

Lemma insight_tiles_none tiles :
  Forall (fun tile => nullish (Dashboards.API.PostHogTile.insight tile) = true) tiles ->
  DashboardSpec.insight_tiles tiles = [].
Proof.
  induction 1 as [|tile tiles Ht _ IH]; simpl; trivial.
  destruct (Dashboards.API.PostHogTile.insight tile); simpl; trivial. discriminate.
Qed.

(** The insights kept are the [insight] of the tiles the filter keeps. *)
Lemma insight_tiles_filter tiles :
  map Has (DashboardSpec.insight_tiles tiles)
  = map Dashboards.API.PostHogTile.insight (filter Dashboards.has_insight tiles).
Proof.
  induction tiles as [|tile tiles IH]; simpl; trivial.
  unfold Dashboards.has_insight at 1.
  destruct (Dashboards.API.PostHogTile.insight tile) eqn:E; simpl; trivial.
  now rewrite E, IH.
Qed.

(** C4.  Every dashboard returned by [list_posthog_dashboards] comes from a
    dashboard [u] of a fetched page; its [insights] are the insights of [u]'s
    tiles that carry a non-null [insight], in tile order, each projected to
    [{id, shortId, name, description}] with [name] falling back to the
    derived name and then to null (those insights are the [insight] fields of
    the tiles the filter keeps); its [insightCount] is the length of that
    sequence, which is the number of insight-bearing tiles of [u] and 0 when
    there is none. *)
Theorem insights_from_tiles :
  (forall world (fetch : fetcher world Dashboards.API.PostHogDashboardListResponse)
          env fuel s s' out,
      Dashboards.list_posthog_dashboards fetch env fuel s = (s', Normal (Some out)) ->
      exists API_KEY start pages,
        DashboardSpec.walked fetch API_KEY (upstream s) start pages (upstream s')
        /\ Forall (fun d =>
             exists page u,
               In page pages
               /\ In u (coalesce (Dashboards.API.results page) [])
               /\ Dashboards.id d = Dashboards.API.id u
               /\ Dashboards.insights d
                  = map Dashboards.insight_summary
                      (DashboardSpec.insight_tiles
                         (coalesce (Dashboards.API.tiles u) []))
               /\ Dashboards.insightCount d = List.length (Dashboards.insights d)
               /\ Dashboards.insightCount d
                  = List.length (filter Dashboards.has_insight
                                   (coalesce (Dashboards.API.tiles u) []))
               /\ (Forall (fun tile =>
                             nullish (Dashboards.API.PostHogTile.insight tile) = true)
                          (coalesce (Dashboards.API.tiles u) []) ->
                   Dashboards.insights d = [] /\ Dashboards.insightCount d = 0))
             (Dashboards.dashboards out))
  /\ (forall tiles,
         map Has (DashboardSpec.insight_tiles tiles)
         = map Dashboards.API.PostHogTile.insight
               (filter Dashboards.has_insight tiles))
  /\ (forall i,
         let summary := Dashboards.insight_summary i in
         Dashboards.InsightSummary.id summary = Dashboards.API.TileInsight.id i
         /\ Dashboards.InsightSummary.shortId summary
            = orNull (Dashboards.API.TileInsight.short_id i)
         /\ Dashboards.InsightSummary.description summary
            = orNull (Dashboards.API.TileInsight.description i)
         /\ (forall x, Dashboards.API.TileInsight.name i = Has x ->
               Dashboards.InsightSummary.name summary = Some x)
         /\ (forall y, nullish (Dashboards.API.TileInsight.name i) = true ->
               Dashboards.API.TileInsight.derived_name i = Has y ->
               Dashboards.InsightSummary.name summary = Some y)
         /\ (nullish (Dashboards.API.TileInsight.name i) = true ->
             nullish (Dashboards.API.TileInsight.derived_name i) = true ->
             Dashboards.InsightSummary.name summary = None)).
Proof.
  split; [|split].
  - intros world fetch env fuel s s' out H.
    apply list_posthog_dashboards_returns in H.
    destruct H as [k [p [pages [_ [_ [W [D _]]]]]]].
    exists k. eexists. exists pages. split; [exact W|].
    rewrite D. apply Forall_forall. intros d Hd.
    apply in_flat_map in Hd. destruct Hd as [page [Hpage Hd]].
    unfold DashboardSpec.page_summaries in Hd.
    apply in_map_iff in Hd. destruct Hd as [u [<- Hu]].
    exists page, u. simpl. repeat split; trivial.
    + now rewrite length_map, insight_tiles_length.
    + now rewrite (insight_tiles_none _ H).
    + now rewrite (insight_tiles_none _ H).
  - exact insight_tiles_filter.
  - intros i summary. subst summary. simpl. repeat split.
    + now intros x ->.
    + intros y Hn ->. now destruct (Dashboards.API.TileInsight.name i).
    + intros Hn Hd.
      destruct (Dashboards.API.TileInsight.name i); try discriminate;
        destruct (Dashboards.API.TileInsight.derived_name i); trivial; discriminate.
Qed.

Lemma insights_from_tiles_witness :
  exists API_KEY start pages,
    DashboardSpec.walked DashboardSamples.two_pages API_KEY
      (upstream Samples.fresh) start pages tt
    /\ Forall (fun d =>
         exists page u,
           In page pages
           /\ In u (coalesce (Dashboards.API.results page) [])
           /\ Dashboards.id d = Dashboards.API.id u
           /\ Dashboards.insights d
              = map Dashboards.insight_summary
                  (DashboardSpec.insight_tiles (coalesce (Dashboards.API.tiles u) []))
           /\ Dashboards.insightCount d = List.length (Dashboards.insights d)
           /\ Dashboards.insightCount d
              = List.length (filter Dashboards.has_insight
                               (coalesce (Dashboards.API.tiles u) []))
           /\ (Forall (fun tile =>
                         nullish (Dashboards.API.PostHogTile.insight tile) = true)
                      (coalesce (Dashboards.API.tiles u) []) ->
               Dashboards.insights d = [] /\ Dashboards.insightCount d = 0))
         (flat_map DashboardSpec.page_summaries
            [DashboardSamples.page1; DashboardSamples.page2]).
Proof.
  destruct insights_from_tiles as [H _].
  exact (H unit DashboardSamples.two_pages Samples.full_env 2 Samples.fresh
           _ _ eq_refl).
Defined.

(** ** Errors on a status that is not 2xx *)

Lemma non_2xx_not_ok {payload} (r : response payload) : non_2xx r -> ok r = false.
Proof.
  unfold non_2xx, ok. intros [H | H].
  - apply andb_false_iff. left. apply N.leb_gt. exact H.
  - apply andb_false_iff. right. apply N.leb_gt. exact H.
Qed.

Lemma append_assoc (a b c : string) : (a +++ b) +++ c = a +++ b +++ c.
Proof. induction a as [|x a IH]; simpl; congruence. Qed.

(** The message of every such failure names the status and the body after
    the operation's prefix. *)
Lemma api_error_message prefix status text :
  let m := prefix +++ message_of (api_error status text) in
  m = prefix +++ "PostHog API error: " +++ decimal status +++ " - " +++ text
  /\ starts_with prefix m
  /\ contains (decimal status) m
  /\ contains text m.
Proof.
  simpl. split; [reflexivity|]. split; [|split].
  - eexists. reflexivity.
  - exists (prefix +++ "PostHog API error: "), (" - " +++ text).
    now rewrite append_assoc.
  - exists (prefix +++ "PostHog API error: " +++ decimal status +++ " - "), "".
    rewrite !append_assoc. simpl.
    assert (E : forall s, s +++ "" = s) by (induction s; simpl; congruence).
    now rewrite E.
Qed.

Lemma paginate_fails_after world
  (fetch : fetcher world Dashboards.API.PostHogDashboardListResponse) API_KEY
  w next k w' r :
  DashboardSpec.fails_after fetch API_KEY w next k w' r ->
  forall fuel allDashboards log,
    k < fuel ->
    exists reqs,
      Dashboards.paginate fetch fuel API_KEY next allDashboards
        {| upstream := w; calls := log |}
      = ({| upstream := w'; calls := log ++ reqs |},
         Throw (api_error (status r) (text r)))
      /\ List.length reqs = S k.
Proof.
  induction 1 as [w url w' r U F O | w url w1 page k w' r U A _ IH];
    intros fuel allDashboards log Hfuel.
  - destruct fuel as [|fuel]; [lia|].
    exists [get_json API_KEY url]. split; trivial.
    simpl. destruct (String.eqb_spec url ""); [contradiction|].
    unfold Http.bind at 1, await_fetch. simpl. rewrite F.
    now rewrite (non_2xx_not_ok _ O).
  - destruct fuel as [|fuel]; [lia|].
    assert (T : truthy_string (Some url) = Some url).
    { simpl. destruct (String.eqb_spec url ""); [contradiction|reflexivity]. }
    rewrite (paginate_page _ fetch fuel API_KEY (Some url) url page w1); trivial.
    simpl.
    destruct (IH fuel (allDashboards ++ DashboardSpec.page_summaries page)
                 (log ++ [get_json API_KEY url])) as [reqs [E L]]; [lia|].
    exists (get_json API_KEY url :: reqs). split.
    + rewrite E. now rewrite <- app_assoc.
    + simpl. now rewrite L.
Qed.

(** C7.  On a response whose status is not 2xx, each operation throws one
    [UnprocessableContent] whose message is the operation's prefix followed
    by ["PostHog API error: "], the status in decimal, [" - "] and the body
    text; for the lister this holds at whichever page the status arrives.
    Such a message starts with the prefix and contains the status code and
    the body text. *)
Theorem non_2xx_status_is_unprocessable :
  (forall JSON_stringify world (fetch : fetcher world RunSql.API.PostHogAPIResponse)
          env sql s API_KEY PROJECT_ID w' r,
      truthy_string (env "POSTHOG_API_KEY") = Some API_KEY ->
      truthy_string (env "POSTHOG_PROJECT_ID") = Some PROJECT_ID ->
      let req := RunSql.query_request JSON_stringify API_KEY
                   (RunSql.query_url (or_default (env "POSTHOG_HOST") "us.posthog.com")
                                     PROJECT_ID) sql in
      fetch (upstream s) req = (w', Normal r) ->
      non_2xx r ->
      RunSql.run_posthog_sql JSON_stringify fetch env sql s
      = ({| upstream := w'; calls := calls s ++ [req] |},
         Throw (UnprocessableContent
                  ("PostHog query failed: " +++ "PostHog API error: "
                   +++ decimal (status r) +++ " - " +++ text r))))
  /\ (forall JSON_stringify Number_toString world
             (fetch : fetcher world Insight.API.PostHogInsightResponse)
             env insightId s API_KEY PROJECT_ID w' r,
         truthy_string (env "POSTHOG_API_KEY") = Some API_KEY ->
         truthy_string (env "POSTHOG_PROJECT_ID") = Some PROJECT_ID ->
         let req := get_json API_KEY
                      (insight_url (or_default (env "POSTHOG_HOST") "us.posthog.com")
                                   PROJECT_ID (Number_toString insightId)) in
         fetch (upstream s) req = (w', Normal r) ->
         non_2xx r ->
         get_posthog_insight JSON_stringify Number_toString fetch env insightId s
         = ({| upstream := w'; calls := calls s ++ [req] |},
            Throw (UnprocessableContent
                     ("Failed to get insight: " +++ "PostHog API error: "
                      +++ decimal (status r) +++ " - " +++ text r))))
  /\ (forall world (fetch : fetcher world Dashboards.API.PostHogDashboardListResponse)
             env fuel s API_KEY PROJECT_ID k w' r,
         truthy_string (env "POSTHOG_API_KEY") = Some API_KEY ->
         truthy_string (env "POSTHOG_PROJECT_ID") = Some PROJECT_ID ->
         DashboardSpec.fails_after fetch API_KEY (upstream s)
           (Some (Dashboards.dashboards_url
                    (or_default (env "POSTHOG_HOST") "us.posthog.com") PROJECT_ID))
           k w' r ->
         k < fuel ->
         exists reqs,
           Dashboards.list_posthog_dashboards fetch env fuel s
           = ({| upstream := w'; calls := calls s ++ reqs |},
              Throw (UnprocessableContent
                       ("Failed to list dashboards: " +++ "PostHog API error: "
                        +++ decimal (status r) +++ " - " +++ text r)))
           /\ List.length reqs = S k)
  /\ (forall prefix status text,
         let m := prefix +++ "PostHog API error: " +++ decimal status
                  +++ " - " +++ text in
         starts_with prefix m /\ contains (decimal status) m /\ contains text m)
  /\ decimal 404 = "404"%string.
Proof.
  repeat apply conj.
  - intros JSON_stringify world fetch env sql s API_KEY PROJECT_ID w' r Hk Hp req F O.
    rewrite (run_posthog_sql_fetch _ _ fetch env _ _ sql s Hk Hp). cbv zeta.
    fold req. now rewrite F, (non_2xx_not_ok _ O).
  - intros JSON_stringify Number_toString world fetch env insightId s
           API_KEY PROJECT_ID w' r Hk Hp req F O.
    rewrite (get_posthog_insight_fetch _ _ _ fetch env _ _ insightId s Hk Hp).
    cbv zeta. fold req. now rewrite F, (non_2xx_not_ok _ O).
  - intros world fetch env fuel s API_KEY PROJECT_ID k w' r Hk Hp Fa Hfuel.
    rewrite (list_posthog_dashboards_paginate _ fetch env _ _ fuel s Hk Hp).
    destruct s as [w log]. simpl in Fa.
    destruct (paginate_fails_after _ fetch _ _ _ _ _ _ Fa fuel [] log Hfuel)
      as [reqs [E L]].
    exists reqs. now rewrite E.
  - intros prefix status text m.
    destruct (api_error_message prefix status text) as [_ H]. exact H.
  - reflexivity.
Qed.

Lemma non_2xx_status_is_unprocessable_witness :
  RunSql.run_posthog_sql Samples.no_stringify (Samples.always Samples.not_found)
    Samples.full_env "select 1" Samples.fresh
  = ({| upstream := tt;
        calls := calls Samples.fresh
                 ++ [RunSql.query_request Samples.no_stringify "phx_key"
                       (RunSql.query_url
                          (or_default (Samples.full_env "POSTHOG_HOST") "us.posthog.com")
                          "42") "select 1"] |},
     Throw (UnprocessableContent
              ("PostHog query failed: " +++ "PostHog API error: "
               +++ decimal (status (@Samples.not_found RunSql.API.PostHogAPIResponse))
               +++ " - " +++ text (@Samples.not_found RunSql.API.PostHogAPIResponse)))).
Proof.
  destruct non_2xx_status_is_unprocessable as [H _].
  apply (H Samples.no_stringify unit (Samples.always Samples.not_found)
           Samples.full_env "select 1"%string Samples.fresh
           "phx_key"%string "42"%string tt Samples.not_found).
  - reflexivity.
  - reflexivity.
  - reflexivity.
  - right. reflexivity.
Defined.

(** ** Configuration checks *)

Section Configuration.
Variable env : environment.

Lemma run_posthog_sql_no_key JSON_stringify world
  (fetch : fetcher world RunSql.API.PostHogAPIResponse) sql s :
  truthy_string (env "POSTHOG_API_KEY") = None ->
  RunSql.run_posthog_sql JSON_stringify fetch env sql s
  = (s, Throw (UnprocessableContent (required_message "POSTHOG_API_KEY"))).
Proof. intros H. unfold RunSql.run_posthog_sql. now rewrite H. Qed.

Lemma run_posthog_sql_no_project JSON_stringify world
  (fetch : fetcher world RunSql.API.PostHogAPIResponse) sql s API_KEY :
  truthy_string (env "POSTHOG_API_KEY") = Some API_KEY ->
  truthy_string (env "POSTHOG_PROJECT_ID") = None ->
  RunSql.run_posthog_sql JSON_stringify fetch env sql s
  = (s, Throw (UnprocessableContent (required_message "POSTHOG_PROJECT_ID"))).
Proof. intros H1 H2. unfold RunSql.run_posthog_sql. now rewrite H1, H2. Qed.

Lemma get_posthog_insight_no_key JSON_stringify Number_toString world
  (fetch : fetcher world Insight.API.PostHogInsightResponse) insightId s :
  truthy_string (env "POSTHOG_API_KEY") = None ->
  get_posthog_insight JSON_stringify Number_toString fetch env insightId s
  = (s, Throw (UnprocessableContent (required_message "POSTHOG_API_KEY"))).
Proof. intros H. unfold get_posthog_insight. now rewrite H. Qed.

Lemma get_posthog_insight_no_project JSON_stringify Number_toString world
  (fetch : fetcher world Insight.API.PostHogInsightResponse) insightId s API_KEY :
  truthy_string (env "POSTHOG_API_KEY") = Some API_KEY ->
  truthy_string (env "POSTHOG_PROJECT_ID") = None ->
  get_posthog_insight JSON_stringify Number_toString fetch env insightId s
  = (s, Throw (UnprocessableContent (required_message "POSTHOG_PROJECT_ID"))).
Proof. intros H1 H2. unfold get_posthog_insight. now rewrite H1, H2. Qed.

Lemma list_posthog_dashboards_no_key world
  (fetch : fetcher world Dashboards.API.PostHogDashboardListResponse) fuel s :
  truthy_string (env "POSTHOG_API_KEY") = None ->
  Dashboards.list_posthog_dashboards fetch env fuel s
  = (s, Throw (UnprocessableContent (required_message "POSTHOG_API_KEY"))).
Proof. intros H. unfold Dashboards.list_posthog_dashboards. now rewrite H. Qed.

Lemma list_posthog_dashboards_no_project world
  (fetch : fetcher world Dashboards.API.PostHogDashboardListResponse) fuel s API_KEY :
  truthy_string (env "POSTHOG_API_KEY") = Some API_KEY ->
  truthy_string (env "POSTHOG_PROJECT_ID") = None ->
  Dashboards.list_posthog_dashboards fetch env fuel s
  = (s, Throw (UnprocessableContent (required_message "POSTHOG_PROJECT_ID"))).
Proof.
  intros H1 H2. unfold Dashboards.list_posthog_dashboards. now rewrite H1, H2.
Qed.

Lemma or_default_unset d :
  truthy_string (env "POSTHOG_HOST") = None ->
  or_default (env "POSTHOG_HOST") d = d.
Proof. intros H. unfold or_default. now rewrite H. Qed.

(** The first request of each operation under a complete configuration. *)
Lemma run_posthog_sql_first_call JSON_stringify world
  (fetch : fetcher world RunSql.API.PostHogAPIResponse) sql s API_KEY PROJECT_ID :
  truthy_string (env "POSTHOG_API_KEY") = Some API_KEY ->
  truthy_string (env "POSTHOG_PROJECT_ID") = Some PROJECT_ID ->
  exists w' outcome,
    RunSql.run_posthog_sql JSON_stringify fetch env sql s
    = ({| upstream := w';
          calls := calls s
                   ++ [RunSql.query_request JSON_stringify API_KEY
                         (RunSql.query_url
                            (or_default (env "POSTHOG_HOST") "us.posthog.com")
                            PROJECT_ID) sql] |},
       outcome).
Proof.
  intros Hk Hp.
  rewrite (run_posthog_sql_fetch _ _ fetch env _ _ sql s Hk Hp). cbv zeta.
  destruct (fetch (upstream s) _) as [w' r]. eauto.
Qed.

Lemma get_posthog_insight_first_call JSON_stringify Number_toString world
  (fetch : fetcher world Insight.API.PostHogInsightResponse) insightId s
  API_KEY PROJECT_ID :
  truthy_string (env "POSTHOG_API_KEY") = Some API_KEY ->
  truthy_string (env "POSTHOG_PROJECT_ID") = Some PROJECT_ID ->
  exists w' outcome,
    get_posthog_insight JSON_stringify Number_toString fetch env insightId s
    = ({| upstream := w';
          calls := calls s
                   ++ [get_json API_KEY
                         (insight_url
                            (or_default (env "POSTHOG_HOST") "us.posthog.com")
                            PROJECT_ID (Number_toString insightId))] |},
       outcome).
Proof.
  intros Hk Hp.
  rewrite (get_posthog_insight_fetch _ _ _ fetch env _ _ insightId s Hk Hp). cbv zeta.
  destruct (fetch (upstream s) _) as [w' r]. eauto.
Qed.

Lemma paginate_calls world
  (fetch : fetcher world Dashboards.API.PostHogDashboardListResponse) API_KEY fuel :
  forall next allDashboards s s' outcome,
    Dashboards.paginate fetch fuel API_KEY next allDashboards s = (s', outcome) ->
    exists reqs, calls s' = calls s ++ reqs.
Proof.
  induction fuel as [|fuel IH]; intros next allDashboards s s' outcome; simpl.
  - destruct (truthy_string next); unfold Http.ret; intros H; inversion H;
      exists []; now rewrite app_nil_r.
  - destruct (truthy_string next) as [url|].
    + unfold Http.bind at 1, await_fetch.
      destruct (fetch (upstream s) (get_json API_KEY url)) as [w1 [r|e]].
      * destruct (ok r); simpl.
        -- unfold Http.bind at 1, lift. destruct (json r) as [page|e].
           ++ unfold Http.bind at 1. rewrite for_of_push_dashboard.
              intros H. apply IH in H. destruct H as [reqs H]. simpl in H.
              exists (get_json API_KEY url :: reqs). now rewrite H, <- app_assoc.
           ++ intros H. inversion H. simpl. eauto.
        -- unfold throw. intros H. inversion H. simpl. eauto.
      * intros H. inversion H. simpl. eauto.
    + unfold Http.ret. intros H. inversion H. exists []. now rewrite app_nil_r.
Qed.

Lemma paginate_first_call world
  (fetch : fetcher world Dashboards.API.PostHogDashboardListResponse) API_KEY fuel
  url allDashboards s s' outcome :
  url <> ""%string ->
  Dashboards.paginate fetch (S fuel) API_KEY (Some url) allDashboards s = (s', outcome) ->
  exists reqs, calls s' = calls s ++ get_json API_KEY url :: reqs.
Proof.
  intros U. simpl. destruct (String.eqb_spec url ""); [contradiction|].
  unfold Http.bind at 1, await_fetch.
  destruct (fetch (upstream s) (get_json API_KEY url)) as [w1 [r|e]].
  - destruct (ok r); simpl.
    + unfold Http.bind at 1, lift. destruct (json r) as [page|e].
      * unfold Http.bind at 1. rewrite for_of_push_dashboard.
        intros H. apply paginate_calls in H. destruct H as [reqs H]. simpl in H.
        exists reqs. now rewrite H, <- app_assoc.
      * intros H. inversion H. simpl. eauto.
    + unfold throw. intros H. inversion H. simpl. eauto.
  - intros H. inversion H. simpl. eauto.
Qed.

Lemma list_posthog_dashboards_first_call world
  (fetch : fetcher world Dashboards.API.PostHogDashboardListResponse) fuel s
  API_KEY PROJECT_ID :
  truthy_string (env "POSTHOG_API_KEY") = Some API_KEY ->
  truthy_string (env "POSTHOG_PROJECT_ID") = Some PROJECT_ID ->
  exists s' outcome reqs,
    Dashboards.list_posthog_dashboards fetch env (S fuel) s = (s', outcome)
    /\ calls s'
       = calls s
         ++ get_json API_KEY
              (Dashboards.dashboards_url
                 (or_default (env "POSTHOG_HOST") "us.posthog.com") PROJECT_ID)
            :: reqs.
Proof.
  intros Hk Hp.
  rewrite (list_posthog_dashboards_paginate _ fetch env _ _ (S fuel) s Hk Hp).
  destruct (Dashboards.paginate fetch (S fuel) API_KEY _ [] s) as [s' o] eqn:P.
  apply paginate_first_call in P; [|discriminate].
  destruct P as [reqs P].
  destruct o as [[all|]|e]; eauto.
Qed.

End Configuration.

(** C8.  When [POSTHOG_API_KEY] is not set, each operation throws the
    [UnprocessableContent] naming it and leaves the session as it was: no
    request is made.  When the key is set and [POSTHOG_PROJECT_ID] is not, it
    throws the one naming [POSTHOG_PROJECT_ID], again without a request; the
    key is checked first.  When both are set and [POSTHOG_HOST] is not, the
    operation goes on to make its first request to [us.posthog.com]. *)
Theorem missing_configuration_fails_first :
  forall env : environment,
    (env "POSTHOG_API_KEY" = None ->
       (forall JSON_stringify world
               (fetch : fetcher world RunSql.API.PostHogAPIResponse) sql s,
           RunSql.run_posthog_sql JSON_stringify fetch env sql s
           = (s, Throw (UnprocessableContent (required_message "POSTHOG_API_KEY"))))
       /\ (forall JSON_stringify Number_toString world
                  (fetch : fetcher world Insight.API.PostHogInsightResponse)
                  insightId s,
              get_posthog_insight JSON_stringify Number_toString fetch env insightId s
              = (s, Throw (UnprocessableContent (required_message "POSTHOG_API_KEY"))))
       /\ (forall world
                  (fetch : fetcher world Dashboards.API.PostHogDashboardListResponse)
                  fuel s,
              Dashboards.list_posthog_dashboards fetch env fuel s
              = (s, Throw (UnprocessableContent (required_message "POSTHOG_API_KEY")))))
    /\ (forall API_KEY,
          truthy_string (env "POSTHOG_API_KEY") = Some API_KEY ->
          env "POSTHOG_PROJECT_ID" = None ->
          (forall JSON_stringify world
                  (fetch : fetcher world RunSql.API.PostHogAPIResponse) sql s,
              RunSql.run_posthog_sql JSON_stringify fetch env sql s
              = (s, Throw (UnprocessableContent
                             (required_message "POSTHOG_PROJECT_ID"))))
          /\ (forall JSON_stringify Number_toString world
                     (fetch : fetcher world Insight.API.PostHogInsightResponse)
                     insightId s,
                 get_posthog_insight JSON_stringify Number_toString fetch env insightId s
                 = (s, Throw (UnprocessableContent
                                (required_message "POSTHOG_PROJECT_ID"))))
          /\ (forall world
                     (fetch : fetcher world Dashboards.API.PostHogDashboardListResponse)
                     fuel s,
                 Dashboards.list_posthog_dashboards fetch env fuel s
                 = (s, Throw (UnprocessableContent
                                (required_message "POSTHOG_PROJECT_ID")))))
    /\ (forall API_KEY PROJECT_ID,
          truthy_string (env "POSTHOG_API_KEY") = Some API_KEY ->
          truthy_string (env "POSTHOG_PROJECT_ID") = Some PROJECT_ID ->
          env "POSTHOG_HOST" = None ->
          (forall JSON_stringify world
                  (fetch : fetcher world RunSql.API.PostHogAPIResponse) sql s,
              exists w' outcome,
                RunSql.run_posthog_sql JSON_stringify fetch env sql s
                = ({| upstream := w';
                      calls := calls s
                               ++ [RunSql.query_request JSON_stringify API_KEY
                                     (RunSql.query_url "us.posthog.com" PROJECT_ID)
                                     sql] |},
                   outcome))
          /\ (forall JSON_stringify Number_toString world
                     (fetch : fetcher world Insight.API.PostHogInsightResponse)
                     insightId s,
                 exists w' outcome,
                   get_posthog_insight JSON_stringify Number_toString fetch env
                     insightId s
                   = ({| upstream := w';
                         calls := calls s
                                  ++ [get_json API_KEY
                                        (insight_url "us.posthog.com" PROJECT_ID
                                           (Number_toString insightId))] |},
                      outcome))
          /\ (forall world
                     (fetch : fetcher world Dashboards.API.PostHogDashboardListResponse)
                     fuel s,
                 exists s' outcome reqs,
                   Dashboards.list_posthog_dashboards fetch env (S fuel) s
                   = (s', outcome)
                   /\ calls s'
                      = calls s
                        ++ get_json API_KEY
                             (Dashboards.dashboards_url "us.posthog.com" PROJECT_ID)
                           :: reqs)).
Proof.
  intros env. split; [|split].
  - intros Hk.
    assert (T : truthy_string (env "POSTHOG_API_KEY") = None) by now rewrite Hk.
    split; [|split]; intros.
    + now apply run_posthog_sql_no_key.
    + now apply get_posthog_insight_no_key.
    + now apply list_posthog_dashboards_no_key.
  - intros API_KEY Hk Hp.
    assert (T : truthy_string (env "POSTHOG_PROJECT_ID") = None) by now rewrite Hp.
    split; [|split]; intros.
    + now apply run_posthog_sql_no_project with API_KEY.
    + now apply get_posthog_insight_no_project with API_KEY.
    + now apply list_posthog_dashboards_no_project with API_KEY.
  - intros API_KEY PROJECT_ID Hk Hp Hh.
    assert (D : or_default (env "POSTHOG_HOST") "us.posthog.com" = "us.posthog.com"%string)
      by (apply or_default_unset; now rewrite Hh).
    split; [|split]; intros.
    + rewrite <- D. now apply run_posthog_sql_first_call.
    + rewrite <- D. now apply get_posthog_insight_first_call.
    + rewrite <- D. now apply list_posthog_dashboards_first_call.
Qed.

Lemma missing_configuration_fails_first_witness :
  RunSql.run_posthog_sql Samples.no_stringify
    (Samples.always (Samples.ok_response RunSqlSamples.empty_response))
    (Samples.env_of [("POSTHOG_PROJECT_ID", "42")]) "select 1" Samples.fresh
  = (Samples.fresh,
     Throw (UnprocessableContent (required_message "POSTHOG_API_KEY"))).
Proof.
  destruct (missing_configuration_fails_first
              (Samples.env_of [("POSTHOG_PROJECT_ID", "42")])) as [H _].
  destruct (H eq_refl) as [H1 _].
  apply H1.
Defined.

Lemma truthy_string_unset_blank env k :
  truthy_string (unset_blank env k) = truthy_string (env k).
Proof.
  unfold unset_blank, truthy_string.
  destruct (env k) as [v|]; trivial.
  destruct (String.eqb_spec v ""); trivial.
  destruct (String.eqb_spec v ""); [contradiction|reflexivity].
Qed.

Lemma or_default_unset_blank env k d :
  or_default (unset_blank env k) d = or_default (env k) d.
Proof. unfold or_default. now rewrite truthy_string_unset_blank. Qed.

(** C9.  A variable set to the empty string counts as not set: each
    operation behaves on an environment as on the one where the empty
    variables are unset.  So an empty [POSTHOG_API_KEY], and with a key an
    empty [POSTHOG_PROJECT_ID], are rejected with the same error and without
    a request, and with an empty [POSTHOG_HOST] the first request goes to
    [us.posthog.com]. *)
Theorem blank_configuration_is_missing :
  forall env : environment,
    ((forall JSON_stringify world
             (fetch : fetcher world RunSql.API.PostHogAPIResponse) sql s,
         RunSql.run_posthog_sql JSON_stringify fetch env sql s
         = RunSql.run_posthog_sql JSON_stringify fetch (unset_blank env) sql s)
     /\ (forall JSON_stringify Number_toString world
                (fetch : fetcher world Insight.API.PostHogInsightResponse) insightId s,
            get_posthog_insight JSON_stringify Number_toString fetch env insightId s
            = get_posthog_insight JSON_stringify Number_toString fetch
                (unset_blank env) insightId s)
     /\ (forall world
                (fetch : fetcher world Dashboards.API.PostHogDashboardListResponse)
                fuel s,
            Dashboards.list_posthog_dashboards fetch env fuel s
            = Dashboards.list_posthog_dashboards fetch (unset_blank env) fuel s))
    /\ (env "POSTHOG_API_KEY" = Some ""%string ->
          (forall JSON_stringify world
                  (fetch : fetcher world RunSql.API.PostHogAPIResponse) sql s,
              RunSql.run_posthog_sql JSON_stringify fetch env sql s
              = (s, Throw (UnprocessableContent (required_message "POSTHOG_API_KEY"))))
          /\ (forall JSON_stringify Number_toString world
                     (fetch : fetcher world Insight.API.PostHogInsightResponse)
                     insightId s,
                 get_posthog_insight JSON_stringify Number_toString fetch env insightId s
                 = (s, Throw (UnprocessableContent
                                (required_message "POSTHOG_API_KEY"))))
          /\ (forall world
                     (fetch : fetcher world Dashboards.API.PostHogDashboardListResponse)
                     fuel s,
                 Dashboards.list_posthog_dashboards fetch env fuel s
                 = (s, Throw (UnprocessableContent
                                (required_message "POSTHOG_API_KEY")))))
    /\ (forall API_KEY,
          truthy_string (env "POSTHOG_API_KEY") = Some API_KEY ->
          env "POSTHOG_PROJECT_ID" = Some ""%string ->
          (forall JSON_stringify world
                  (fetch : fetcher world RunSql.API.PostHogAPIResponse) sql s,
              RunSql.run_posthog_sql JSON_stringify fetch env sql s
              = (s, Throw (UnprocessableContent
                             (required_message "POSTHOG_PROJECT_ID"))))
          /\ (forall JSON_stringify Number_toString world
                     (fetch : fetcher world Insight.API.PostHogInsightResponse)
                     insightId s,
                 get_posthog_insight JSON_stringify Number_toString fetch env insightId s
                 = (s, Throw (UnprocessableContent
                                (required_message "POSTHOG_PROJECT_ID"))))
          /\ (forall world
                     (fetch : fetcher world Dashboards.API.PostHogDashboardListResponse)
                     fuel s,
                 Dashboards.list_posthog_dashboards fetch env fuel s
                 = (s, Throw (UnprocessableContent
                                (required_message "POSTHOG_PROJECT_ID")))))
    /\ (forall API_KEY PROJECT_ID,
          truthy_string (env "POSTHOG_API_KEY") = Some API_KEY ->
          truthy_string (env "POSTHOG_PROJECT_ID") = Some PROJECT_ID ->
          env "POSTHOG_HOST" = Some ""%string ->
          (forall JSON_stringify world
                  (fetch : fetcher world RunSql.API.PostHogAPIResponse) sql s,
              exists w' outcome,
                RunSql.run_posthog_sql JSON_stringify fetch env sql s
                = ({| upstream := w';
                      calls := calls s
                               ++ [RunSql.query_request JSON_stringify API_KEY
                                     (RunSql.query_url "us.posthog.com" PROJECT_ID)
                                     sql] |},
                   outcome))
          /\ (forall JSON_stringify Number_toString world
                     (fetch : fetcher world Insight.API.PostHogInsightResponse)
                     insightId s,
                 exists w' outcome,
                   get_posthog_insight JSON_stringify Number_toString fetch env
                     insightId s
                   = ({| upstream := w';
                         calls := calls s
                                  ++ [get_json API_KEY
                                        (insight_url "us.posthog.com" PROJECT_ID
                                           (Number_toString insightId))] |},
                      outcome))
          /\ (forall world
                     (fetch : fetcher world Dashboards.API.PostHogDashboardListResponse)
                     fuel s,
                 exists s' outcome reqs,
                   Dashboards.list_posthog_dashboards fetch env (S fuel) s
                   = (s', outcome)
                   /\ calls s'
                      = calls s
                        ++ get_json API_KEY
                             (Dashboards.dashboards_url "us.posthog.com" PROJECT_ID)
                           :: reqs)).
Proof.
  intros env. split; [|split; [|split]].
  - split; [|split]; intros.
    + unfold RunSql.run_posthog_sql.
      now rewrite !truthy_string_unset_blank, or_default_unset_blank.
    + unfold get_posthog_insight.
      now rewrite !truthy_string_unset_blank, or_default_unset_blank.
    + unfold Dashboards.list_posthog_dashboards.
      now rewrite !truthy_string_unset_blank, or_default_unset_blank.
  - intros Hk.
    assert (T : truthy_string (env "POSTHOG_API_KEY") = None) by now rewrite Hk.
    split; [|split]; intros.
    + now apply run_posthog_sql_no_key.
    + now apply get_posthog_insight_no_key.
    + now apply list_posthog_dashboards_no_key.
  - intros API_KEY Hk Hp.
    assert (T : truthy_string (env "POSTHOG_PROJECT_ID") = None) by now rewrite Hp.
    split; [|split]; intros.
    + now apply run_posthog_sql_no_project with API_KEY.
    + now apply get_posthog_insight_no_project with API_KEY.
    + now apply list_posthog_dashboards_no_project with API_KEY.
  - intros API_KEY PROJECT_ID Hk Hp Hh.
    assert (D : or_default (env "POSTHOG_HOST") "us.posthog.com" = "us.posthog.com"%string)
      by (apply or_default_unset; now rewrite Hh).
    split; [|split]; intros.
    + rewrite <- D. now apply run_posthog_sql_first_call.
    + rewrite <- D. now apply get_posthog_insight_first_call.
    + rewrite <- D. now apply list_posthog_dashboards_first_call.
Qed.

Lemma blank_configuration_is_missing_witness :
  get_posthog_insight Samples.no_stringify Samples.no_toString
    (Samples.always (Samples.ok_response
       (InsightSamples.bare_insight VUndefined VUndefined)))
    (Samples.env_of [("POSTHOG_API_KEY", "phx_key"); ("POSTHOG_PROJECT_ID", "")])
    7%float Samples.fresh
  = (Samples.fresh,
     Throw (UnprocessableContent (required_message "POSTHOG_PROJECT_ID"))).
Proof.
  destruct (blank_configuration_is_missing
              (Samples.env_of [("POSTHOG_API_KEY", "phx_key");
                               ("POSTHOG_PROJECT_ID", "")])) as [_ [_ [H _]]].
  destruct (H "phx_key"%string eq_refl eq_refl) as [_ [H2 _]].
  apply H2.
Defined.

(** ** Defaults for absent upstream fields *)


Lemma insight_detail_fields JSON_stringify data out :
  Insight.insight_detail JSON_stringify data = Normal out ->
  exists kind events,
    extractQueryKind (API.query data) = Normal kind
    /\ extractTrackedEvents (API.query data) (API.filters data) = Normal events
    /\ out = {| id := API.id data;
                shortId := orNull (API.short_id data);
                name := orElse (API.name data) (orNull (API.derived_name data));
                derivedName := orNull (API.derived_name data);
                description := orNull (API.description data);
                tags := coalesce (API.tags data) [];
                favorited := coalesce (API.favorited data) false;
                lastRefresh := orNull (API.last_refresh data);
                lastModifiedAt := orNull (API.last_modified_at data);
                createdAt := orNull (API.created_at data);
                createdBy :=
                  orElse (chain (API.created_by data) API.Creator.email)
                         (orNull (chain (API.created_by data) API.Creator.first_name));
                query := if truthy (API.query data)
                         then Some (JSON_stringify (API.query data)) else None;
                filters := if truthy (API.filters data)
                           then Some (JSON_stringify (API.filters data)) else None;
                hogql := orNull (API.hogql data);
                dashboards := map dashboard_reference (coalesce (API.dashboards data) []);
                queryKind := kind;
                trackedEvents := events |}.
Proof.
  unfold Insight.insight_detail.
  destruct (extractQueryKind (API.query data)) as [kind|]; simpl; [|discriminate].
  destruct (extractTrackedEvents (API.query data) (API.filters data)) as [events|];
    simpl; [|discriminate].
  intros H. inversion H. eauto.
Qed.





(** ** No key holds undefined *)












Lemma dashboards_normalized_witness :
  exists req data,
    answers (Samples.always (Samples.ok_response DashboardRefSamples.mixed_dashboards))
      (upstream Samples.fresh) req data tt
    /\ forall entries, API.dashboards data = Has entries ->
         List.length
           (map dashboard_reference
              (coalesce (API.dashboards DashboardRefSamples.mixed_dashboards) []))
         = List.length entries
         /\ (forall i n, nth_error entries i = Some (API.number n) ->
               nth_error
                 (map dashboard_reference
                    (coalesce (API.dashboards DashboardRefSamples.mixed_dashboards) []))
                 i
               = Some {| DashboardReference.id := n;
                         DashboardReference.name := None |})
         /\ (forall i o, nth_error entries i = Some (API.object o) ->
               exists ref,
                 nth_error
                   (map dashboard_reference
                      (coalesce (API.dashboards DashboardRefSamples.mixed_dashboards) []))
                   i
                 = Some ref
                 /\ DashboardReference.id ref = API.Dashboard.id o
                 /\ (forall x, API.Dashboard.name o = Has x ->
                       DashboardReference.name ref = Some x)
                 /\ (nullish (API.Dashboard.name o) = true ->
                       DashboardReference.name ref = None)).
Proof.
  destruct dashboards_normalized as [H _].
  exact (H Samples.no_stringify Samples.no_toString unit
           (Samples.always (Samples.ok_response DashboardRefSamples.mixed_dashboards))
           Samples.full_env 7%float Samples.fresh _ _ eq_refl).
Defined.

(** * Further properties of the code *)

(** ** What the event pattern can capture *)

Lemma contains_prefix sub m rest : contains sub m -> contains sub (m +++ rest).
Proof.
  intros [pre [post ->]]. exists pre, (post +++ rest).
  now rewrite !append_assoc.
Qed.

Lemma contains_tail sub c s : contains sub s -> contains sub (String c s).
Proof. intros [pre [post ->]]. now exists (String c pre), post. Qed.

Lemma is_quote_eq c : is_quote c = true -> c = "'"%char.
Proof. unfold is_quote. apply Ascii.eqb_eq. Qed.

(** A match of the event pattern is a prefix of the text it was tried on; it
    ends with group 1 between single quotes, and group 1 holds no quote. *)
Lemma exec_event_shape s m cap :
  exec_event s = Some (m, cap) ->
  (exists rest, s = m +++ rest)
  /\ contains (String "'" cap +++ "'") m
  /\ all_chars not_quote cap = true.
Proof.
  unfold exec_event.
  destruct s as [|c1 [|c2 [|c3 [|c4 [|c5 r]]]]]; try discriminate.
  destruct (letter "e" "E" c1 && letter "v" "V" c2 && letter "e" "E" c3
            && letter "n" "N" c4 && letter "t" "T" c5); try discriminate.
  destruct (span is_space r) as [ws1 r1] eqn:S1.
  destruct r1 as [|eq r2]; try discriminate.
  destruct (Ascii.eqb_spec eq "="); try discriminate. subst eq.
  destruct (span is_space r2) as [ws2 r3] eqn:S2.
  destruct r3 as [|q r4]; try discriminate.
  destruct (is_quote q) eqn:Q; try discriminate.
  apply is_quote_eq in Q. subst q.
  destruct (span not_quote r4) as [cap' r5] eqn:S3.
  destruct cap' as [|k cap']; try discriminate.
  destruct r5 as [|q' r6]; try discriminate.
  intros H. inversion H. subst m cap. clear H.
  apply span_spec in S1. destruct S1 as [-> _].
  apply span_spec in S2. destruct S2 as [-> _].
  apply span_spec in S3. destruct S3 as [-> [W3 Q']].
  unfold not_quote in Q'. apply negb_false_iff, is_quote_eq in Q'. subst q'.
  split; [|split; [|exact W3]].
  - exists r6. repeat (progress (rewrite ?append_assoc; simpl)). reflexivity.
  - exists (String c1 (String c2 (String c3 (String c4 (String c5 ws1))))
            +++ String "=" ws2), "".
    assert (E : forall s, s +++ "" = s) by (induction s; simpl; congruence).
    repeat (progress (rewrite ?append_assoc, ?E; simpl)). reflexivity.
Qed.

Lemma contains_trans a b c : contains a b -> contains b c -> contains a c.
Proof.
  intros [p1 [q1 ->]] [p2 [q2 ->]]. exists (p2 +++ p1), (q1 +++ q2).
  now rewrite !append_assoc.
Qed.

Lemma scan_event_within s : forall skip,
  Forall (fun mc => contains (fst mc) s
                    /\ contains (String "'" (snd mc) +++ "'") (fst mc)
                    /\ all_chars not_quote (snd mc) = true)
         (scan_event s skip).
Proof.
  induction s as [|c s IH]; intros skip; simpl; [constructor|].
  assert (L : forall k,
             Forall (fun mc => contains (fst mc) (String c s)
                               /\ contains (String "'" (snd mc) +++ "'") (fst mc)
                               /\ all_chars not_quote (snd mc) = true)
                    (scan_event s k)).
  { intros k. eapply Forall_impl; [|apply IH].
    intros mc [H1 H2]. split; trivial. now apply contains_tail. }
  destruct skip as [|k]; [|apply L].
  destruct (exec_event (String c s)) as [[m cap]|] eqn:E; [|apply L].
  constructor; [|apply L]. simpl.
  apply exec_event_shape in E. destruct E as [[rest E] [C W]].
  split; [|split]; trivial.
  rewrite E. exists "", rest. reflexivity.
Qed.

Lemma all_chars_contains p sub s :
  all_chars p s = true -> contains sub s -> all_chars p sub = true.
Proof.
  intros H [pre [post ->]]. rewrite !all_chars_app in H.
  apply andb_true_iff in H. destruct H as [_ H].
  apply andb_true_iff in H. now destruct H.
Qed.

(** X1.  Every text the global match returns occurs in the HogQL text, and
    the name taken from it is the text found there between two single quotes,
    itself free of quotes.  So a text without a single quote, such as one
    that writes its literals between double quotes, yields no match. *)
Theorem event_names_are_single_quoted_text :
  forall hogql,
    (forall eventMatches,
        match_event_g hogql = Some eventMatches ->
        eventMatches <> []
        /\ Forall (fun m =>
             contains m hogql
             /\ exists eventName,
                  match_quoted_1 m = Some eventName
                  /\ contains (String "'" eventName +++ "'") hogql
                  /\ all_chars not_quote eventName = true)
             eventMatches)
    /\ (all_chars not_quote hogql = true -> match_event_g hogql = None).
Proof.
  intros hogql.
  assert (A : forall eventMatches,
             match_event_g hogql = Some eventMatches ->
             eventMatches <> []
             /\ Forall (fun m =>
                  contains m hogql
                  /\ exists eventName,
                       match_quoted_1 m = Some eventName
                       /\ contains (String "'" eventName +++ "'") hogql
                       /\ all_chars not_quote eventName = true)
                  eventMatches).
  { intros eventMatches H. unfold match_event_g in H.
    assert (E : eventMatches = map fst (scan_event hogql 0) /\ eventMatches <> []).
    { destruct (map fst (scan_event hogql 0)); inversion H. split; congruence. }
    destruct E as [-> N]. split; trivial.
    apply Forall_forall. intros m Hm.
    apply in_map_iff in Hm. destruct Hm as [[m' cap] [<- Hm]].
    pose proof (scan_event_within hogql 0) as W.
    pose proof (scan_event_quoted hogql 0) as Q.
    rewrite Forall_forall in W, Q.
    destruct (W _ Hm) as [W1 [W2 W3]]. destruct (Q _ Hm) as [Q1 _]. simpl in *.
    split; trivial. exists cap. repeat split; trivial.
    now apply contains_trans with m'. }
  split; [exact A|].
  intros NQ. destruct (match_event_g hogql) as [ms|] eqn:E; trivial.
  destruct (A ms eq_refl) as [N F].
  destruct ms as [|m ms]; [congruence|].
  inversion F as [|? ? [_ [name [_ [C _]]]] _]; subst.
  apply (all_chars_contains _ _ _ NQ) in C. discriminate.
Qed.

Lemma event_names_are_single_quoted_text_witness :
  match_event_g "select count() from events where event = pageview" = None.
Proof.
  destruct (event_names_are_single_quoted_text
              "select count() from events where event = pageview") as [_ H].
  apply H. reflexivity.
Defined.

(** ** What [extractTrackedEvents] reads, and what it ignores *)

Lemma scan_query_not_object events query :
  (forall fields, query <> VObj fields) -> scan_query events query = Normal events.
Proof.
  intros H. unfold scan_query. destruct query; simpl; trivial.
  - now destruct b.
  - now destruct (negb _).
  - now destruct (negb _).
  - now destruct (H fields).
Qed.

Lemma scan_filters_not_object events filters :
  (forall fields, filters <> VObj fields) -> scan_filters events filters = Normal events.
Proof.
  intros H. unfold scan_filters. destruct filters; simpl; trivial.
  - now destruct b.
  - now destruct (negb _).
  - now destruct (negb _).
  - now destruct (H fields).
Qed.

(** X2.  The tracked events depend on [query] through its [series] and
    [query] keys only and on [filters] through its [events] and [actions]
    keys only: two objects that agree on those keys give the same outcome,
    whatever else they hold (so series nested under another key, such as
    [source], are not looked at), and a [query] or [filters] that is not an
    object counts as absent. *)
Theorem trackedEvents_reads_four_keys :
  (forall fields fields' filters,
      lookup "series" fields = lookup "series" fields' ->
      lookup "query" fields = lookup "query" fields' ->
      extractTrackedEvents (VObj fields) filters
      = extractTrackedEvents (VObj fields') filters)
  /\ (forall query fields fields',
         lookup "events" fields = lookup "events" fields' ->
         lookup "actions" fields = lookup "actions" fields' ->
         extractTrackedEvents query (VObj fields)
         = extractTrackedEvents query (VObj fields'))
  /\ (forall query filters,
         (forall fields, query <> VObj fields) ->
         extractTrackedEvents query filters = extractTrackedEvents VUndefined filters)
  /\ (forall query filters,
         (forall fields, filters <> VObj fields) ->
         extractTrackedEvents query filters = extractTrackedEvents query VUndefined).
Proof.
  split; [|split; [|split]].
  - intros fields fields' filters Hs Hq.
    unfold extractTrackedEvents, scan_query. simpl. now rewrite Hs, Hq.
  - intros query fields fields' He Ha.
    unfold extractTrackedEvents, scan_filters. simpl. now rewrite He, Ha.
  - intros query filters H. unfold extractTrackedEvents.
    now rewrite (scan_query_not_object _ _ H).
  - intros query filters H. unfold extractTrackedEvents.
    destruct (scan_query [] query); simpl; trivial.
    now rewrite (scan_filters_not_object _ _ H).
Qed.

Lemma trackedEvents_reads_four_keys_witness :
  extractTrackedEvents FurtherSamples.nested_series VUndefined
  = extractTrackedEvents (VObj []) VUndefined.
Proof.
  destruct trackedEvents_reads_four_keys as [H _].
  apply H; reflexivity.
Defined.

Lemma scan2_not_object k1 k2 events entry :
  (forall fields, entry <> VObj fields) ->
  TrackedEvents.readable entry = true ->
  scan2 k1 k2 events entry = Normal events.
Proof.
  intros H R. unfold scan2.
  destruct entry; simpl in *; trivial; try discriminate. now destruct (H fields).
Qed.

Lemma scan1_not_object k1 events entry :
  (forall fields, entry <> VObj fields) ->
  TrackedEvents.readable entry = true ->
  scan1 k1 events entry = Normal events.
Proof.
  intros H R. unfold scan1.
  destruct entry; simpl in *; trivial; try discriminate. now destruct (H fields).
Qed.

(** X3.  An entry of [series], of [filters.events] or of [filters.actions]
    that is not an object but a string, a number, a boolean or an array
    neither adds an event nor makes the scan fail: dropping it from its array
    leaves the outcome unchanged. *)
Theorem primitive_entries_are_skipped :
  forall entry,
    (forall fields, entry <> VObj fields) ->
    TrackedEvents.readable entry = true ->
    (forall rest pre post filters,
        extractTrackedEvents
          (VObj (("series", VArr (pre ++ entry :: post)) :: rest)) filters
        = extractTrackedEvents
            (VObj (("series", VArr (pre ++ post)) :: rest)) filters)
    /\ (forall query rest pre post,
           extractTrackedEvents query
             (VObj (("events", VArr (pre ++ entry :: post)) :: rest))
           = extractTrackedEvents query
               (VObj (("events", VArr (pre ++ post)) :: rest)))
    /\ (forall query rest pre post,
           extractTrackedEvents query
             (VObj (("actions", VArr (pre ++ entry :: post)) :: rest))
           = extractTrackedEvents query
               (VObj (("actions", VArr (pre ++ post)) :: rest))).
Proof.
  intros entry H R. split; [|split].
  - intros rest pre post filters.
    unfold extractTrackedEvents, scan_query. simpl.
    rewrite (for_of_skip _ pre entry post); trivial.
    intros ev. exact (scan2_not_object "event" "name" ev entry H R).
  - intros query rest pre post.
    unfold extractTrackedEvents. destruct (scan_query [] query); simpl; trivial.
    unfold scan_filters. simpl.
    rewrite (for_of_skip _ pre entry post); trivial.
    intros ev. exact (scan2_not_object "id" "name" ev entry H R).
  - intros query rest pre post.
    unfold extractTrackedEvents. destruct (scan_query [] query); simpl; trivial.
    unfold scan_filters. simpl.
    match goal with |- JS.bind (JS.bind ?X _) _ = _ => destruct X end; simpl; trivial.
    rewrite (for_of_skip _ pre entry post); trivial.
    intros ev. exact (scan1_not_object "name" ev entry H R).
Qed.

Lemma primitive_entries_are_skipped_witness :
  extractTrackedEvents
    (VObj [("series", VArr ([VObj [("event", VStr "a")]] ++ VStr "b" :: []))])
    VUndefined
  = extractTrackedEvents
      (VObj [("series", VArr ([VObj [("event", VStr "a")]] ++ []))])
      VUndefined.
Proof.
  destruct (primitive_entries_are_skipped (VStr "b")) as [H _].
  - discriminate.
  - reflexivity.
  - apply H.
Defined.

(** ** How the two scans compose *)

(** X4.  The events found in [query] come first and survive the scan of
    [filters]: whenever the extraction succeeds, its result starts with the
    result obtained for the same [query] without [filters], followed by the
    events only [filters] brought, none of which is already among the
    former. *)
Theorem filters_extend_query_events :
  forall query filters events,
    extractTrackedEvents query filters = Normal events ->
    exists from_query more,
      extractTrackedEvents query VUndefined = Normal from_query
      /\ events = from_query ++ more
      /\ Forall (fun v => Set_has from_query v = false) more
      /\ incl more (TrackedEvents.from_filter_events filters
                    ++ TrackedEvents.from_filter_actions filters).
Proof.
  intros query filters events H. unfold extractTrackedEvents in *.
  destruct (forallb TrackedEvents.readable (TrackedEvents.array_under query "series"))
    eqn:Rs.
  2: { destruct (scan_query_unreadable [] query Rs) as [m Hm].
       rewrite Hm in H. discriminate. }
  rewrite (scan_query_readable [] query Rs) in *. simpl in *.
  set (from_query := fold_left Set_add
                       (TrackedEvents.from_series query ++ TrackedEvents.from_hogql query)
                       []) in *.
  destruct (forallb TrackedEvents.readable (TrackedEvents.array_under filters "events")
            && forallb TrackedEvents.readable
                 (TrackedEvents.array_under filters "actions")) eqn:Rf.
  2: { destruct (scan_filters_unreadable from_query filters Rf) as [m Hm].
       rewrite Hm in H. discriminate. }
  apply andb_true_iff in Rf. destruct Rf as [Re Ra].
  rewrite (scan_filters_readable from_query filters Re Ra) in H. simpl in H.
  inversion H as [E]. rewrite fold_Set_add.
  eexists. eexists. split; [reflexivity|]. split; [reflexivity|]. split.
  - apply Forall_forall. intros v Hv. apply filter_In in Hv.
    destruct Hv as [_ Hv]. now apply negb_true_iff.
  - intros v Hv. apply filter_In in Hv. destruct Hv as [Hv _].
    now apply first_occurrences_incl.
Qed.

Lemma filters_extend_query_events_witness :
  exists from_query more,
    extractTrackedEvents Samples.series_a_twice VUndefined = Normal from_query
    /\ [VStr "a"; VStr "b"] = from_query ++ more
    /\ Forall (fun v => Set_has from_query v = false) more
    /\ incl more (TrackedEvents.from_filter_events FurtherSamples.filters_b_a
                  ++ TrackedEvents.from_filter_actions FurtherSamples.filters_b_a).
Proof.
  apply (filters_extend_query_events Samples.series_a_twice FurtherSamples.filters_b_a).
  reflexivity.
Defined.

Lemma first_occurrences_length l :
  List.length (TrackedEvents.first_occurrences l) <= List.length l.
Proof.
  induction l as [|x l IH]; simpl; trivial.
  apply le_n_S. etransitivity; [apply filter_length_le|exact IH].
Qed.

Lemma present_field_length entry k :
  List.length (TrackedEvents.present_field entry k) <= 1.
Proof.
  unfold TrackedEvents.present_field. destruct entry; simpl; try lia.
  destruct (truthy (lookup k fields)); simpl; lia.
Qed.

Lemma flat_map_length_le {A B} (f : A -> list B) n l :
  (forall a, List.length (f a) <= n) ->
  List.length (flat_map f l) <= n * List.length l.
Proof.
  intros H. induction l as [|a l IH]; simpl; [lia|].
  rewrite length_app. specialize (H a). lia.
Qed.

(** X5.  The tracked events are never more than the scan can find: at most
    two per entry of [series], one per match of the event pattern, two per
    entry of [filters.events] and one per entry of [filters.actions]. *)
Theorem trackedEvents_length_bound :
  forall query filters events,
    extractTrackedEvents query filters = Normal events ->
    List.length events
    <= 2 * List.length (TrackedEvents.array_under query "series")
       + List.length (TrackedEvents.from_hogql query)
       + 2 * List.length (TrackedEvents.array_under filters "events")
       + List.length (TrackedEvents.array_under filters "actions").
Proof.
  intros query filters events H.
  apply extractTrackedEvents_normal in H. subst events.
  etransitivity; [apply first_occurrences_length|].
  unfold TrackedEvents.discovered. rewrite !length_app.
  assert (A : List.length (TrackedEvents.from_series query)
              <= 2 * List.length (TrackedEvents.array_under query "series")).
  { apply flat_map_length_le. intros e. rewrite length_app.
    pose proof (present_field_length e "event").
    pose proof (present_field_length e "name"). lia. }
  assert (B : List.length (TrackedEvents.from_filter_events filters)
              <= 2 * List.length (TrackedEvents.array_under filters "events")).
  { apply flat_map_length_le. intros e. rewrite length_app.
    pose proof (present_field_length e "id").
    pose proof (present_field_length e "name"). lia. }
  assert (C : List.length (TrackedEvents.from_filter_actions filters)
              <= 1 * List.length (TrackedEvents.array_under filters "actions")).
  { apply flat_map_length_le. intros e. apply present_field_length. }
  lia.
Qed.

Lemma trackedEvents_length_bound_witness :
  List.length [VStr "a"]
  <= 2 * List.length (TrackedEvents.array_under Samples.series_a_twice "series")
     + List.length (TrackedEvents.from_hogql Samples.series_a_twice)
     + 2 * List.length (TrackedEvents.array_under VUndefined "events")
     + List.length (TrackedEvents.array_under VUndefined "actions").
Proof.
  apply (trackedEvents_length_bound Samples.series_a_twice VUndefined [VStr "a"]).
  reflexivity.
Defined.

(** ** A null entry fails the whole insight *)

Lemma for_of_scan2_throws_at k1 k2 entries : forall events,
  forallb TrackedEvents.readable entries = false ->
  exists entry,
    In entry entries /\ TrackedEvents.readable entry = false
    /\ for_of (scan2 k1 k2) entries events = Throw (Error (cannot_read k1 entry)).
Proof.
  induction entries as [|e entries IH]; intros events H; simpl in *; [discriminate|].
  destruct (TrackedEvents.readable e) eqn:He; simpl in H.
  - unfold scan2 at 1.
    destruct (get_readable e k1 He) as [a Ha], (get_readable e k2 He) as [b Hb].
    rewrite Ha. simpl. rewrite Hb. simpl.
    destruct (IH (add_truthy (add_truthy events a) b) H) as [x [I [R T]]].
    exists x. auto.
  - exists e. unfold scan2 at 1. rewrite (get_unreadable _ _ He). auto.
Qed.

Lemma for_of_scan1_throws_at k1 entries : forall events,
  forallb TrackedEvents.readable entries = false ->
  exists entry,
    In entry entries /\ TrackedEvents.readable entry = false
    /\ for_of (scan1 k1) entries events = Throw (Error (cannot_read k1 entry)).
Proof.
  induction entries as [|e entries IH]; intros events H; simpl in *; [discriminate|].
  destruct (TrackedEvents.readable e) eqn:He; simpl in H.
  - unfold scan1 at 1.
    destruct (get_readable e k1 He) as [a Ha]. rewrite Ha. simpl.
    destruct (IH (add_truthy events a) H) as [x [I [R T]]].
    exists x. auto.
  - exists e. unfold scan1 at 1. rewrite (get_unreadable _ _ He). auto.
Qed.

Lemma extractTrackedEvents_throws_at query filters :
  TrackedEvents.entries_readable query filters = false ->
  exists k entry,
    TrackedEvents.readable entry = false
    /\ ((k = "event"%string /\ In entry (TrackedEvents.array_under query "series"))
        \/ (k = "id"%string /\ In entry (TrackedEvents.array_under filters "events"))
        \/ (k = "name"%string /\ In entry (TrackedEvents.array_under filters "actions")))
    /\ extractTrackedEvents query filters = Throw (Error (cannot_read k entry)).
Proof.
  unfold TrackedEvents.entries_readable, extractTrackedEvents. intros H.
  destruct (forallb TrackedEvents.readable (TrackedEvents.array_under query "series"))
    eqn:Hs.
  - rewrite (scan_query_readable _ _ Hs). simpl in *.
    generalize (fold_left Set_add (TrackedEvents.from_series query
                                   ++ TrackedEvents.from_hogql query) []) as events.
    intros events. unfold scan_filters.
    destruct filters as [| |b|n|s|l|ff]; simpl in *; try discriminate.
    destruct (forallb TrackedEvents.readable (elements (lookup "events" ff))) eqn:He;
      simpl in H.
    + change (fun (events0 : list jsval) (event : jsval) =>
                id0 <- get event "id" ;;
                name0 <- get event "name" ;;
                Normal (add_truthy (add_truthy events0 id0) name0))
        with (scan2 "id" "name").
      rewrite (guarded_scan2 "id" "name" _ _ He). simpl.
      destruct (lookup "actions" ff) as [| |b|n|s|l|f]; simpl in *; try discriminate.
      destruct (for_of_scan1_throws_at "name" l
                  (fold_left Set_add
                     (flat_map (fun e => TrackedEvents.present_field e "id"
                                         ++ TrackedEvents.present_field e "name")
                               (elements (lookup "events" ff))) events) H)
        as [x [I [R T]]].
      exists "name"%string, x. split; trivial. split; [auto|].
      unfold scan1 in T. simpl in T. now rewrite T.
    + destruct (lookup "events" ff) as [| |b|n|s|l|f]; simpl in *; try discriminate.
      destruct (for_of_scan2_throws_at "id" "name" l events He) as [x [I [R T]]].
      exists "id"%string, x. split; trivial. split; [auto|].
      unfold scan2 in T. simpl in T. now rewrite T.
  - unfold scan_query.
    destruct query as [| |b|n|s|l|qf]; simpl in *; try discriminate.
    destruct (lookup "series" qf) as [| |b|n|s|l|f]; simpl in *; try discriminate.
    destruct (for_of_scan2_throws_at "event" "name" l [] Hs) as [x [I [R T]]].
    exists "event"%string, x. split; trivial. split; [auto|].
    unfold scan2 in T. simpl in T. now rewrite T.
Qed.

(** X6.  When one of the scanned arrays of the fetched insight holds a null
    entry, [get_posthog_insight] returns nothing of the insight: after its one
    request it throws an [UnprocessableContent] whose message is
    ["Failed to get insight: "] followed by the runtime's complaint about
    reading [event], [id] or [name] of that entry. *)
Theorem null_entry_fails_the_insight :
  forall JSON_stringify Number_toString world
         (fetch : fetcher world Insight.API.PostHogInsightResponse)
         env insightId s API_KEY PROJECT_ID data w',
    truthy_string (env "POSTHOG_API_KEY") = Some API_KEY ->
    truthy_string (env "POSTHOG_PROJECT_ID") = Some PROJECT_ID ->
    let req := get_json API_KEY
                 (insight_url (or_default (env "POSTHOG_HOST") "us.posthog.com")
                              PROJECT_ID (Number_toString insightId)) in
    answers fetch (upstream s) req data w' ->
    TrackedEvents.entries_readable (API.query data) (API.filters data) = false ->
    exists k entry,
      TrackedEvents.readable entry = false
      /\ ((k = "event"%string
           /\ In entry (TrackedEvents.array_under (API.query data) "series"))
          \/ (k = "id"%string
              /\ In entry (TrackedEvents.array_under (API.filters data) "events"))
          \/ (k = "name"%string
              /\ In entry (TrackedEvents.array_under (API.filters data) "actions")))
      /\ get_posthog_insight JSON_stringify Number_toString fetch env insightId s
         = ({| upstream := w'; calls := calls s ++ [req] |},
            Throw (UnprocessableContent
                     ("Failed to get insight: " +++ cannot_read k entry))).
Proof.
  intros JSON_stringify Number_toString world fetch env insightId s
         API_KEY PROJECT_ID data w' Hk Hp req [r [F [O J]]] R.
  destruct (extractTrackedEvents_throws_at _ _ R) as [k [entry [Re [W T]]]].
  exists k, entry. split; trivial. split; trivial.
  rewrite (get_posthog_insight_fetch _ _ _ fetch env _ _ insightId s Hk Hp).
  cbv zeta. fold req. rewrite F, O, J.
  unfold insight_detail.
  destruct (extractQueryKind_normal (API.query data)) as [kind ->].
  simpl. rewrite T. reflexivity.
Qed.

Lemma null_entry_fails_the_insight_witness :
  exists k entry,
    TrackedEvents.readable entry = false
    /\ ((k = "event"%string
         /\ In entry (TrackedEvents.array_under FurtherSamples.series_with_null "series"))
        \/ (k = "id"%string /\ In entry (TrackedEvents.array_under VUndefined "events"))
        \/ (k = "name"%string /\ In entry (TrackedEvents.array_under VUndefined "actions")))
    /\ get_posthog_insight Samples.no_stringify Samples.no_toString
         (Samples.always (Samples.ok_response
            (InsightSamples.bare_insight FurtherSamples.series_with_null VUndefined)))
         Samples.full_env 7%float Samples.fresh
       = ({| upstream := tt;
             calls := calls Samples.fresh
                      ++ [get_json "phx_key"
                            (insight_url
                               (or_default (Samples.full_env "POSTHOG_HOST")
                                           "us.posthog.com")
                               "42" (Samples.no_toString 7%float))] |},
          Throw (UnprocessableContent
                   ("Failed to get insight: " +++ cannot_read k entry))).
Proof.
  apply (null_entry_fails_the_insight Samples.no_stringify Samples.no_toString unit
           (Samples.always (Samples.ok_response
              (InsightSamples.bare_insight FurtherSamples.series_with_null VUndefined)))
           Samples.full_env 7%float Samples.fresh "phx_key"%string "42"%string
           (InsightSamples.bare_insight FurtherSamples.series_with_null VUndefined) tt).
  - reflexivity.
  - reflexivity.
  - eexists. repeat split; reflexivity.
  - reflexivity.
Defined.

(** ** Derived fields of the insight and of the dashboards *)

Lemma insight_detail_queryKind JSON_stringify data out :
  insight_detail JSON_stringify data = Normal out ->
  extractQueryKind (API.query data) = Normal (queryKind out).
Proof.
  intros D. apply insight_detail_fields in D.
  destruct D as [kind [events [K [_ ->]]]]. exact K.
Qed.

(** X7.  [queryKind] never makes the operation fail.  Whenever
    [get_posthog_insight] returns, it is the value the fetched [query] holds
    under [kind] when [query] is an object with that key, whatever that value
    is, and null in every other case: no [query], an object without [kind],
    an array, a string, a number or a boolean. *)
Theorem queryKind_is_the_kind_key :
  (forall JSON_stringify Number_toString world
          (fetch : fetcher world Insight.API.PostHogInsightResponse)
          env insightId s s' out,
      get_posthog_insight JSON_stringify Number_toString fetch env insightId s
      = (s', Normal out) ->
      exists req data,
        answers fetch (upstream s) req data (upstream s')
        /\ (forall fields,
              API.query data = VObj fields -> has_key "kind" fields = true ->
              queryKind out = lookup "kind" fields)
        /\ (forall fields,
              API.query data = VObj fields -> has_key "kind" fields = false ->
              queryKind out = VNull)
        /\ ((forall fields, API.query data <> VObj fields) -> queryKind out = VNull))
  /\ (forall query, exists kind, extractQueryKind query = Normal kind).
Proof.
  split; [|exact extractQueryKind_normal].
  intros JSON_stringify Number_toString world fetch env insightId s s' out H.
  apply get_posthog_insight_returns in H. destruct H as [req [data [A [_ D]]]].
  apply insight_detail_queryKind in D.
  exists req, data. split; trivial. unfold extractQueryKind in D.
  split; [|split].
  - intros fields E Hk. rewrite E in D. simpl in D. rewrite Hk in D.
    simpl in D. now inversion D.
  - intros fields E Hk. rewrite E in D. simpl in D. rewrite Hk in D.
    simpl in D. now inversion D.
  - intros N. destruct (API.query data) as [| |b|n|x|l|fields]; simpl in D.
    + now inversion D.
    + now inversion D.
    + destruct b; simpl in D; now inversion D.
    + destruct (negb _); simpl in D; now inversion D.
    + destruct (negb _); simpl in D; now inversion D.
    + now inversion D.
    + now destruct (N fields).
Qed.

Lemma queryKind_is_the_kind_key_witness :
  exists req data,
    answers (Samples.always (Samples.ok_response
               (InsightSamples.bare_insight FurtherSamples.nested_series VUndefined)))
      (upstream Samples.fresh) req data tt
    /\ (forall fields,
          API.query data = VObj fields -> has_key "kind" fields = true ->
          VStr "InsightVizNode" = lookup "kind" fields)
    /\ (forall fields,
          API.query data = VObj fields -> has_key "kind" fields = false ->
          VStr "InsightVizNode" = VNull)
    /\ ((forall fields, API.query data <> VObj fields) ->
        VStr "InsightVizNode" = VNull).
Proof.
  destruct queryKind_is_the_kind_key as [H _].
  exact (H Samples.no_stringify Samples.no_toString unit
           (Samples.always (Samples.ok_response
              (InsightSamples.bare_insight FurtherSamples.nested_series VUndefined)))
           Samples.full_env 7%float Samples.fresh _ _ eq_refl).
Defined.

(** X8.  [query] and [filters] are serialized on a truthiness test, not on
    presence: whenever [get_posthog_insight] returns, each is the JSON text of
    the fetched value when that value is truthy (an empty object or array
    included) and null when it is falsy, so an upstream [0], [false] or empty
    string is reported as null like a missing value. *)
Theorem falsy_query_is_reported_null :
  forall JSON_stringify Number_toString world
         (fetch : fetcher world Insight.API.PostHogInsightResponse)
         env insightId s s' out,
    get_posthog_insight JSON_stringify Number_toString fetch env insightId s
    = (s', Normal out) ->
    exists req data,
      answers fetch (upstream s) req data (upstream s')
      /\ (truthy (API.query data) = true ->
          query out = Some (JSON_stringify (API.query data)))
      /\ (truthy (API.query data) = false -> query out = None)
      /\ (truthy (API.filters data) = true ->
          filters out = Some (JSON_stringify (API.filters data)))
      /\ (truthy (API.filters data) = false -> filters out = None).
Proof.
  intros JSON_stringify Number_toString world fetch env insightId s s' out H.
  apply get_posthog_insight_returns in H. destruct H as [req [data [A [_ D]]]].
  apply insight_detail_fields in D. destruct D as [kind [events [_ [_ ->]]]].
  exists req, data. split; trivial. simpl.
  repeat split; intros T; now rewrite T.
Qed.

Lemma falsy_query_is_reported_null_witness :
  exists req data,
    answers (Samples.always (Samples.ok_response CreatorSamples.empty_email))
      (upstream Samples.fresh) req data tt
    /\ (truthy (API.query data) = true ->
        None = Some (Samples.no_stringify (API.query data)))
    /\ (truthy (API.query data) = false -> @None string = None)
    /\ (truthy (API.filters data) = true ->
        Some "<json>"%string = Some (Samples.no_stringify (API.filters data)))
    /\ (truthy (API.filters data) = false -> Some "<json>"%string = None).
Proof.
  exact (falsy_query_is_reported_null Samples.no_stringify Samples.no_toString unit
           (Samples.always (Samples.ok_response CreatorSamples.empty_email))
           Samples.full_env 7%float Samples.fresh _ _ eq_refl).
Defined.

(** X9.  [createdBy] is the creator's email whenever the creator has one,
    the empty string included (the fallback is on null, not on emptiness);
    the first name when the email is absent; and null when there is no creator
    or the creator has neither.  This holds for the insight returned by
    [get_posthog_insight] and for every dashboard returned by
    [list_posthog_dashboards]. *)
Theorem createdBy_prefers_email :
  (forall JSON_stringify Number_toString world
          (fetch : fetcher world Insight.API.PostHogInsightResponse)
          env insightId s s' out,
      get_posthog_insight JSON_stringify Number_toString fetch env insightId s
      = (s', Normal out) ->
      exists req data,
        answers fetch (upstream s) req data (upstream s')
        /\ (nullish (API.created_by data) = true -> createdBy out = None)
        /\ (forall c, API.created_by data = Has c ->
              (forall e, API.Creator.email c = Has e -> createdBy out = Some e)
              /\ (forall f, nullish (API.Creator.email c) = true ->
                    API.Creator.first_name c = Has f -> createdBy out = Some f)
              /\ (nullish (API.Creator.email c) = true ->
                  nullish (API.Creator.first_name c) = true ->
                  createdBy out = None)))
  /\ (forall world (fetch : fetcher world Dashboards.API.PostHogDashboardListResponse)
             env fuel s s' out,
         Dashboards.list_posthog_dashboards fetch env fuel s = (s', Normal (Some out)) ->
         exists API_KEY start pages,
           DashboardSpec.walked fetch API_KEY (upstream s) start pages (upstream s')
           /\ Forall (fun d =>
                exists page u,
                  In page pages
                  /\ In u (coalesce (Dashboards.API.results page) [])
                  /\ Dashboards.id d = Dashboards.API.id u
                  /\ (nullish (Dashboards.API.created_by u) = true ->
                      Dashboards.createdBy d = None)
                  /\ (forall c, Dashboards.API.created_by u = Has c ->
                        (forall e, Dashboards.API.Creator.email c = Has e ->
                           Dashboards.createdBy d = Some e)
                        /\ (forall f,
                              nullish (Dashboards.API.Creator.email c) = true ->
                              Dashboards.API.Creator.first_name c = Has f ->
                              Dashboards.createdBy d = Some f)
                        /\ (nullish (Dashboards.API.Creator.email c) = true ->
                            nullish (Dashboards.API.Creator.first_name c) = true ->
                            Dashboards.createdBy d = None)))
                (Dashboards.dashboards out)).
Proof.
  split.
  - intros JSON_stringify Number_toString world fetch env insightId s s' out H.
    apply get_posthog_insight_returns in H. destruct H as [req [data [A [_ D]]]].
    apply insight_detail_fields in D. destruct D as [kind [events [_ [_ ->]]]].
    exists req, data. split; trivial. simpl. split.
    + intros N. now destruct (API.created_by data).
    + intros c ->. simpl. repeat split.
      * now intros e ->.
      * intros f N ->. now destruct (API.Creator.email c).
      * intros N1 N2.
        destruct (API.Creator.email c); try discriminate;
          now destruct (API.Creator.first_name c).
  - intros world fetch env fuel s s' out H.
    apply list_posthog_dashboards_returns in H.
    destruct H as [k [p [pages [_ [_ [W [D _]]]]]]].
    exists k. eexists. exists pages. split; [exact W|].
    rewrite D. apply Forall_forall. intros d Hd.
    apply in_flat_map in Hd. destruct Hd as [page [Hpage Hd]].
    unfold DashboardSpec.page_summaries in Hd.
    apply in_map_iff in Hd. destruct Hd as [u [<- Hu]].
    exists page, u. simpl.
    split; [exact Hpage|]. split; [exact Hu|]. split; [reflexivity|]. split.
    + intros N. now destruct (Dashboards.API.created_by u).
    + intros c ->. simpl. repeat split.
      * now intros e ->.
      * intros f N ->. now destruct (Dashboards.API.Creator.email c).
      * intros N1 N2.
        destruct (Dashboards.API.Creator.email c); try discriminate;
          now destruct (Dashboards.API.Creator.first_name c).
Qed.

Lemma createdBy_prefers_email_witness :
  exists req data,
    answers (Samples.always (Samples.ok_response CreatorSamples.empty_email))
      (upstream Samples.fresh) req data tt
    /\ (nullish (API.created_by data) = true -> Some ""%string = None)
    /\ (forall c, API.created_by data = Has c ->
          (forall e, API.Creator.email c = Has e -> Some ""%string = Some e)
          /\ (forall f, nullish (API.Creator.email c) = true ->
                API.Creator.first_name c = Has f -> Some ""%string = Some f)
          /\ (nullish (API.Creator.email c) = true ->
              nullish (API.Creator.first_name c) = true ->
              Some ""%string = None)).
Proof.
  destruct createdBy_prefers_email as [H _].
  exact (H Samples.no_stringify Samples.no_toString unit
           (Samples.always (Samples.ok_response CreatorSamples.empty_email))
           Samples.full_env 7%float Samples.fresh _ _ eq_refl).
Defined.

(** ** One kind of error *)

(** X10.  Whatever the environment and the upstream do, an operation that
    fails throws an [UnprocessableContent], never a bare error: its message
    is one of the two configuration messages or starts with the operation's
    prefix. *)
Theorem every_failure_is_unprocessable :
  (forall JSON_stringify world (fetch : fetcher world RunSql.API.PostHogAPIResponse)
          env sql s s' e,
      RunSql.run_posthog_sql JSON_stringify fetch env sql s = (s', Throw e) ->
      exists m,
        e = UnprocessableContent m
        /\ (m = required_message "POSTHOG_API_KEY"
            \/ m = required_message "POSTHOG_PROJECT_ID"
            \/ starts_with "PostHog query failed: " m))
  /\ (forall JSON_stringify Number_toString world
             (fetch : fetcher world Insight.API.PostHogInsightResponse)
             env insightId s s' e,
         get_posthog_insight JSON_stringify Number_toString fetch env insightId s
         = (s', Throw e) ->
         exists m,
           e = UnprocessableContent m
           /\ (m = required_message "POSTHOG_API_KEY"
               \/ m = required_message "POSTHOG_PROJECT_ID"
               \/ starts_with "Failed to get insight: " m))
  /\ (forall world (fetch : fetcher world Dashboards.API.PostHogDashboardListResponse)
             env fuel s s' e,
         Dashboards.list_posthog_dashboards fetch env fuel s = (s', Throw e) ->
         exists m,
           e = UnprocessableContent m
           /\ (m = required_message "POSTHOG_API_KEY"
               \/ m = required_message "POSTHOG_PROJECT_ID"
               \/ starts_with "Failed to list dashboards: " m)).
Proof.
  split; [|split].
  - intros JSON_stringify world fetch env sql s s' e.
    destruct (truthy_string (env "POSTHOG_API_KEY")) as [k|] eqn:Hk.
    2: { rewrite (run_posthog_sql_no_key env _ _ fetch sql s Hk).
         intros H. inversion H. eauto. }
    destruct (truthy_string (env "POSTHOG_PROJECT_ID")) as [p|] eqn:Hp.
    2: { rewrite (run_posthog_sql_no_project env _ _ fetch sql s k Hk Hp).
         intros H. inversion H. eauto. }
    rewrite (run_posthog_sql_fetch _ _ fetch env k p sql s Hk Hp). cbv zeta.
    destruct (fetch (upstream s) _) as [w' [r|e']].
    + destruct (ok r).
      * destruct (json r); intros H; inversion H.
        eexists. split; [reflexivity|]. right. right. eexists. reflexivity.
      * intros H. inversion H.
        eexists. split; [reflexivity|]. right. right. eexists. reflexivity.
    + intros H. inversion H.
      eexists. split; [reflexivity|]. right. right. eexists. reflexivity.
  - intros JSON_stringify Number_toString world fetch env insightId s s' e.
    destruct (truthy_string (env "POSTHOG_API_KEY")) as [k|] eqn:Hk.
    2: { rewrite (get_posthog_insight_no_key env _ _ _ fetch insightId s Hk).
         intros H. inversion H. eauto. }
    destruct (truthy_string (env "POSTHOG_PROJECT_ID")) as [p|] eqn:Hp.
    2: { rewrite (get_posthog_insight_no_project env _ _ _ fetch insightId s k Hk Hp).
         intros H. inversion H. eauto. }
    rewrite (get_posthog_insight_fetch _ _ _ fetch env k p insightId s Hk Hp).
    cbv zeta.
    destruct (fetch (upstream s) _) as [w' [r|e']].
    + destruct (ok r).
      * destruct (json r) as [data|e'].
        -- destruct (insight_detail JSON_stringify data); intros H; inversion H.
           eexists. split; [reflexivity|]. right. right. eexists. reflexivity.
        -- intros H. inversion H.
           eexists. split; [reflexivity|]. right. right. eexists. reflexivity.
      * intros H. inversion H.
        eexists. split; [reflexivity|]. right. right. eexists. reflexivity.
    + intros H. inversion H.
      eexists. split; [reflexivity|]. right. right. eexists. reflexivity.
  - intros world fetch env fuel s s' e.
    destruct (truthy_string (env "POSTHOG_API_KEY")) as [k|] eqn:Hk.
    2: { rewrite (list_posthog_dashboards_no_key env _ fetch fuel s Hk).
         intros H. inversion H. eauto. }
    destruct (truthy_string (env "POSTHOG_PROJECT_ID")) as [p|] eqn:Hp.
    2: { rewrite (list_posthog_dashboards_no_project env _ fetch fuel s k Hk Hp).
         intros H. inversion H. eauto. }
    rewrite (list_posthog_dashboards_paginate _ fetch env k p fuel s Hk Hp).
    destruct (Dashboards.paginate fetch fuel k _ [] s) as [s1 [[all|]|e']];
      intros H; inversion H.
    eexists. split; [reflexivity|]. right. right. eexists. reflexivity.
Qed.

Lemma every_failure_is_unprocessable_witness :
  exists m,
    UnprocessableContent "PostHog query failed: fetch failed" = UnprocessableContent m
    /\ (m = required_message "POSTHOG_API_KEY"
        \/ m = required_message "POSTHOG_PROJECT_ID"
        \/ starts_with "PostHog query failed: " m).
Proof.
  destruct every_failure_is_unprocessable as [H _].
  exact (H Samples.no_stringify unit FailureSamples.unreachable Samples.full_env
           "select 1"%string Samples.fresh _ _ eq_refl).
Defined.

Lemma paginate_breaks world
  (fetch : fetcher world Dashboards.API.PostHogDashboardListResponse) API_KEY
  w next k w' e :
  DashboardFailures.breaks fetch API_KEY w next k w' e ->
  forall fuel allDashboards log,
    k < fuel ->
    exists reqs,
      Dashboards.paginate fetch fuel API_KEY next allDashboards
        {| upstream := w; calls := log |}
      = ({| upstream := w'; calls := log ++ reqs |}, Throw e)
      /\ List.length reqs = S k.
Proof.
  induction 1 as [w url w' e U F | w url w' r e U F O J
                  | w url w1 page k w' e U A _ IH];
    intros fuel allDashboards log Hfuel.
  - destruct fuel as [|fuel]; [lia|].
    exists [get_json API_KEY url]. split; trivial.
    simpl. destruct (String.eqb_spec url ""); [contradiction|].
    unfold Http.bind at 1, await_fetch. simpl. now rewrite F.
  - destruct fuel as [|fuel]; [lia|].
    exists [get_json API_KEY url]. split; trivial.
    simpl. destruct (String.eqb_spec url ""); [contradiction|].
    unfold Http.bind at 1, await_fetch. simpl. rewrite F, O. simpl.
    unfold Http.bind at 1, lift. now rewrite J.
  - destruct fuel as [|fuel]; [lia|].
    assert (T : truthy_string (Some url) = Some url).
    { simpl. destruct (String.eqb_spec url ""); [contradiction|reflexivity]. }
    rewrite (paginate_page _ fetch fuel API_KEY (Some url) url page w1); trivial.
    simpl.
    destruct (IH fuel (allDashboards ++ DashboardSpec.page_summaries page)
                 (log ++ [get_json API_KEY url])) as [reqs [E L]]; [lia|].
    exists (get_json API_KEY url :: reqs). split.
    + rewrite E. now rewrite <- app_assoc.
    + simpl. now rewrite L.
Qed.

(** X11.  A request that is rejected (the upstream cannot be reached) and an
    ok response whose body is not JSON both end the operation with an
    [UnprocessableContent] whose message is the operation's prefix followed by
    the message of the underlying error; nothing is retried.  For the lister
    this holds at whichever page it happens, the dashboards gathered before
    being given up. *)
Theorem transport_and_parse_failures_are_reported :
  (forall JSON_stringify world (fetch : fetcher world RunSql.API.PostHogAPIResponse)
          env sql s API_KEY PROJECT_ID w' e,
      truthy_string (env "POSTHOG_API_KEY") = Some API_KEY ->
      truthy_string (env "POSTHOG_PROJECT_ID") = Some PROJECT_ID ->
      let req := RunSql.query_request JSON_stringify API_KEY
                   (RunSql.query_url (or_default (env "POSTHOG_HOST") "us.posthog.com")
                                     PROJECT_ID) sql in
      (fetch (upstream s) req = (w', Throw e)
       \/ exists r, fetch (upstream s) req = (w', Normal r)
                    /\ ok r = true /\ json r = Throw e) ->
      RunSql.run_posthog_sql JSON_stringify fetch env sql s
      = ({| upstream := w'; calls := calls s ++ [req] |},
         Throw (UnprocessableContent ("PostHog query failed: " +++ message_of e))))
  /\ (forall JSON_stringify Number_toString world
             (fetch : fetcher world Insight.API.PostHogInsightResponse)
             env insightId s API_KEY PROJECT_ID w' e,
         truthy_string (env "POSTHOG_API_KEY") = Some API_KEY ->
         truthy_string (env "POSTHOG_PROJECT_ID") = Some PROJECT_ID ->
         let req := get_json API_KEY
                      (insight_url (or_default (env "POSTHOG_HOST") "us.posthog.com")
                                   PROJECT_ID (Number_toString insightId)) in
         (fetch (upstream s) req = (w', Throw e)
          \/ exists r, fetch (upstream s) req = (w', Normal r)
                       /\ ok r = true /\ json r = Throw e) ->
         get_posthog_insight JSON_stringify Number_toString fetch env insightId s
         = ({| upstream := w'; calls := calls s ++ [req] |},
            Throw (UnprocessableContent ("Failed to get insight: " +++ message_of e))))
  /\ (forall world (fetch : fetcher world Dashboards.API.PostHogDashboardListResponse)
             env fuel s API_KEY PROJECT_ID k w' e,
         truthy_string (env "POSTHOG_API_KEY") = Some API_KEY ->
         truthy_string (env "POSTHOG_PROJECT_ID") = Some PROJECT_ID ->
         DashboardFailures.breaks fetch API_KEY (upstream s)
           (Some (Dashboards.dashboards_url
                    (or_default (env "POSTHOG_HOST") "us.posthog.com") PROJECT_ID))
           k w' e ->
         k < fuel ->
         exists reqs,
           Dashboards.list_posthog_dashboards fetch env fuel s
           = ({| upstream := w'; calls := calls s ++ reqs |},
              Throw (UnprocessableContent
                       ("Failed to list dashboards: " +++ message_of e)))
           /\ List.length reqs = S k).
Proof.
  split; [|split].
  - intros JSON_stringify world fetch env sql s API_KEY PROJECT_ID w' e Hk Hp req H.
    rewrite (run_posthog_sql_fetch _ _ fetch env _ _ sql s Hk Hp). cbv zeta.
    fold req. destruct H as [F | [r [F [O J]]]].
    + now rewrite F.
    + now rewrite F, O, J.
  - intros JSON_stringify Number_toString world fetch env insightId s
           API_KEY PROJECT_ID w' e Hk Hp req H.
    rewrite (get_posthog_insight_fetch _ _ _ fetch env _ _ insightId s Hk Hp).
    cbv zeta. fold req. destruct H as [F | [r [F [O J]]]].
    + now rewrite F.
    + now rewrite F, O, J.
  - intros world fetch env fuel s API_KEY PROJECT_ID k w' e Hk Hp B Hfuel.
    rewrite (list_posthog_dashboards_paginate _ fetch env _ _ fuel s Hk Hp).
    destruct s as [w log]. simpl in B.
    destruct (paginate_breaks _ fetch _ _ _ _ _ _ B fuel [] log Hfuel)
      as [reqs [E L]].
    exists reqs. now rewrite E.
Qed.

Lemma transport_and_parse_failures_are_reported_witness :
  (RunSql.run_posthog_sql Samples.no_stringify FailureSamples.unreachable
     Samples.full_env "select 1" Samples.fresh
   = ({| upstream := tt;
         calls := calls Samples.fresh
                  ++ [RunSql.query_request Samples.no_stringify "phx_key"
                        (RunSql.query_url
                           (or_default (Samples.full_env "POSTHOG_HOST") "us.posthog.com")
                           "42") "select 1"] |},
      Throw (UnprocessableContent
               ("PostHog query failed: " +++ message_of (Error "fetch failed")))))
  /\ (exists reqs,
        Dashboards.list_posthog_dashboards
          (Samples.serves [(DashboardSamples.first_url,
                            Samples.ok_response DashboardSamples.page1);
                           (DashboardSamples.second_url, FailureSamples.not_json)])
          Samples.full_env 5 Samples.fresh
        = ({| upstream := tt; calls := calls Samples.fresh ++ reqs |},
           Throw (UnprocessableContent
                    ("Failed to list dashboards: "
                     +++ message_of
                           (Error "Unexpected token < in JSON at position 0"))))
        /\ List.length reqs = 2).
Proof.
  destruct transport_and_parse_failures_are_reported as [H1 [_ H3]]. split.
  - apply (H1 Samples.no_stringify unit FailureSamples.unreachable Samples.full_env
              "select 1"%string Samples.fresh "phx_key"%string "42"%string tt
              (Error "fetch failed")).
    + reflexivity.
    + reflexivity.
    + left. reflexivity.
  - apply (H3 unit _ Samples.full_env 5 Samples.fresh "phx_key"%string "42"%string 1 tt).
    + reflexivity.
    + reflexivity.
    + apply DashboardFailures.breaks_later with tt DashboardSamples.page1.
      * discriminate.
      * eexists. repeat split; reflexivity.
      * apply DashboardFailures.breaks_unparsed with FailureSamples.not_json.
        -- discriminate.
        -- reflexivity.
        -- reflexivity.
        -- reflexivity.
    + lia.
Defined.

(** ** The requests an operation makes *)

(** X12.  Under a complete configuration [run_posthog_sql] and
    [get_posthog_insight] make exactly one request, whatever the upstream
    answers and whether the call then succeeds or fails: a [POST] of the
    HogQL query object to [https://HOST/api/projects/PROJECT_ID/query], and a
    [GET] without body of
    [https://HOST/api/projects/PROJECT_ID/insights/ID/], both with the JSON
    content type and the key as bearer token. *)
Theorem single_request_per_call :
  (forall JSON_stringify world (fetch : fetcher world RunSql.API.PostHogAPIResponse)
          env sql s API_KEY PROJECT_ID,
      truthy_string (env "POSTHOG_API_KEY") = Some API_KEY ->
      truthy_string (env "POSTHOG_PROJECT_ID") = Some PROJECT_ID ->
      let req :=
        {| req_method := POST;
           url := "https://" +++ or_default (env "POSTHOG_HOST") "us.posthog.com"
                  +++ "/api/projects/" +++ PROJECT_ID +++ "/query";
           headers := [("Content-Type", "application/json");
                       ("Authorization", "Bearer " +++ API_KEY)]%string;
           body := Some (JSON_stringify
                           (VObj [("query", VObj [("kind", VStr "HogQLQuery");
                                                  ("query", VStr sql)])])) |} in
      exists outcome,
        RunSql.run_posthog_sql JSON_stringify fetch env sql s
        = ({| upstream := fst (fetch (upstream s) req);
              calls := calls s ++ [req] |}, outcome))
  /\ (forall JSON_stringify Number_toString world
             (fetch : fetcher world Insight.API.PostHogInsightResponse)
             env insightId s API_KEY PROJECT_ID,
         truthy_string (env "POSTHOG_API_KEY") = Some API_KEY ->
         truthy_string (env "POSTHOG_PROJECT_ID") = Some PROJECT_ID ->
         let req :=
           {| req_method := GET;
              url := "https://" +++ or_default (env "POSTHOG_HOST") "us.posthog.com"
                     +++ "/api/projects/" +++ PROJECT_ID
                     +++ "/insights/" +++ Number_toString insightId +++ "/";
              headers := [("Content-Type", "application/json");
                          ("Authorization", "Bearer " +++ API_KEY)]%string;
              body := None |} in
         exists outcome,
           get_posthog_insight JSON_stringify Number_toString fetch env insightId s
           = ({| upstream := fst (fetch (upstream s) req);
                 calls := calls s ++ [req] |}, outcome)).
Proof.
  split.
  - intros JSON_stringify world fetch env sql s API_KEY PROJECT_ID Hk Hp req.
    rewrite (run_posthog_sql_fetch _ _ fetch env _ _ sql s Hk Hp). cbv zeta.
    change (RunSql.query_request JSON_stringify API_KEY
              (RunSql.query_url (or_default (env "POSTHOG_HOST") "us.posthog.com")
                                PROJECT_ID) sql) with req.
    destruct (fetch (upstream s) req) as [w' r]. eexists. reflexivity.
  - intros JSON_stringify Number_toString world fetch env insightId s
           API_KEY PROJECT_ID Hk Hp req.
    rewrite (get_posthog_insight_fetch _ _ _ fetch env _ _ insightId s Hk Hp).
    cbv zeta.
    change (get_json API_KEY
              (insight_url (or_default (env "POSTHOG_HOST") "us.posthog.com")
                           PROJECT_ID (Number_toString insightId))) with req.
    destruct (fetch (upstream s) req) as [w' r]. eexists. reflexivity.
Qed.

Lemma single_request_per_call_witness :
  exists outcome,
    get_posthog_insight Samples.no_stringify Samples.no_toString
      (@FailureSamples.unreachable Insight.API.PostHogInsightResponse)
      Samples.full_env 7%float Samples.fresh
    = ({| upstream := tt;
          calls := calls Samples.fresh
                   ++ [ {| req_method := GET;
                           url := "https://"
                                  +++ or_default (Samples.full_env "POSTHOG_HOST")
                                                 "us.posthog.com"
                                  +++ "/api/projects/" +++ "42"
                                  +++ "/insights/" +++ Samples.no_toString 7%float
                                  +++ "/";
                           headers := [("Content-Type", "application/json");
                                       ("Authorization", "Bearer " +++ "phx_key")]%string;
                           body := None |} ] |}, outcome).
Proof.
  destruct single_request_per_call as [_ H].
  apply (H Samples.no_stringify Samples.no_toString unit
           (@FailureSamples.unreachable Insight.API.PostHogInsightResponse)
           Samples.full_env 7%float Samples.fresh "phx_key"%string "42"%string).
  - reflexivity.
  - reflexivity.
Defined.

Lemma paginate_requests world
  (fetch : fetcher world Dashboards.API.PostHogDashboardListResponse) API_KEY fuel :
  forall next allDashboards s s' outcome,
    Dashboards.paginate fetch fuel API_KEY next allDashboards s = (s', outcome) ->
    exists urls,
      calls s' = calls s ++ map (get_json API_KEY) urls
      /\ List.length urls <= fuel
      /\ (forall u, hd_error urls = Some u -> truthy_string next = Some u).
Proof.
  induction fuel as [|fuel IH]; intros next allDashboards s s' outcome; simpl.
  - destruct (truthy_string next); unfold Http.ret; intros H; inversion H;
      exists []; simpl; rewrite app_nil_r;
      (split; [reflexivity|]; split; [lia|]; discriminate).
  - destruct (truthy_string next) as [url|].
    + unfold Http.bind at 1, await_fetch.
      destruct (fetch (upstream s) (get_json API_KEY url)) as [w1 [r|e]].
      * destruct (ok r); simpl.
        -- unfold Http.bind at 1, lift. destruct (json r) as [page|e].
           ++ unfold Http.bind at 1. rewrite for_of_push_dashboard.
              intros H. apply IH in H. destruct H as [urls [C [L _]]]. simpl in C.
              exists (url :: urls). simpl. rewrite C, <- app_assoc.
              split; [reflexivity|]. split; [lia|]. intros u E. now inversion E.
           ++ intros H. inversion H. exists [url]. simpl.
              split; [reflexivity|]. split; [lia|]. intros u E. now inversion E.
        -- unfold throw. intros H. inversion H. exists [url]. simpl.
           split; [reflexivity|]. split; [lia|]. intros u E. now inversion E.
      * intros H. inversion H. exists [url]. simpl.
        split; [reflexivity|]. split; [lia|]. intros u E. now inversion E.
    + unfold Http.ret. intros H. inversion H. exists []. simpl.
      rewrite app_nil_r. split; [reflexivity|]. split; [lia|]. discriminate.
Qed.

(** X13.  Whatever the upstream answers and however the call ends,
    [list_posthog_dashboards] only makes [GET] requests without body that
    carry the JSON content type and the key as bearer token, the ones to the
    URLs the upstream supplied as [next] included; the first goes to
    [https://HOST/api/projects/PROJECT_ID/dashboards/], and there is at most
    one request per iteration of the loop. *)
Theorem lister_requests_are_authorized_gets :
  forall world (fetch : fetcher world Dashboards.API.PostHogDashboardListResponse)
         env fuel s s' outcome API_KEY PROJECT_ID,
    truthy_string (env "POSTHOG_API_KEY") = Some API_KEY ->
    truthy_string (env "POSTHOG_PROJECT_ID") = Some PROJECT_ID ->
    Dashboards.list_posthog_dashboards fetch env fuel s = (s', outcome) ->
    exists reqs,
      calls s' = calls s ++ reqs
      /\ List.length reqs <= fuel
      /\ Forall (fun req =>
           req_method req = GET
           /\ body req = None
           /\ headers req = [("Content-Type", "application/json");
                             ("Authorization", "Bearer " +++ API_KEY)]%string)
           reqs
      /\ (forall req, hd_error reqs = Some req ->
            url req = "https://" +++ or_default (env "POSTHOG_HOST") "us.posthog.com"
                      +++ "/api/projects/" +++ PROJECT_ID +++ "/dashboards/").
Proof.
  intros world fetch env fuel s s' outcome API_KEY PROJECT_ID Hk Hp.
  rewrite (list_posthog_dashboards_paginate _ fetch env _ _ fuel s Hk Hp).
  destruct (Dashboards.paginate fetch fuel API_KEY _ [] s) as [s1 o] eqn:P.
  apply paginate_requests in P. destruct P as [urls [C [L F]]].
  intros H.
  assert (E : s1 = s') by (destruct o as [[all|]|e]; now inversion H). subst s1.
  exists (map (get_json API_KEY) urls). split; trivial.
  split; [now rewrite length_map|]. split.
  - apply Forall_forall. intros req Hreq. apply in_map_iff in Hreq.
    destruct Hreq as [u [<- _]]. auto.
  - intros req Hreq. destruct urls as [|u urls]; [discriminate|].
    simpl in Hreq. inversion Hreq. subst req. simpl.
    specialize (F u eq_refl). simpl in F. now inversion F.
Qed.

Lemma lister_requests_are_authorized_gets_witness :
  exists reqs,
    [get_json "phx_key" DashboardSamples.first_url;
     get_json "phx_key" DashboardSamples.second_url]
    = calls Samples.fresh ++ reqs
    /\ List.length reqs <= 5
    /\ Forall (fun req =>
         req_method req = GET
         /\ body req = None
         /\ headers req = [("Content-Type", "application/json");
                           ("Authorization", "Bearer " +++ "phx_key")]%string)
         reqs
    /\ (forall req, hd_error reqs = Some req ->
          url req = "https://" +++ or_default (Samples.full_env "POSTHOG_HOST")
                                              "us.posthog.com"
                    +++ "/api/projects/" +++ "42" +++ "/dashboards/").
Proof.
  exact (lister_requests_are_authorized_gets unit DashboardSamples.two_pages
           Samples.full_env 5 Samples.fresh _ _ "phx_key"%string "42"%string
           eq_refl eq_refl eq_refl).
Defined.

(** ** The lister against any upstream *)

Lemma paginate_done_calls world
  (fetch : fetcher world Dashboards.API.PostHogDashboardListResponse) fuel API_KEY :
  forall next allDashboards s s' all',
    Dashboards.paginate fetch fuel API_KEY next allDashboards s
    = (s', Normal (Some all')) ->
    exists pages,
      DashboardSpec.walked fetch API_KEY (upstream s) next pages (upstream s')
      /\ all' = allDashboards ++ flat_map DashboardSpec.page_summaries pages
      /\ calls s' = calls s ++ map (get_json API_KEY) (DashboardSpec.page_urls next pages)
      /\ List.length pages <= fuel.
Proof.
  induction fuel as [|fuel IH]; intros next allDashboards s s' all'; simpl.
  - destruct (truthy_string next) eqn:T; unfold Http.ret; intros H; inversion H.
    subst. exists []. simpl. rewrite !app_nil_r.
    split; [now constructor|]. auto.
  - destruct (truthy_string next) as [url|] eqn:T.
    + unfold Http.bind at 1, await_fetch.
      destruct (fetch (upstream s) (get_json API_KEY url)) as [w1 [r|e]] eqn:F;
        [|discriminate].
      destruct (ok r) eqn:O; simpl; [|discriminate].
      unfold Http.bind at 1, lift.
      destruct (json r) as [page|e] eqn:J; [|discriminate].
      unfold Http.bind at 1. rewrite for_of_push_dashboard.
      intros H. apply IH in H. simpl in H.
      destruct H as [pages [W [-> [C L]]]].
      exists (page :: pages). split; [|split; [|split]].
      * apply DashboardSpec.walked_page with url w1; trivial. exists r. auto.
      * simpl. now rewrite <- app_assoc.
      * simpl. rewrite T, C. simpl. now rewrite <- app_assoc.
      * simpl. lia.
    + unfold Http.ret. intros H. inversion H. subst.
      exists []. simpl. rewrite !app_nil_r.
      split; [now constructor|]. split; trivial. split; trivial. lia.
Qed.

Lemma page_summaries_ids pages :
  map Dashboards.id (flat_map DashboardSpec.page_summaries pages)
  = map Dashboards.API.id
        (flat_map (fun page => coalesce (Dashboards.API.results page) []) pages).
Proof.
  induction pages as [|page pages IH]; simpl; trivial.
  rewrite !map_app, IH. f_equal.
  unfold DashboardSpec.page_summaries. rewrite map_map. reflexivity.
Qed.

(** X14.  Whatever the upstream does, a result of [list_posthog_dashboards]
    is exactly what it fetched: the pages it went through, one request each
    and in that order, starting at the collection endpoint and following each
    [next] until one was falsy.  The dashboards are those of these pages in
    page order, none dropped, merged or moved (their ids are the upstream ids
    in sequence, repeated ones included), and [totalCount] is their number,
    the sum of the pages' [results] lengths. *)
Theorem lister_result_is_what_was_fetched :
  forall world (fetch : fetcher world Dashboards.API.PostHogDashboardListResponse)
         env fuel s s' out,
    Dashboards.list_posthog_dashboards fetch env fuel s = (s', Normal (Some out)) ->
    exists API_KEY PROJECT_ID pages,
      truthy_string (env "POSTHOG_API_KEY") = Some API_KEY
      /\ truthy_string (env "POSTHOG_PROJECT_ID") = Some PROJECT_ID
      /\ let start := Some (Dashboards.dashboards_url
                              (or_default (env "POSTHOG_HOST") "us.posthog.com")
                              PROJECT_ID) in
         DashboardSpec.walked fetch API_KEY (upstream s) start pages (upstream s')
         /\ List.length pages <= fuel
         /\ calls s'
            = calls s ++ map (get_json API_KEY) (DashboardSpec.page_urls start pages)
         /\ List.length (calls s') = List.length (calls s) + List.length pages
         /\ Dashboards.dashboards out = flat_map DashboardSpec.page_summaries pages
         /\ map Dashboards.id (Dashboards.dashboards out)
            = map Dashboards.API.id
                (flat_map (fun page => coalesce (Dashboards.API.results page) []) pages)
         /\ Dashboards.totalCount out = List.length (Dashboards.dashboards out)
         /\ Dashboards.totalCount out = DashboardSpec.results_total pages.
Proof.
  intros world fetch env fuel s s' out.
  destruct (truthy_string (env "POSTHOG_API_KEY")) as [k|] eqn:Hk.
  2: { unfold Dashboards.list_posthog_dashboards. rewrite Hk. discriminate. }
  destruct (truthy_string (env "POSTHOG_PROJECT_ID")) as [p|] eqn:Hp.
  2: { unfold Dashboards.list_posthog_dashboards. rewrite Hk, Hp. discriminate. }
  rewrite (list_posthog_dashboards_paginate _ fetch env k p fuel s Hk Hp).
  destruct (Dashboards.paginate fetch fuel k _ [] s) as [s1 [[all|]|e]] eqn:P;
    try discriminate.
  intros H. inversion H. subst. clear H.
  apply paginate_done_calls in P. destruct P as [pages [W [-> [C L]]]].
  exists k, p, pages. split; trivial. split; trivial. cbv zeta. simpl.
  split; [exact W|]. split; [exact L|]. split; [exact C|]. split.
  - rewrite C, length_app, length_map.
    now rewrite (page_urls_length _ fetch _ _ _ _ _ W).
  - split; [reflexivity|]. split; [apply page_summaries_ids|].
    split; [reflexivity|]. apply flat_map_page_summaries_length.
Qed.

Lemma lister_result_is_what_was_fetched_witness :
  exists API_KEY PROJECT_ID pages,
    truthy_string (Samples.full_env "POSTHOG_API_KEY") = Some API_KEY
    /\ truthy_string (Samples.full_env "POSTHOG_PROJECT_ID") = Some PROJECT_ID
    /\ let start := Some (Dashboards.dashboards_url
                            (or_default (Samples.full_env "POSTHOG_HOST")
                                        "us.posthog.com") PROJECT_ID) in
       DashboardSpec.walked DashboardSamples.two_pages API_KEY
         (upstream Samples.fresh) start pages tt
       /\ List.length pages <= 5
       /\ [get_json "phx_key" DashboardSamples.first_url;
           get_json "phx_key" DashboardSamples.second_url]
          = calls Samples.fresh
            ++ map (get_json API_KEY) (DashboardSpec.page_urls start pages)
       /\ 2 = List.length (calls Samples.fresh) + List.length pages
       /\ flat_map DashboardSpec.page_summaries
            [DashboardSamples.page1; DashboardSamples.page2]
          = flat_map DashboardSpec.page_summaries pages
       /\ [1%float; 2%float; 3%float]
          = map Dashboards.API.id
              (flat_map (fun page => coalesce (Dashboards.API.results page) []) pages)
       /\ 3 = 3
       /\ 3 = DashboardSpec.results_total pages.
Proof.
  exact (lister_result_is_what_was_fetched unit DashboardSamples.two_pages
           Samples.full_env 5 Samples.fresh _ _ eq_refl).
Defined.

(** X15.  The loop ends on any falsy [next], not only on a null or absent
    one: when the upstream serves pages that lead from the collection endpoint
    to a page whose [next] is null, absent or the empty string,
    [list_posthog_dashboards], followed for at least that many iterations,
    returns their dashboards after one request per page. *)
Theorem falsy_next_ends_pagination :
  forall world (fetch : fetcher world Dashboards.API.PostHogDashboardListResponse)
         env fuel s API_KEY PROJECT_ID pages w',
    truthy_string (env "POSTHOG_API_KEY") = Some API_KEY ->
    truthy_string (env "POSTHOG_PROJECT_ID") = Some PROJECT_ID ->
    let start := Some (Dashboards.dashboards_url
                         (or_default (env "POSTHOG_HOST") "us.posthog.com")
                         PROJECT_ID) in
    DashboardSpec.walked fetch API_KEY (upstream s) start pages w' ->
    List.length pages <= fuel ->
    Dashboards.list_posthog_dashboards fetch env fuel s
    = ({| upstream := w';
          calls := calls s
                   ++ map (get_json API_KEY) (DashboardSpec.page_urls start pages) |},
       Normal (Some {| Dashboards.dashboards :=
                         flat_map DashboardSpec.page_summaries pages;
                       Dashboards.totalCount := DashboardSpec.results_total pages |})).
Proof.
  intros world fetch env fuel s API_KEY PROJECT_ID pages w' Hk Hp start W Hfuel.
  rewrite (list_posthog_dashboards_paginate _ fetch env _ _ fuel s Hk Hp).
  fold start. destruct s as [w log]. simpl in W.
  rewrite (paginate_walked _ fetch _ _ _ _ _ W fuel [] log Hfuel). simpl.
  now rewrite flat_map_page_summaries_length.
Qed.

Lemma falsy_next_ends_pagination_witness :
  Dashboards.list_posthog_dashboards
    (Samples.always (Samples.ok_response FailureSamples.page_with_empty_next))
    Samples.full_env 3 Samples.fresh
  = ({| upstream := tt;
        calls := calls Samples.fresh
                 ++ map (get_json "phx_key")
                      (DashboardSpec.page_urls
                         (Some (Dashboards.dashboards_url
                                  (or_default (Samples.full_env "POSTHOG_HOST")
                                              "us.posthog.com") "42"))
                         [FailureSamples.page_with_empty_next]) |},
     Normal (Some {| Dashboards.dashboards :=
                       flat_map DashboardSpec.page_summaries
                         [FailureSamples.page_with_empty_next];
                     Dashboards.totalCount :=
                       DashboardSpec.results_total
                         [FailureSamples.page_with_empty_next] |})).
Proof.
  apply (falsy_next_ends_pagination unit
           (Samples.always (Samples.ok_response FailureSamples.page_with_empty_next))
           Samples.full_env 3 Samples.fresh "phx_key"%string "42"%string
           [FailureSamples.page_with_empty_next] tt).
  - reflexivity.
  - reflexivity.
  - apply DashboardSpec.walked_page with DashboardSamples.first_url tt.
    + reflexivity.
    + eexists. repeat split; reflexivity.
    + apply DashboardSpec.walked_end. reflexivity.
  - simpl. lia.
Defined.

(** ** The rows of a query result *)

(** X16.  Whenever [run_posthog_sql] returns, [columns] is the fetched
    [columns] as it is, and [results] holds one string per fetched row, in row
    order: the serialization of that whole row.  Rows are neither flattened,
    dropped nor reordered, and absent [results] give no row. *)
Theorem rows_are_serialized_one_by_one :
  forall JSON_stringify world (fetch : fetcher world RunSql.API.PostHogAPIResponse)
         env sql s s' out,
    RunSql.run_posthog_sql JSON_stringify fetch env sql s = (s', Normal out) ->
    exists req data,
      answers fetch (upstream s) req data (upstream s')
      /\ (forall cols, RunSql.API.columns data = Has cols -> RunSql.columns out = cols)
      /\ (forall rows, RunSql.API.results data = Has rows ->
            List.length (RunSql.results out) = List.length rows
            /\ forall i row, nth_error rows i = Some row ->
                 nth_error (RunSql.results out) i = Some (JSON_stringify (VArr row)))
      /\ (nullish (RunSql.API.results data) = true -> RunSql.results out = []).
Proof.
  intros JSON_stringify world fetch env sql s s' out H.
  apply run_posthog_sql_returns in H. destruct H as [req [data [A [_ ->]]]].
  exists req, data. split; trivial. simpl. split; [|split].
  - now intros cols ->.
  - intros rows ->. simpl. split; [apply length_map|].
    intros i row Hi. now rewrite nth_error_map, Hi.
  - intros N. now destruct (RunSql.API.results data).
Qed.

Lemma rows_are_serialized_one_by_one_witness :
  exists req data,
    answers (Samples.always (Samples.ok_response FailureSamples.two_rows))
      (upstream Samples.fresh) req data tt
    /\ (forall cols, RunSql.API.columns data = Has cols ->
          ["event"; "count"]%string = cols)
    /\ (forall rows, RunSql.API.results data = Has rows ->
          2 = List.length rows
          /\ forall i row, nth_error rows i = Some row ->
               nth_error ["<json>"; "<json>"]%string i
               = Some (Samples.no_stringify (VArr row)))
    /\ (nullish (RunSql.API.results data) = true -> ["<json>"; "<json>"]%string = []).
Proof.
  exact (rows_are_serialized_one_by_one Samples.no_stringify unit
           (Samples.always (Samples.ok_response FailureSamples.two_rows))
           Samples.full_env "select 1"%string Samples.fresh _ _ eq_refl).
Defined.
